(** * SMEL: the Unified Meta Schema and the PostgreSQL adapter

    A shallow embedding of [Schema/unified_meta_schema.py], of the import
    and ordering code and the type names of
    [Schema/adapters/postgresql_adapter.py], and of the root detection and
    the attribute export of [Schema/adapters/mongodb_adapter.py], followed
    by the properties of the schema model that the specification states
    and by further properties of the code.

    Conventions of the embedding.
    - A Python [dict] keeps its insertion order, so it is an association
      list with the operations of [PyDict]; a Python [set] that is only
      tested and extended is a list, and where the code iterates over a set
      the iteration order is a parameter.
    - A [str, Enum] class is an inductive type with its [value] function and
      the partial inverse that the call [Cls(value)] computes.
    - An object that the code mutates in place is passed and returned
      explicitly.
    - A call that indexes a dict ([d[k]]) returns [option]; [None] is the
      [KeyError]. *)

From Stdlib Require Import String Ascii ZArith List Bool Lia Permutation
  DecimalString Relations.
Import ListNotations.
Set Warnings "-register-all".
Open Scope string_scope.
Open Scope list_scope.

(** ** Python dictionaries *)

Module PyDict.

Definition t (V : Type) : Type := list (string * V).

(** [d.get(k)] *)
Fixpoint get {V} (d : t V) (k : string) : option V :=
  match d with
  | [] => None
  | (k', v) :: r => if String.eqb k' k then Some v else get r k
  end.

(** [d.get(k, dflt)] *)
Definition get_default {V} (d : t V) (k : string) (dflt : V) : V :=
  match get d k with Some v => v | None => dflt end.

(** [k in d] *)
Definition mem {V} (d : t V) (k : string) : bool :=
  match get d k with Some _ => true | None => false end.

(** [d[k] = v]: an existing key keeps its position. *)
Fixpoint set {V} (d : t V) (k : string) (v : V) : t V :=
  match d with
  | [] => [(k, v)]
  | (k', v') :: r =>
      if String.eqb k' k then (k', v) :: r else (k', v') :: set r k v
  end.

(** [d.pop(k, None)] *)
Fixpoint pop {V} (d : t V) (k : string) : option V * t V :=
  match d with
  | [] => (None, [])
  | (k', v) :: r =>
      if String.eqb k' k then (Some v, r)
      else let '(o, r') := pop r k in (o, (k', v) :: r')
  end.

Definition keys {V} (d : t V) : list string := map fst d.
Definition values {V} (d : t V) : list V := map snd d.

(** The invariant of the data structure: a key occurs once. *)
Definition wf {V} (d : t V) : Prop := NoDup (keys d).

End PyDict.

(** ** Enumerations *)

Inductive DatabaseType := RELATIONAL | DOCUMENT | GRAPH | COLUMNAR.

Definition DatabaseType_value (d : DatabaseType) : string :=
  match d with
  | RELATIONAL => "relational" | DOCUMENT => "document"
  | GRAPH => "graph" | COLUMNAR => "columnar"
  end.

(** [db.name] *)
Definition DatabaseType_name (d : DatabaseType) : string :=
  match d with
  | RELATIONAL => "RELATIONAL" | DOCUMENT => "DOCUMENT"
  | GRAPH => "GRAPH" | COLUMNAR => "COLUMNAR"
  end.

Definition all_DatabaseType : list DatabaseType :=
  [RELATIONAL; DOCUMENT; GRAPH; COLUMNAR].

Inductive EntityKind :=
  TABLE | KDOCUMENT | EMBEDDED | VERTEX | EDGE | WIDE_COLUMN_TABLE.

Definition EntityKind_value (k : EntityKind) : string :=
  match k with
  | TABLE => "table" | KDOCUMENT => "document" | EMBEDDED => "embedded"
  | VERTEX => "vertex" | EDGE => "edge"
  | WIDE_COLUMN_TABLE => "wide_column_table"
  end.

Definition all_EntityKind : list EntityKind :=
  [TABLE; KDOCUMENT; EMBEDDED; VERTEX; EDGE; WIDE_COLUMN_TABLE].

Inductive PrimitiveType :=
  STRING | TEXT | INTEGER | LONG | DOUBLE | FLOAT | DECIMAL | BOOLEAN
| DATE | DATETIME | TIMESTAMP | UUID | BINARY | NULL | OBJECT_ID
| INT32 | INT64 | DECIMAL128.

Definition PrimitiveType_value (p : PrimitiveType) : string :=
  match p with
  | STRING => "string" | TEXT => "text" | INTEGER => "integer"
  | LONG => "long" | DOUBLE => "double" | FLOAT => "float"
  | DECIMAL => "decimal" | BOOLEAN => "boolean" | DATE => "date"
  | DATETIME => "datetime" | TIMESTAMP => "timestamp" | UUID => "uuid"
  | BINARY => "binary" | NULL => "null" | OBJECT_ID => "objectId"
  | INT32 => "int32" | INT64 => "int64" | DECIMAL128 => "decimal128"
  end.

Definition all_PrimitiveType : list PrimitiveType :=
  [STRING; TEXT; INTEGER; LONG; DOUBLE; FLOAT; DECIMAL; BOOLEAN; DATE;
   DATETIME; TIMESTAMP; UUID; BINARY; NULL; OBJECT_ID; INT32; INT64;
   DECIMAL128].

Inductive KeyType := PRIMARY | UNIQUE | FOREIGN | PARTITION | CLUSTERING.

Definition KeyType_value (k : KeyType) : string :=
  match k with
  | PRIMARY => "PRIMARY" | UNIQUE => "UNIQUE" | FOREIGN => "FOREIGN"
  | PARTITION => "PARTITION" | CLUSTERING => "CLUSTERING"
  end.

Definition all_KeyType : list KeyType :=
  [PRIMARY; UNIQUE; FOREIGN; PARTITION; CLUSTERING].

Inductive Cardinality := ZERO_TO_ONE | ONE_TO_ONE | ZERO_TO_MANY | ONE_TO_MANY.

Definition Cardinality_value (c : Cardinality) : string :=
  match c with
  | ZERO_TO_ONE => "?" | ONE_TO_ONE => "&"
  | ZERO_TO_MANY => "*" | ONE_TO_MANY => "+"
  end.

Scheme Equality for DatabaseType.
Scheme Equality for EntityKind.
Scheme Equality for PrimitiveType.
Scheme Equality for KeyType.
Scheme Equality for Cardinality.

(** [Cls(value)]: the member whose value is the string, [None] for the
    [ValueError]. *)
Definition enum_of_value {E} (value : E -> string) (members : list E)
    (s : string) : option E :=
  find (fun m => String.eqb (value m) s) members.

(** [Cardinality.to_bounds] *)
Definition to_bounds (c : Cardinality) : Z * Z :=
  match c with
  | ZERO_TO_ONE => (0, 1) | ONE_TO_ONE => (1, 1)
  | ZERO_TO_MANY => (0, -1) | ONE_TO_MANY => (1, -1)
  end%Z.

Definition is_multiple (c : Cardinality) : bool :=
  match c with ZERO_TO_MANY | ONE_TO_MANY => true | _ => false end.

Definition is_required (c : Cardinality) : bool :=
  match c with ONE_TO_ONE | ONE_TO_MANY => true | _ => false end.

(** ** Type mappings *)

(** A dict keyed by the members of an enumeration. *)
Fixpoint enum_get {K V} (eqb : K -> K -> bool) (d : list (K * V)) (k : K)
    : option V :=
  match d with
  | [] => None
  | (k', v) :: r => if eqb k' k then Some v else enum_get eqb r k
  end.

Definition _TYPE_MAPS : list (DatabaseType * list (PrimitiveType * string)) :=
  [ (RELATIONAL,
     [ (STRING, "VARCHAR(255)"); (TEXT, "TEXT"); (INTEGER, "INTEGER");
       (LONG, "BIGINT"); (DOUBLE, "DOUBLE PRECISION"); (FLOAT, "REAL");
       (DECIMAL, "DECIMAL"); (BOOLEAN, "BOOLEAN"); (DATE, "DATE");
       (DATETIME, "TIMESTAMP"); (TIMESTAMP, "TIMESTAMP"); (UUID, "UUID");
       (BINARY, "BYTEA"); (NULL, "NULL"); (OBJECT_ID, "VARCHAR(24)");
       (INT32, "INTEGER"); (INT64, "BIGINT"); (DECIMAL128, "DECIMAL") ]);
    (DOCUMENT,
     [ (STRING, "string"); (TEXT, "string"); (INTEGER, "int");
       (LONG, "long"); (DOUBLE, "double"); (FLOAT, "double");
       (DECIMAL, "decimal"); (BOOLEAN, "bool"); (DATE, "date");
       (DATETIME, "date"); (TIMESTAMP, "timestamp"); (UUID, "binData");
       (BINARY, "binData"); (NULL, "null"); (OBJECT_ID, "objectId");
       (INT32, "int"); (INT64, "long"); (DECIMAL128, "decimal") ]);
    (GRAPH,
     [ (STRING, "String"); (TEXT, "String"); (INTEGER, "Integer");
       (LONG, "Long"); (DOUBLE, "Double"); (FLOAT, "Float");
       (DECIMAL, "Double"); (BOOLEAN, "Boolean"); (DATE, "Date");
       (DATETIME, "DateTime"); (TIMESTAMP, "DateTime"); (UUID, "String");
       (BINARY, "ByteArray"); (NULL, "null"); (OBJECT_ID, "String");
       (INT32, "Integer"); (INT64, "Long"); (DECIMAL128, "Double") ]);
    (COLUMNAR,
     [ (STRING, "text"); (TEXT, "text"); (INTEGER, "int");
       (LONG, "bigint"); (DOUBLE, "double"); (FLOAT, "float");
       (DECIMAL, "decimal"); (BOOLEAN, "boolean"); (DATE, "date");
       (DATETIME, "timestamp"); (TIMESTAMP, "timestamp"); (UUID, "uuid");
       (BINARY, "blob"); (NULL, "text"); (OBJECT_ID, "text");
       (INT32, "int"); (INT64, "bigint"); (DECIMAL128, "decimal") ]) ].

(** [_TYPE_MAPS[db][ptype]]; [None] is the [KeyError] of either index. *)
Definition _get_native_type (ptype : PrimitiveType) (db : DatabaseType)
    : option string :=
  match enum_get DatabaseType_beq _TYPE_MAPS db with
  | Some m => enum_get PrimitiveType_beq m ptype
  | None => None
  end.

(** ** Data types *)

Inductive DataType :=
| PrimitiveDataType (primitive_type : PrimitiveType)
    (max_length precision scale : option Z)
| ListDataType (element_type : DataType)
| SetDataType (element_type : DataType)
| MapDataType (key_type value_type : DataType).

(** [str(n)] for an [int] *)
Definition str_of_int (z : Z) : string := NilZero.string_of_int (Z.to_int z).

(** The truth value of an [Optional[int]] in a condition. *)
Definition truthy_int (o : option Z) : bool :=
  match o with Some z => negb (Z.eqb z 0) | None => false end.

(** The truth value of an [Optional[str]] in a condition. *)
Definition truthy_str (o : option string) : bool :=
  match o with Some s => negb (String.eqb s "") | None => false end.

(** [str(x)] for an [Optional[int]], as an f-string prints it *)
Definition str_of_opt_int (o : option Z) : string :=
  match o with Some z => str_of_int z | None => "None" end.

(** [x or 0] *)
Definition int_or (o : option Z) (dflt : Z) : Z :=
  match o with Some z => if Z.eqb z 0 then dflt else z | None => dflt end.

(** [DataType.to_native], with the [KeyError] of [_get_native_type]
    propagated as [None]. *)
Fixpoint to_native (t : DataType) (db : DatabaseType) : option string :=
  match t with
  | PrimitiveDataType pt max_length precision scale =>
      match _get_native_type pt db with
      | None => None
      | Some base =>
          if DatabaseType_beq db RELATIONAL then
            if PrimitiveType_beq pt STRING && truthy_int max_length then
              Some ("VARCHAR(" ++ str_of_opt_int max_length ++ ")")%string
            else if PrimitiveType_beq pt DECIMAL && truthy_int precision then
              Some ("DECIMAL(" ++ str_of_opt_int precision ++ ","
                      ++ str_of_int (int_or scale 0) ++ ")")%string
            else Some base
          else Some base
      end
  | ListDataType el =>
      (* the dict literal formats the element type for three paradigms
         before the lookup *)
      match to_native el db with
      | None => None
      | Some n =>
          Some (match db with
                | RELATIONAL => n ++ "[]"
                | DOCUMENT => "array"
                | GRAPH => "List<" ++ n ++ ">"
                | COLUMNAR => "list<" ++ n ++ ">"
                end)%string
      end
  | SetDataType el =>
      match db with
      | COLUMNAR =>
          match to_native el db with
          | Some n => Some ("set<" ++ n ++ ">")%string
          | None => None
          end
      | RELATIONAL =>
          match to_native el db with
          | Some n => Some (n ++ "[]")%string
          | None => None
          end
      | _ => Some "array"
      end
  | MapDataType kt vt =>
      match db with
      | COLUMNAR =>
          match to_native kt db, to_native vt db with
          | Some k, Some v => Some ("map<" ++ k ++ ", " ++ v ++ ">")%string
          | _, _ => None
          end
      | _ =>
          Some (PyDict.get_default
                  [("RELATIONAL", "JSONB"); ("DOCUMENT", "object");
                   ("GRAPH", "Map")]
                  (DatabaseType_name db) "JSONB")
      end
  end.


(** ** Serialized values *)

(** The values that [to_dict] produces and [from_dict] reads: the JSON
    fragment of Python's values. *)
Inductive json :=
| JNone
| JBool (b : bool)
| JInt (z : Z)
| JStr (s : string)
| JList (l : list json)
| JDict (d : list (string * json)).

(** [{k: f(v) for k, v in d.items()}] and any other dict built by
    successive assignments. *)
Definition dict_of_items {V} (items : list (string * V)) : PyDict.t V :=
  fold_left (fun d kv => PyDict.set d (fst kv) (snd kv)) items [].

Definition json_of_opt_int (o : option Z) : json :=
  match o with Some z => JInt z | None => JNone end.

Definition json_of_opt_str (o : option string) : json :=
  match o with Some s => JStr s | None => JNone end.

(** [if v: d[k] = v] for an optional field. *)
Definition set_if_int (d : PyDict.t json) (k : string) (v : option Z)
    : PyDict.t json :=
  if truthy_int v then PyDict.set d k (json_of_opt_int v) else d.

Definition set_if_str (d : PyDict.t json) (k : string) (v : option string)
    : PyDict.t json :=
  if truthy_str v then PyDict.set d k (json_of_opt_str v) else d.

(** [if l: d[k] = [f(x) for x in l]] for a list field. *)
Definition set_if_list {A} (d : PyDict.t json) (k : string) (l : list A)
    (f : A -> json) : PyDict.t json :=
  match l with [] => d | _ => PyDict.set d k (JList (map f l)) end.

(** [DataType.to_dict] *)
Fixpoint DataType_to_dict (t : DataType) : json :=
  match t with
  | PrimitiveDataType pt max_length precision scale =>
      let d := [("kind", JStr "primitive");
                ("type", JStr (PrimitiveType_value pt))] in
      JDict (set_if_int
               (set_if_int (set_if_int d "max_length" max_length)
                           "precision" precision)
               "scale" scale)
  | ListDataType el =>
      JDict [("kind", JStr "list"); ("element_type", DataType_to_dict el)]
  | SetDataType el =>
      JDict [("kind", JStr "set"); ("element_type", DataType_to_dict el)]
  | MapDataType kt vt =>
      JDict [("kind", JStr "map"); ("key_type", DataType_to_dict kt);
             ("value_type", DataType_to_dict vt)]
  end.

(** ** Schema elements *)

(** [x in l] on a list of dataclass instances: [==] is the field-wise
    equality that [@dataclass] generates. *)
Definition py_in {A} (eq_dec : forall x y : A, {x = y} + {x <> y})
    (x : A) (l : list A) : bool :=
  existsb (fun y => if eq_dec y x then true else false) l.

Definition option_eq_dec' {A} (d : forall x y : A, {x = y} + {x <> y})
    (x y : option A) : {x = y} + {x <> y}.
Proof. decide equality. Defined.

Definition DataType_eq_dec (x y : DataType) : {x = y} + {x <> y}.
Proof.
  decide equality;
    try apply (option_eq_dec' Z.eq_dec); apply PrimitiveType_eq_dec.
Defined.

Module Attribute.

Record t := mk {
  attr_name : string;
  data_type : DataType;
  is_key : bool;
  is_optional : bool;
  description : option string;
  meta_id : string
}.

(** The property [name]. *)
Definition name (a : t) : string := attr_name a.

(** The assignment [attr.is_key = v]. *)
Definition set_is_key (a : t) (v : bool) : t :=
  mk (attr_name a) (data_type a) v (is_optional a) (description a)
     (meta_id a).

Definition eq_dec (x y : t) : {x = y} + {x <> y}.
Proof.
  decide equality;
    try apply string_dec; try apply bool_dec;
    try apply (option_eq_dec' string_dec); apply DataType_eq_dec.
Defined.

Definition to_dict (a : t) : json :=
  let d := [("kind", JStr "attribute"); ("meta_id", JStr (meta_id a));
            ("attr_name", JStr (attr_name a));
            ("data_type", DataType_to_dict (data_type a));
            ("is_key", JBool (is_key a));
            ("is_optional", JBool (is_optional a))] in
  JDict (set_if_str d "description" (description a)).

End Attribute.

Module Key.

Record t := mk {
  key_type : KeyType;
  key_attributes : list Attribute.t;
  is_managed : bool;
  referenced_entity : option string;
  referenced_attributes : list string
}.

(** [Key.add_attribute]: the attribute object is marked as a key member
    and, unless the key lists it already, appended.  The attribute is
    shared with its owner, so the marked attribute is returned next to
    the key.  The embedding holds attribute values, not objects: it
    describes the calls on a key whose members are all marked [is_key],
    as every key is that this method has built from an empty key.  (On a
    key that holds the object [attr] itself with its flag not set, the
    assignment marks that member in place and nothing is appended; a
    list of values cannot tell this member from an equal attribute that
    is another object, after which the marked [attr] is appended.) *)
Definition add_attribute (k : t) (attr : Attribute.t) : t * Attribute.t :=
  let attr' := Attribute.set_is_key attr true in
  if negb (py_in Attribute.eq_dec attr' (key_attributes k)) then
    (mk (key_type k) (key_attributes k ++ [attr']) (is_managed k)
        (referenced_entity k) (referenced_attributes k), attr')
  else (k, attr').

Definition get_attribute_names (k : t) : list string :=
  map Attribute.attr_name (key_attributes k).

Definition to_dict (k : t) : json :=
  let d := [("key_type", JStr (KeyType_value (key_type k)));
            ("attributes", JList (map JStr (get_attribute_names k)));
            ("is_managed", JBool (is_managed k))] in
  JDict (if truthy_str (referenced_entity k) then
           PyDict.set
             (PyDict.set d "referenced_entity"
                         (json_of_opt_str (referenced_entity k)))
             "referenced_attributes"
             (JList (map JStr (referenced_attributes k)))
         else d).

End Key.

(** [Union['EntityType', str]]: the target of a relationship is a name or
    an entity object, of which the code reads [en_name] only. *)
Inductive EntityRef :=
| ByName (name : string)
| ByObject (en_name : string).

Definition EntityRef_name (r : EntityRef) : string :=
  match r with ByName s => s | ByObject n => n end.

Module Relationship.

(** The two concrete subclasses of the abstract [Relationship]; the
    first four fields are the inherited ones. *)
Inductive t :=
| Reference (cardinality : Cardinality) (is_optional : bool)
    (description : option string) (meta_id : string)
    (ref_name : string) (refs_to : EntityRef)
    (edge_attributes : list Attribute.t)
| Aggregate (cardinality : Cardinality) (is_optional : bool)
    (description : option string) (meta_id : string)
    (aggr_name : string) (aggregates : EntityRef).

Definition cardinality (r : t) : Cardinality :=
  match r with
  | Reference c _ _ _ _ _ _ => c | Aggregate c _ _ _ _ _ => c
  end.

Definition is_optional (r : t) : bool :=
  match r with
  | Reference _ o _ _ _ _ _ => o | Aggregate _ o _ _ _ _ => o
  end.

Definition description (r : t) : option string :=
  match r with
  | Reference _ _ d _ _ _ _ => d | Aggregate _ _ d _ _ _ => d
  end.

Definition meta_id (r : t) : string :=
  match r with
  | Reference _ _ _ m _ _ _ => m | Aggregate _ _ _ m _ _ => m
  end.

(** [isinstance(r, Reference)] *)
Definition is_Reference (r : t) : bool :=
  match r with Reference _ _ _ _ _ _ _ => true | _ => false end.

(** [isinstance(r, Aggregate)] *)
Definition is_Aggregate (r : t) : bool :=
  match r with Aggregate _ _ _ _ _ _ => true | _ => false end.

(** [r.ref_name if isinstance(r, Reference) else r.aggr_name] *)
Definition rel_name (r : t) : string :=
  match r with
  | Reference _ _ _ _ n _ _ => n | Aggregate _ _ _ _ n _ => n
  end.

Definition get_target_entity_name (r : t) : string :=
  match r with
  | Reference _ _ _ _ _ tgt _ => EntityRef_name tgt
  | Aggregate _ _ _ _ _ tgt => EntityRef_name tgt
  end.

Definition lower_bound (r : t) : Z := fst (to_bounds (cardinality r)).
Definition upper_bound (r : t) : Z := snd (to_bounds (cardinality r)).

(** [Aggregate.is_array] *)
Definition is_array (r : t) : bool := is_multiple (cardinality r).

Definition eq_dec (x y : t) : {x = y} + {x <> y}.
Proof.
  decide equality;
    try apply string_dec; try apply bool_dec;
    try apply (option_eq_dec' string_dec);
    try apply Cardinality_eq_dec;
    try apply (list_eq_dec Attribute.eq_dec);
    decide equality; apply string_dec.
Defined.

Definition to_dict (r : t) : json :=
  match r with
  | Reference cardinality is_optional description meta_id ref_name _
              edge_attributes =>
      let d := [("kind", JStr "reference"); ("meta_id", JStr meta_id);
                ("ref_name", JStr ref_name);
                ("refs_to", JStr (get_target_entity_name r));
                ("cardinality", JStr (Cardinality_value cardinality));
                ("is_optional", JBool is_optional)] in
      JDict (set_if_str
               (set_if_list d "edge_attributes" edge_attributes
                            Attribute.to_dict)
               "description" description)
  | Aggregate cardinality is_optional description meta_id aggr_name _ =>
      let d := [("kind", JStr "aggregate"); ("meta_id", JStr meta_id);
                ("aggr_name", JStr aggr_name);
                ("aggregates", JStr (get_target_entity_name r));
                ("cardinality", JStr (Cardinality_value cardinality));
                ("is_optional", JBool is_optional);
                ("is_array", JBool (is_array r))] in
      JDict (set_if_str d "description" description)
  end.

End Relationship.

Module StructuralVariation.

Record t := mk {
  variation_id : Z;
  attributes : list Attribute.t;
  relationships : list Relationship.t;
  count : Z;
  first_timestamp : option string;
  last_timestamp : option string
}.

Definition add_attribute (v : t) (attr : Attribute.t) : t :=
  if negb (py_in Attribute.eq_dec attr (attributes v)) then
    mk (variation_id v) (attributes v ++ [attr]) (relationships v)
       (count v) (first_timestamp v) (last_timestamp v)
  else v.

Definition add_relationship (v : t) (rel : Relationship.t) : t :=
  if negb (py_in Relationship.eq_dec rel (relationships v)) then
    mk (variation_id v) (attributes v) (relationships v ++ [rel])
       (count v) (first_timestamp v) (last_timestamp v)
  else v.

Definition get_attribute (v : t) (name : string) : option Attribute.t :=
  find (fun a => String.eqb (Attribute.attr_name a) name) (attributes v).

Definition to_dict (v : t) : json :=
  let d := [("variation_id", JInt (variation_id v));
            ("attributes", JList (map Attribute.to_dict (attributes v)));
            ("relationships",
             JList (map Relationship.to_dict (relationships v)));
            ("count", JInt (count v))] in
  JDict (set_if_str (set_if_str d "first_timestamp" (first_timestamp v))
                    "last_timestamp" (last_timestamp v)).

End StructuralVariation.


(** ** Reading serialized values *)

(** [from_dict] draws a fresh identifier for every object it builds.  A
    computation takes the number of identifiers drawn so far and returns
    its result with the new number; [None] stands for a call that raises,
    or that would store a value of another type than the field declares. *)
Definition M (A : Type) : Type := nat -> option (A * nat).

Definition ret {A} (a : A) : M A := fun n => Some (a, n).

Definition bind {A B} (c : M A) (k : A -> M B) : M B :=
  fun n => match c n with Some (a, n') => k a n' | None => None end.

Definition lift {A} (o : option A) : M A :=
  fun n => match o with Some a => Some (a, n) | None => None end.

Notation "x <- c ;; k" := (bind c (fun x => k))
  (at level 61, c at next level, right associativity).

(** A [for] loop that updates [s]. *)
Fixpoint for_each {A S} (l : list A) (body : S -> A -> M S) (s : S) : M S :=
  match l with
  | [] => ret s
  | a :: r => s' <- body s a ;; for_each r body s'
  end.

Definition obind {A B} (o : option A) (k : A -> option B) : option B :=
  match o with Some a => k a | None => None end.

Notation "x <-? o ;; k" := (obind o (fun x => k))
  (at level 61, o at next level, right associativity).

Definition as_str (j : json) : option string :=
  match j with JStr s => Some s | _ => None end.

Definition as_bool (j : json) : option bool :=
  match j with JBool b => Some b | _ => None end.

Definition as_int (j : json) : option Z :=
  match j with JInt z => Some z | _ => None end.

(** The value of [data.get(k)] for an [Optional[str]] field. *)
Definition as_opt_str (o : option json) : option (option string) :=
  match o with
  | None | Some JNone => Some None
  | Some (JStr s) => Some (Some s)
  | _ => None
  end.

Definition as_opt_int (o : option json) : option (option Z) :=
  match o with
  | None | Some JNone => Some None
  | Some (JInt z) => Some (Some z)
  | _ => None
  end.

Definition as_list (j : json) : option (list json) :=
  match j with JList l => Some l | _ => None end.

Fixpoint as_strs (l : list json) : option (list string) :=
  match l with
  | [] => Some []
  | JStr s :: r => r' <-? as_strs r ;; Some (s :: r')
  | _ => None
  end.

Definition as_str_list (j : json) : option (list string) :=
  l <-? as_list j ;; as_strs l.

(** [j == s] for a string literal [s]. *)
Definition json_is (j : json) (s : string) : bool :=
  match j with JStr s' => String.eqb s' s | _ => false end.

(** [Cls(j)] under [try: ... except: dflt]. *)
Definition enum_of_json {E} (value : E -> string) (members : list E)
    (dflt : E) (j : json) : E :=
  match j with
  | JStr s =>
      match enum_of_value value members s with Some e => e | None => dflt end
  | _ => dflt
  end.

(** [Cardinality.from_symbol] *)
Definition from_symbol (s : string) : Cardinality :=
  PyDict.get_default
    [("?", ZERO_TO_ONE); ("&", ONE_TO_ONE); ("*", ZERO_TO_MANY);
     ("+", ONE_TO_MANY)] s ONE_TO_ONE.

(** [Cardinality.from_symbol] on a serialized value: a list or a dict is
    not hashable and makes the lookup raise, any other value that is not
    one of the four symbols gives the default. *)
Definition from_symbol_json (j : json) : option Cardinality :=
  match j with
  | JStr s => Some (from_symbol s)
  | JList _ | JDict _ => None
  | _ => Some ONE_TO_ONE
  end.

(** ** Entity types *)

Module EntityType.

Record t := mk {
  en_name : string;
  entity_kind : EntityKind;
  is_root : bool;
  keys : list Key.t;
  attributes : list Attribute.t;
  relationships : list Relationship.t;
  variations : list StructuralVariation.t;
  description : option string;
  meta_id : string
}.

(** The property [name]. *)
Definition name (e : t) : string := en_name e.

Definition set_keys (e : t) (ks : list Key.t) : t :=
  mk (en_name e) (entity_kind e) (is_root e) ks (attributes e)
     (relationships e) (variations e) (description e) (meta_id e).

Definition set_attributes (e : t) (l : list Attribute.t) : t :=
  mk (en_name e) (entity_kind e) (is_root e) (keys e) l
     (relationships e) (variations e) (description e) (meta_id e).

Definition set_relationships (e : t) (l : list Relationship.t) : t :=
  mk (en_name e) (entity_kind e) (is_root e) (keys e) (attributes e)
     l (variations e) (description e) (meta_id e).

Definition set_variations (e : t) (l : list StructuralVariation.t) : t :=
  mk (en_name e) (entity_kind e) (is_root e) (keys e) (attributes e)
     (relationships e) l (description e) (meta_id e).

(** [self.keys.append(key)] *)
Definition add_key (e : t) (key : Key.t) : t :=
  set_keys e (keys e ++ [key]).

(** [next((k for k in self.keys if k.key_type == KeyType.PRIMARY), None)] *)
Definition get_primary_key (e : t) : option Key.t :=
  find (fun k => KeyType_beq (Key.key_type k) PRIMARY) (keys e).

Definition get_partition_key (e : t) : option Key.t :=
  find (fun k => KeyType_beq (Key.key_type k) PARTITION) (keys e).

Definition get_unique_keys (e : t) : list Key.t :=
  filter (fun k => KeyType_beq (Key.key_type k) UNIQUE) (keys e).

Definition get_foreign_keys (e : t) : list Key.t :=
  filter (fun k => KeyType_beq (Key.key_type k) FOREIGN) (keys e).

Definition get_clustering_keys (e : t) : list Key.t :=
  filter (fun k => KeyType_beq (Key.key_type k) CLUSTERING) (keys e).

(** [self.attributes.append(attr)] *)
Definition add_attribute (e : t) (attr : Attribute.t) : t :=
  set_attributes e (attributes e ++ [attr]).

Definition get_attribute (e : t) (name : string) : option Attribute.t :=
  find (fun a => String.eqb (Attribute.attr_name a) name) (attributes e).

(** The first element that satisfies [p] is replaced by [x']. *)
Fixpoint replace_first {A} (p : A -> bool) (x' : A) (l : list A) : list A :=
  match l with
  | [] => []
  | x :: r => if p x then x' :: r else x :: replace_first p x' r
  end.

(** The attribute object that [get_attribute e name] returns has been
    assigned to and is now [a']. *)
Definition store_attribute (e : t) (name : string) (a' : Attribute.t) : t :=
  set_attributes e
    (replace_first (fun a => String.eqb (Attribute.attr_name a) name) a'
                   (attributes e)).

(** The first element that satisfies [p] is popped. *)
Fixpoint pop_first {A} (p : A -> bool) (l : list A) : option A * list A :=
  match l with
  | [] => (None, [])
  | x :: r =>
      if p x then (Some x, r)
      else let '(o, r') := pop_first p r in (o, x :: r')
  end.

Definition remove_attribute (e : t) (name : string)
    : option Attribute.t * t :=
  let '(o, l) :=
    pop_first (fun a => String.eqb (Attribute.attr_name a) name)
              (attributes e) in
  (o, set_attributes e l).

(** [self.relationships.append(rel)] *)
Definition add_relationship (e : t) (rel : Relationship.t) : t :=
  set_relationships e (relationships e ++ [rel]).

Definition get_references (e : t) : list Relationship.t :=
  filter Relationship.is_Reference (relationships e).

Definition get_aggregates (e : t) : list Relationship.t :=
  filter Relationship.is_Aggregate (relationships e).

Definition remove_relationship (e : t) (name : string)
    : option Relationship.t * t :=
  let '(o, l) :=
    pop_first (fun r => String.eqb (Relationship.rel_name r) name)
              (relationships e) in
  (o, set_relationships e l).

Definition add_variation (e : t) (v : StructuralVariation.t) : t :=
  set_variations e (variations e ++ [v]).

Definition get_variation (e : t) (vid : Z)
    : option StructuralVariation.t :=
  find (fun v => Z.eqb (StructuralVariation.variation_id v) vid)
       (variations e).

Definition to_dict (e : t) : json :=
  let d := [("meta_id", JStr (meta_id e)); ("en_name", JStr (en_name e));
            ("entity_kind", JStr (EntityKind_value (entity_kind e)));
            ("is_root", JBool (is_root e));
            ("keys", JList (map Key.to_dict (keys e)));
            ("attributes", JList (map Attribute.to_dict (attributes e)));
            ("relationships",
             JList (map Relationship.to_dict (relationships e)))] in
  JDict (set_if_str
           (set_if_list d "variations" (variations e)
                        StructuralVariation.to_dict)
           "description" (description e)).

(** The keys of kind [PRIMARY] on the entity. *)
Definition primary_keys (e : t) : list Key.t :=
  filter (fun k => KeyType_beq (Key.key_type k) PRIMARY) (keys e).

End EntityType.

Module RelationshipType.

Record t := mk {
  rel_name : string;
  source_entity : EntityRef;
  target_entity : EntityRef;
  attributes : list Attribute.t;
  cardinality : Cardinality;
  description : option string;
  meta_id : string
}.

Definition name (r : t) : string := rel_name r.
Definition get_source_name (r : t) : string :=
  EntityRef_name (source_entity r).
Definition get_target_name (r : t) : string :=
  EntityRef_name (target_entity r).

Definition add_attribute (r : t) (attr : Attribute.t) : t :=
  mk (rel_name r) (source_entity r) (target_entity r)
     (attributes r ++ [attr]) (cardinality r) (description r) (meta_id r).

Definition to_dict (r : t) : json :=
  let d := [("meta_id", JStr (meta_id r)); ("rel_name", JStr (rel_name r));
            ("source_entity", JStr (get_source_name r));
            ("target_entity", JStr (get_target_name r));
            ("attributes", JList (map Attribute.to_dict (attributes r)));
            ("cardinality", JStr (Cardinality_value (cardinality r)))] in
  JDict (set_if_str d "description" (description r)).

End RelationshipType.

(** ** The database *)

Module Database.

Record t := mk {
  db_name : string;
  db_type : DatabaseType;
  entity_types : PyDict.t EntityType.t;
  relationship_types : PyDict.t RelationshipType.t;
  version : Z;
  description : option string;
  meta_id : string
}.

Definition set_entity_types (d : t) (m : PyDict.t EntityType.t) : t :=
  mk (db_name d) (db_type d) m (relationship_types d) (version d)
     (description d) (meta_id d).

Definition set_relationship_types (d : t)
    (m : PyDict.t RelationshipType.t) : t :=
  mk (db_name d) (db_type d) (entity_types d) m (version d)
     (description d) (meta_id d).

(** [self.entity_types[e.en_name] = e] *)
Definition add_entity_type (d : t) (e : EntityType.t) : t :=
  set_entity_types d (PyDict.set (entity_types d) (EntityType.en_name e) e).

Definition get_entity_type (d : t) (name : string)
    : option EntityType.t :=
  PyDict.get (entity_types d) name.

Definition remove_entity_type (d : t) (name : string)
    : option EntityType.t * t :=
  let '(o, m) := PyDict.pop (entity_types d) name in
  (o, set_entity_types d m).

Definition add_relationship_type (d : t) (r : RelationshipType.t) : t :=
  set_relationship_types d
    (PyDict.set (relationship_types d) (RelationshipType.rel_name r) r).

Definition get_relationship_type (d : t) (name : string)
    : option RelationshipType.t :=
  PyDict.get (relationship_types d) name.

Definition remove_relationship_type (d : t) (name : string)
    : option RelationshipType.t * t :=
  let '(o, m) := PyDict.pop (relationship_types d) name in
  (o, set_relationship_types d m).

Definition increment_version (d : t) : Z * t :=
  let v := (version d + 1)%Z in
  (v, mk (db_name d) (db_type d) (entity_types d) (relationship_types d)
         v (description d) (meta_id d)).

(** Entity names are unique within a database and each entity is filed
    under its own name: what [add_entity_type] maintains. *)
Definition names_unique (d : t) : Prop :=
  PyDict.wf (entity_types d) /\
  Forall (fun ke => fst ke = EntityType.en_name (snd ke)) (entity_types d).

(** [Database.to_dict] *)
Definition to_dict (d : t) : json :=
  let base :=
    [("meta_id", JStr (meta_id d)); ("db_name", JStr (db_name d));
     ("db_type", JStr (DatabaseType_value (db_type d)));
     ("version", JInt (version d));
     ("entity_types",
      JDict (dict_of_items
               (map (fun ne => (fst ne, EntityType.to_dict (snd ne)))
                    (entity_types d))))] in
  let base :=
    match relationship_types d with
    | [] => base
    | _ =>
        PyDict.set base "relationship_types"
          (JDict (dict_of_items
                    (map (fun nr => (fst nr, RelationshipType.to_dict (snd nr)))
                         (relationship_types d))))
    end in
  JDict (set_if_str base "description" (description d)).

(** The data type that [_create_dtype({})] returns. *)
Definition default_dtype : DataType :=
  PrimitiveDataType STRING None None None.

(** [Database._create_dtype].  The recursive calls are on the values that
    [data.get(k, {})] returns: the local function [sub] looks the key up
    and recurses, and gives the result of [_create_dtype({})] when the key
    is not there. *)
Fixpoint _create_dtype (data : json) : option (option DataType) :=
  match data with
  | JDict d =>
      let sub :=
        fix sub (l : list (string * json)) (k : string)
            : option (option DataType) :=
          match l with
          | [] => Some (Some default_dtype)
          | (k', v) :: r =>
              if String.eqb k' k then _create_dtype v else sub r k
          end in
      let kind := PyDict.get_default d "kind" (JStr "primitive") in
      if json_is kind "primitive" then
        let pt := enum_of_json PrimitiveType_value all_PrimitiveType STRING
                    (PyDict.get_default d "type" (JStr "string")) in
        ml <-? as_opt_int (PyDict.get d "max_length") ;;
        pr <-? as_opt_int (PyDict.get d "precision") ;;
        sc <-? as_opt_int (PyDict.get d "scale") ;;
        Some (Some (PrimitiveDataType pt ml pr sc))
      else if json_is kind "list" then
        el <-? sub d "element_type" ;;
        Some (option_map ListDataType el)
      else if json_is kind "set" then
        el <-? sub d "element_type" ;;
        Some (option_map SetDataType el)
      else if json_is kind "map" then
        kt <-? sub d "key_type" ;;
        vt <-? sub d "value_type" ;;
        Some (match kt, vt with
              | Some k, Some v => Some (MapDataType k v)
              | _, _ => None
              end)
      else Some None
  | _ => None
  end.

Section FromDict.

(** [_uid]: the identifier that [uuid.uuid4()] gives at its [n]-th call. *)
Variable uid : nat -> string.

Definition _uid : M string := fun n => Some (uid n, S n).

(** The assignment [if "meta_id" in data: x.meta_id = data["meta_id"]]
    after the constructor has drawn [fresh]. *)
Definition meta_id_of (d : PyDict.t json) (fresh : string) : option string :=
  match PyDict.get d "meta_id" with
  | Some j => as_str j
  | None => Some fresh
  end.

(** [Database._create_attr] *)
Definition _create_attr (data : json) : M (option Attribute.t) :=
  match data with
  | JDict d =>
      if negb (json_is (PyDict.get_default d "kind" JNone) "attribute")
      then ret None
      else
        dt <- lift (_create_dtype
                      (PyDict.get_default d "data_type" (JDict []))) ;;
        let dt := match dt with Some t => t | None => default_dtype end in
        attr_name <- lift (as_str (PyDict.get_default d "attr_name"
                                                      (JStr ""))) ;;
        is_key <- lift (as_bool (PyDict.get_default d "is_key"
                                                    (JBool false))) ;;
        is_optional <- lift (as_bool (PyDict.get_default d "is_optional"
                                                         (JBool true))) ;;
        description <- lift (as_opt_str (PyDict.get d "description")) ;;
        fresh <- _uid ;;
        meta <- lift (meta_id_of d fresh) ;;
        ret (Some (Attribute.mk attr_name dt is_key is_optional description
                                meta))
  | _ => lift None
  end.

(** The loops [for a in ...: if attr := cls._create_attr(a): add(attr)]. *)
Definition create_attrs {S} (items : list json)
    (add : S -> Attribute.t -> S) (s : S) : M S :=
  for_each items
    (fun s a =>
       r <- _create_attr a ;;
       ret (match r with Some attr => add s attr | None => s end))
    s.

(** The body of the loop of [_create_key]:
    [if a := entity.get_attribute(an): k.add_attribute(a)]. *)
Definition add_key_member (ke : Key.t * EntityType.t) (an : json)
    : Key.t * EntityType.t :=
  let '(k, entity) := ke in
  match an with
  | JStr name =>
      match EntityType.get_attribute entity name with
      | Some a =>
          let '(k', a') := Key.add_attribute k a in
          (k', EntityType.store_attribute entity name a')
      | None => (k, entity)
      end
  | _ => (k, entity)
  end.

(** [Database._create_key]: the key, or [None] for a key without member,
    and the entity, whose attributes the key has marked. *)
Definition _create_key (data : json) (entity : EntityType.t)
    : option (option Key.t * EntityType.t) :=
  match data with
  | JDict d =>
      let kt := enum_of_json KeyType_value all_KeyType PRIMARY
                  (PyDict.get_default d "key_type" (JStr "PRIMARY")) in
      is_managed <-? as_bool (PyDict.get_default d "is_managed"
                                                 (JBool true)) ;;
      referenced_entity <-? as_opt_str (PyDict.get d "referenced_entity") ;;
      referenced_attributes <-?
        as_str_list (PyDict.get_default d "referenced_attributes"
                                        (JList [])) ;;
      names <-? as_list (PyDict.get_default d "attributes" (JList [])) ;;
      let k0 := Key.mk kt [] is_managed referenced_entity
                       referenced_attributes in
      let '(k, entity') := fold_left add_key_member names (k0, entity) in
      Some (match Key.key_attributes k with
            | [] => None
            | _ => Some k
            end, entity')
  | _ => None
  end.

(** [Database._create_rel] *)
Definition _create_rel (data : json) : M (option Relationship.t) :=
  match data with
  | JDict d =>
      let kind := PyDict.get_default d "kind" JNone in
      card <- lift (from_symbol_json
                      (PyDict.get_default d "cardinality" (JStr "&"))) ;;
      if json_is kind "reference" then
        ref_name <- lift (as_str (PyDict.get_default d "ref_name"
                                                     (JStr ""))) ;;
        refs_to <- lift (as_str (PyDict.get_default d "refs_to" (JStr ""))) ;;
        is_optional <- lift (as_bool (PyDict.get_default d "is_optional"
                                                         (JBool true))) ;;
        description <- lift (as_opt_str (PyDict.get d "description")) ;;
        fresh <- _uid ;;
        meta <- lift (meta_id_of d fresh) ;;
        items <- lift (as_list (PyDict.get_default d "edge_attributes"
                                                   (JList []))) ;;
        edge_attributes <- create_attrs items (fun l a => l ++ [a]) [] ;;
        ret (Some (Relationship.Reference card is_optional description meta
                                          ref_name (ByName refs_to)
                                          edge_attributes))
      else if json_is kind "aggregate" || json_is kind "embedded" then
        aggr_name <- lift (as_str
                             (PyDict.get_default d "aggr_name"
                                (PyDict.get_default d "em_name" (JStr "")))) ;;
        aggregates <- lift (as_str
                              (PyDict.get_default d "aggregates"
                                 (PyDict.get_default d "embeds" (JStr "")))) ;;
        is_optional <- lift (as_bool (PyDict.get_default d "is_optional"
                                                         (JBool true))) ;;
        description <- lift (as_opt_str (PyDict.get d "description")) ;;
        fresh <- _uid ;;
        meta <- lift (meta_id_of d fresh) ;;
        ret (Some (Relationship.Aggregate card is_optional description meta
                                          aggr_name (ByName aggregates)))
      else ret None
  | _ => lift None
  end.

(** The loops [for r in ...: if rel := cls._create_rel(r): add(rel)]. *)
Definition create_rels {S} (items : list json)
    (add : S -> Relationship.t -> S) (s : S) : M S :=
  for_each items
    (fun s r =>
       o <- _create_rel r ;;
       ret (match o with Some rel => add s rel | None => s end))
    s.

(** [Database._create_var] *)
Definition _create_var (data : json) : M (option StructuralVariation.t) :=
  match data with
  | JDict d =>
      variation_id <- lift (as_int (PyDict.get_default d "variation_id"
                                                       (JInt 0))) ;;
      count <- lift (as_int (PyDict.get_default d "count" (JInt 0))) ;;
      first_timestamp <- lift (as_opt_str (PyDict.get d "first_timestamp")) ;;
      last_timestamp <- lift (as_opt_str (PyDict.get d "last_timestamp")) ;;
      let v := StructuralVariation.mk variation_id [] [] count
                                      first_timestamp last_timestamp in
      attrs <- lift (as_list (PyDict.get_default d "attributes"
                                                 (JList []))) ;;
      v <- create_attrs attrs StructuralVariation.add_attribute v ;;
      rels <- lift (as_list (PyDict.get_default d "relationships"
                                                (JList []))) ;;
      v <- create_rels rels StructuralVariation.add_relationship v ;;
      ret (Some v)
  | _ => lift None
  end.

(** [Database._create_rel_type] *)
Definition _create_rel_type (data : json) : M (option RelationshipType.t) :=
  match data with
  | JDict d =>
      rel_name <- lift (as_str (PyDict.get_default d "rel_name" (JStr ""))) ;;
      source_entity <- lift (as_str (PyDict.get_default d "source_entity"
                                                        (JStr ""))) ;;
      target_entity <- lift (as_str (PyDict.get_default d "target_entity"
                                                        (JStr ""))) ;;
      card <- lift (from_symbol_json
                      (PyDict.get_default d "cardinality" (JStr "*"))) ;;
      description <- lift (as_opt_str (PyDict.get d "description")) ;;
      fresh <- _uid ;;
      meta <- lift (meta_id_of d fresh) ;;
      let r := RelationshipType.mk rel_name (ByName source_entity)
                 (ByName target_entity) [] card description meta in
      attrs <- lift (as_list (PyDict.get_default d "attributes"
                                                 (JList []))) ;;
      r <- create_attrs attrs RelationshipType.add_attribute r ;;
      ret (Some r)
  | _ => lift None
  end.

(** [Database._create_entity] *)
Definition _create_entity (data : json) : M (option EntityType.t) :=
  match data with
  | JDict d =>
      let kind := enum_of_json EntityKind_value all_EntityKind TABLE
                    (PyDict.get_default d "entity_kind" (JStr "table")) in
      en_name <- lift (as_str (PyDict.get_default d "en_name" (JStr ""))) ;;
      is_root <- lift (as_bool (PyDict.get_default d "is_root"
                                                   (JBool true))) ;;
      description <- lift (as_opt_str (PyDict.get d "description")) ;;
      fresh <- _uid ;;
      meta <- lift (meta_id_of d fresh) ;;
      let e := EntityType.mk en_name kind is_root [] [] [] [] description
                             meta in
      attrs <- lift (as_list (PyDict.get_default d "attributes"
                                                 (JList []))) ;;
      e <- create_attrs attrs EntityType.add_attribute e ;;
      keys <- lift (as_list (PyDict.get_default d "keys" (JList []))) ;;
      e <- for_each keys
             (fun e k =>
                r <- lift (_create_key k e) ;;
                ret (match fst r with
                     | Some key => EntityType.add_key (snd r) key
                     | None => snd r
                     end))
             e ;;
      rels <- lift (as_list (PyDict.get_default d "relationships"
                                                (JList []))) ;;
      e <- create_rels rels EntityType.add_relationship e ;;
      vars <- lift (as_list (PyDict.get_default d "variations"
                                                (JList []))) ;;
      e <- for_each vars
             (fun e v =>
                o <- _create_var v ;;
                ret (match o with
                     | Some var => EntityType.add_variation e var
                     | None => e
                     end))
             e ;;
      ret (Some e)
  | _ => lift None
  end.

(** [x.values()] for the value of [data.get(k, {})]. *)
Definition dict_values (j : json) : option (list json) :=
  match j with JDict d => Some (PyDict.values d) | _ => None end.

(** [Database.from_dict] *)
Definition from_dict (data : json) : M t :=
  match data with
  | JDict d =>
      db_name <- lift (as_str (PyDict.get_default d "db_name"
                                                  (JStr "unknown"))) ;;
      db_type <- lift (s <-? as_str (PyDict.get_default d "db_type"
                                                        (JStr "relational")) ;;
                       enum_of_value DatabaseType_value all_DatabaseType s) ;;
      version <- lift (as_int (PyDict.get_default d "version" (JInt 1))) ;;
      description <- lift (as_opt_str (PyDict.get d "description")) ;;
      fresh <- _uid ;;
      meta <- lift (meta_id_of d fresh) ;;
      let db := mk db_name db_type [] [] version description meta in
      es <- lift (dict_values (PyDict.get_default d "entity_types"
                                                  (JDict []))) ;;
      db <- for_each es
              (fun db e_data =>
                 o <- _create_entity e_data ;;
                 ret (match o with
                      | Some e => add_entity_type db e
                      | None => db
                      end))
              db ;;
      rs <- lift (dict_values (PyDict.get_default d "relationship_types"
                                                  (JDict []))) ;;
      db <- for_each rs
              (fun db r_data =>
                 o <- _create_rel_type r_data ;;
                 ret (match o with
                      | Some r => add_relationship_type db r
                      | None => db
                      end))
              db ;;
      ret db
  | _ => lift None
  end.

End FromDict.

End Database.


(** ** The PostgreSQL adapter: ordering of entities by dependency *)

(** A Python [set] of names: [add] and [in]. *)
Definition set_mem (x : string) (s : list string) : bool :=
  existsb (String.eqb x) s.

Definition set_add (x : string) (s : list string) : list string :=
  if set_mem x s then s else s ++ [x].

Module PostgreSQLAdapter.

(** The two variables that the nested function [visit] updates. *)
Record dfs_state := mk_state {
  sorted_names : list string;
  visited : list string
}.

Section Sort.

(** The order in which a [for] loop goes through a set, given the
    elements in the order of their insertion.  It is left open: the
    order of a set of strings changes from one run to the next. *)
Variable set_iter : list string -> list string.

(** The set [deps] that the first loop builds for an entity. *)
Definition entity_deps (entity : EntityType.t) : list string :=
  fold_left
    (fun deps rel =>
       if Relationship.is_Reference rel then
         let target := Relationship.get_target_entity_name rel in
         if negb (String.eqb target (EntityType.name entity))
         then set_add target deps
         else deps
       else deps)
    (EntityType.relationships entity) [].

(** The assignment [dependencies[entity.name] = deps]. *)
Definition dependencies_step (dependencies : PyDict.t (list string))
    (entity : EntityType.t) : PyDict.t (list string) :=
  PyDict.set dependencies (EntityType.name entity) (entity_deps entity).

(** The dict [dependencies]. *)
Definition build_dependencies (entities : list EntityType.t)
    : PyDict.t (list string) :=
  fold_left dependencies_step entities [].

(** The loop [for dep in dependencies.get(name, [])] of [visit], over
    the recursive call [rec]. *)
Definition visit_deps (rec : string -> dfs_state -> option dfs_state)
    (dependencies : PyDict.t (list string))
    : list string -> dfs_state -> option dfs_state :=
  fix loop (deps : list string) (st : dfs_state) : option dfs_state :=
    match deps with
    | [] => Some st
    | dep :: rest =>
        if PyDict.mem dependencies dep then
          match rec dep st with
          | Some st' => loop rest st'
          | None => None
          end
        else loop rest st
    end.

(** The nested function [visit]; [fuel] bounds the depth of the
    recursion, and [None] says that the bound was reached. *)
Fixpoint visit (fuel : nat) (dependencies : PyDict.t (list string))
    (name : string) (st : dfs_state) : option dfs_state :=
  match fuel with
  | O => None
  | S fuel' =>
      if set_mem name (visited st) then Some st
      else
        let st1 := mk_state (sorted_names st)
                            (set_add name (visited st)) in
        match visit_deps (visit fuel' dependencies) dependencies
                (set_iter (PyDict.get_default dependencies name []))
                st1 with
        | Some st2 =>
            Some (mk_state (sorted_names st2 ++ [name]) (visited st2))
        | None => None
        end
  end.

(** The loop [for name in dependencies: visit(name)]. *)
Fixpoint visit_all (fuel : nat) (dependencies : PyDict.t (list string))
    (names : list string) (st : dfs_state) : option dfs_state :=
  match names with
  | [] => Some st
  | name :: rest =>
      match visit fuel dependencies name st with
      | Some st' => visit_all fuel dependencies rest st'
      | None => None
      end
  end.

(** The result list: the entities that the sorted names are filed
    under. *)
Definition entities_of (database : Database.t) (names : list string)
    : list EntityType.t :=
  flat_map
    (fun name =>
       match Database.get_entity_type database name with
       | Some e => [e]
       | None => []
       end)
    names.

Definition sort_with_fuel (fuel : nat) (database : Database.t)
    : option (list EntityType.t) :=
  let entities := PyDict.values (Database.entity_types database) in
  let dependencies := build_dependencies entities in
  match visit_all fuel dependencies (PyDict.keys dependencies)
                  (mk_state [] []) with
  | Some st => Some (entities_of database (sorted_names st))
  | None => None
  end.

(** [_sort_entities_by_dependency].  The recursion of [visit] is at
    most one deeper than there are entities (see [visit_returns]), so
    this fuel is never used up. *)
Definition _sort_entities_by_dependency (database : Database.t)
    : option (list EntityType.t) :=
  sort_with_fuel (S (length (Database.entity_types database))) database.

End Sort.

(** *** Import of DDL text *)

(** The state of an adapter during [parse]: the database under
    construction, the pending references, and the number of identifiers
    drawn so far. *)
Record adapter := mk_adapter {
  database : Database.t;
  _pending_references : list (string * string * string);
  uids : nat
}.

Section Parse.

(** [uuid.uuid4()] *)
Variable uid : nat -> string.

(** Methods of [str]. *)
Variable lower upper strip : string -> string.
Variable startswith : string -> string -> bool.
(** [sub in s] *)
Variable contains : string -> string -> bool.
(** [' '.join(s.split())] *)
Variable normalize_whitespace : string -> string.
(** [s.split(',')] *)
Variable split_commas : string -> list string.
(** [int(s)], [None] for the [ValueError] *)
Variable py_int : string -> option Z.

(** The regular expressions of the adapter. *)
(** [re.sub(r'--.*$', '', ddl, flags=re.MULTILINE)] *)
Variable sub_line_comments : string -> string.
(** [re.sub(r'/\*.*?\*/', '', ddl, flags=re.DOTALL)] *)
Variable sub_block_comments : string -> string.
(** [re.findall] of the [CREATE TABLE] pattern: name and body of each
    statement, in the order of the text. *)
Variable findall_create_table : string -> list (string * string).
(** [re.match] of the column pattern: the groups 1 to 4, the last two of
    which may be unset. *)
Variable match_column
  : string -> option (string * string * option string * option string).
(** [re.search] of the [REFERENCES] pattern: the groups 1 and 2. *)
Variable search_references : string -> option (string * string).

(** Modelled from the spec: [TypeMappings.POSTGRESQL_TO_PRIMITIVE], which
    the adapter imports and src/ does not declare, is the adapter-owned
    reverse mapping from a native type name to a primitive kind. *)
Variable TYPE_MAP : PyDict.t PrimitiveType.

Definition _remove_comments (ddl : string) : string :=
  sub_block_comments (sub_line_comments ddl).

Definition _extract_create_tables (ddl : string) : list (string * string) :=
  findall_create_table ddl.

(** The loop of [_split_columns] over the characters of the body. *)
Fixpoint split_loop (body : string) (result : list string)
    (current : string) (depth : Z) : list string * string :=
  match body with
  | EmptyString => (result, current)
  | String char rest =>
      if Ascii.eqb char "("%char then
        split_loop rest result (current ++ String char "")%string (depth + 1)
      else if Ascii.eqb char ")"%char then
        split_loop rest result (current ++ String char "")%string (depth - 1)
      else if Ascii.eqb char ","%char && Z.eqb depth 0 then
        split_loop rest (result ++ [strip current]) "" depth
      else
        split_loop rest result (current ++ String char "")%string depth
  end.

Definition _split_columns (body : string) : list string :=
  let '(result, current) := split_loop body [] "" 0 in
  if negb (String.eqb (strip current) "")
  then result ++ [strip current]
  else result.

(** The truth value of a string in a condition. *)
Definition nonempty (s : string) : bool := negb (String.eqb s "").

(** [_parse_data_type]; [None] when [int] raises. *)
Definition _parse_data_type (type_name : string) (params : option string)
    : option DataType :=
  let primitive := PyDict.get_default TYPE_MAP type_name STRING in
  match params with
  | Some ps =>
      if nonempty ps then
        let parts := map strip (split_commas ps) in
        if PrimitiveType_beq primitive STRING
           || PrimitiveType_beq primitive TEXT then
          match parts with
          | p0 :: _ =>
              n <-? py_int p0 ;;
              Some (PrimitiveDataType primitive (Some n) None None)
          | [] => Some (PrimitiveDataType primitive None None None)
          end
        else if PrimitiveType_beq primitive DECIMAL then
          match parts with
          | p0 :: rest =>
              precision <-? py_int p0 ;;
              scale <-? match rest with
                        | p1 :: _ => py_int p1
                        | [] => Some 0%Z
                        end ;;
              Some (PrimitiveDataType primitive None (Some precision)
                                      (Some scale))
          | [] => Some (PrimitiveDataType primitive None None (Some 0%Z))
          end
        else Some (PrimitiveDataType primitive None None None)
      else Some (PrimitiveDataType primitive None None None)
  | None => Some (PrimitiveDataType primitive None None None)
  end.

(** [_parse_column]: the attribute and the reference information of a
    column definition; the attribute draws an identifier. *)
Definition _parse_column (col_def : string)
    : M (option Attribute.t * option (string * string)) :=
  let col_def := normalize_whitespace col_def in
  match match_column (strip col_def) with
  | None => ret (None, None)
  | Some (g1, g2, type_params, g4) =>
      let col_name := lower g1 in
      let col_type := upper g2 in
      let constraints := match g4 with Some c => c | None => "" end in
      data_type <- lift (_parse_data_type col_type type_params) ;;
      let is_key :=
        contains "PRIMARY KEY" (upper constraints)
        || (String.eqb col_type "SERIAL" || String.eqb col_type "BIGSERIAL")
      in
      let is_optional :=
        negb (contains "NOT NULL" (upper constraints)) && negb is_key in
      meta <- (fun n => Some (uid n, S n)) ;;
      let attr := Attribute.mk col_name data_type is_key is_optional None
                               meta in
      let ref_info :=
        match search_references constraints with
        | Some (g1', _) => Some (col_name, lower g1')
        | None => None
        end in
      ret (Some attr, ref_info)
  end.

(** Modelled from the spec: the adapter builds its entities and primary
    keys with declarations that src/ does not have
    ([EntityType(object_name=[...])], [UniqueConstraint], [add_constraint]).
    Per the data model an entity carries its qualified name, here the one
    segment [table_name.lower()], and a primary-key constraint is a [Key]
    of kind [PRIMARY] over the attribute, added with [add_key]. *)
Definition new_entity (table_name : string) (meta : string) : EntityType.t :=
  EntityType.mk (lower table_name) TABLE true [] [] [] [] None meta.

Definition primary_key_on (attr : Attribute.t) : Key.t :=
  Key.mk PRIMARY [attr] true None [].

Definition constraint_keywords : list string :=
  ["PRIMARY KEY"; "FOREIGN KEY"; "UNIQUE"; "CHECK"; "CONSTRAINT"].

(** The body of the loop of [_parse_table] over the column definitions;
    the state is the entity and the pending references. *)
Definition parse_table_column
    (st : EntityType.t * list (string * string * string)) (col_def : string)
    : M (EntityType.t * list (string * string * string)) :=
  let '(entity, pending) := st in
  let col_def := strip col_def in
  if negb (nonempty col_def) then ret st
  else if existsb (startswith (upper col_def)) constraint_keywords
  then ret st
  else
    r <- _parse_column col_def ;;
    match r with
    | (Some attr, ref_info) =>
        let entity := EntityType.add_attribute entity attr in
        let entity :=
          if contains "PRIMARY KEY" (upper col_def)
          then EntityType.add_key entity (primary_key_on attr)
          else entity in
        let pending :=
          match ref_info with
          | Some (fk, target) =>
              pending ++ [(EntityType.name entity, fk, target)]
          | None => pending
          end in
        ret (entity, pending)
    | (None, _) => ret st
    end.

(** The column definition [col_def] is read as a column, and the
    [REFERENCES] clause of its constraints names [target] for the column
    [fk]. *)
Definition column_references (col_def fk target : string) : Prop :=
  nonempty (strip col_def) = true /\
  existsb (startswith (upper (strip col_def))) constraint_keywords = false /\
  exists g1 g2 g3 g4 t c,
    match_column (strip (normalize_whitespace (strip col_def)))
      = Some (g1, g2, g3, g4) /\
    search_references (match g4 with Some x => x | None => "" end)
      = Some (t, c) /\
    fk = lower g1 /\ target = lower t.

(** [_parse_table] *)
Definition _parse_table (pending : list (string * string * string))
    (table_name table_body : string)
    : M (EntityType.t * list (string * string * string)) :=
  meta <- (fun n => Some (uid n, S n)) ;;
  let entity := new_entity table_name meta in
  let columns := _split_columns table_body in
  st <- for_each columns parse_table_column (entity, pending) ;;
  let '(entity, pending) := st in
  let entity :=
    match EntityType.get_primary_key entity with
    | Some _ => entity
    | None =>
        match find Attribute.is_key (EntityType.attributes entity) with
        | Some attr => EntityType.add_key entity (primary_key_on attr)
        | None => entity
        end
    end in
  ret (entity, pending).

(** The body of the loop of [_resolve_references]. *)
Definition resolve_reference (st : Database.t * nat)
    (ref : string * string * string) : Database.t * nat :=
  let '(db, n) := st in
  let '(entity_name, ref_name, target_name) := ref in
  match Database.get_entity_type db entity_name,
        Database.get_entity_type db target_name with
  | Some entity, Some _ =>
      let is_optional :=
        match EntityType.get_attribute entity ref_name with
        | Some attr => Attribute.is_optional attr
        | None => true
        end in
      let reference :=
        Relationship.Reference ONE_TO_ONE is_optional None (uid n) ref_name
                               (ByName target_name) [] in
      (* the entity object of the map is extended in place *)
      (Database.set_entity_types db
         (PyDict.set (Database.entity_types db) entity_name
                     (EntityType.add_relationship entity reference)),
       S n)
  | _, _ => (db, n)
  end.

(** [_resolve_references] *)
Definition _resolve_references (a : adapter) : adapter :=
  let '(db, n) :=
    fold_left resolve_reference (_pending_references a)
              (database a, uids a) in
  mk_adapter db (_pending_references a) n.

(** The loop of [parse] over the tables. *)
Definition parse_tables (tables : list (string * string)) (a : adapter)
    : option adapter :=
  fold_left
    (fun (oa : option adapter) (table : string * string) =>
       a <-? oa ;;
       r <-? _parse_table (_pending_references a) (fst table) (snd table)
                          (uids a) ;;
       let '((entity, pending), n) := r in
       Some (mk_adapter (Database.add_entity_type (database a) entity)
                        pending n))
    tables (Some a).

(** [parse]; [None] when a type parameter makes [int] raise. *)
Definition parse (ddl_content : string) (db_name : string) (n : nat)
    : option Database.t :=
  let db := Database.mk db_name RELATIONAL [] [] 1 None (uid n) in
  let a := mk_adapter db [] (S n) in
  let ddl := _remove_comments ddl_content in
  let tables := _extract_create_tables ddl in
  a <-? parse_tables tables a ;;
  Some (database (_resolve_references a)).

(** The text of the definition [c] of a table body that the column
    pattern is matched against: [_split_columns] strips the definition,
    [_parse_table] strips it again, and [_parse_column] normalizes its
    white space and strips it. *)
Definition column_text (c : string) : string :=
  strip (normalize_whitespace (strip (strip c))).

(** The definition [c] of a table body is read as a column, with the
    groups [g1] to [g4] of the column pattern: it does not strip to the
    empty string, it does not start with a constraint keyword, and the
    column pattern matches it. *)
Definition column_read (c g1 g2 : string) (g3 g4 : option string) : Prop :=
  strip c <> "" /\
  nonempty (strip (strip c)) = true /\
  existsb (startswith (upper (strip (strip c)))) constraint_keywords
    = false /\
  match_column (column_text c) = Some (g1, g2, g3, g4).

End Parse.

(** *** Export to DDL text *)

Section SqlExport.

(** Modelled from the spec: [TypeMappings.PRIMITIVE_TO_POSTGRESQL], which
    the adapter imports and src/ does not declare, is the adapter-owned
    mapping from a primitive kind to a native type name. *)
Variable REVERSE_TYPE_MAP : list (PrimitiveType * string).

(** [_get_sql_type]; [None] is the [AttributeError] of
    [attr.data_type.primitive_type] on a data type that is not primitive. *)
Definition _get_sql_type (attr : Attribute.t) : option string :=
  match Attribute.data_type attr with
  | PrimitiveDataType primitive max_length precision scale =>
      let base_type :=
        match enum_get PrimitiveType_beq REVERSE_TYPE_MAP primitive with
        | Some b => b
        | None => "VARCHAR"
        end in
      if String.eqb base_type "VARCHAR" then
        Some ("VARCHAR(" ++ str_of_int (int_or max_length 255) ++ ")")%string
      else if String.eqb base_type "DECIMAL" then
        Some ("DECIMAL(" ++ str_of_int (int_or precision 13) ++ ","
                ++ str_of_int (int_or scale 2) ++ ")")%string
      else if String.eqb base_type "INTEGER" && Attribute.is_key attr then
        Some "SERIAL"
      else Some base_type
  | _ => None
  end.

End SqlExport.

End PostgreSQLAdapter.

(** ** The MongoDB adapter: export *)

Module MongoDBAdapter.

(** [any(isinstance(r, Embedded) for r in entity.relationships)];
    [Embedded] is the alias of [Aggregate] that the schema module
    declares. *)
Definition has_embedded (entity : EntityType.t) : bool :=
  existsb Relationship.is_Aggregate (EntityType.relationships entity).

(** The set [embedded_entities] that the first loop of
    [_find_root_entity] builds. *)
Definition embedded_entities (database : Database.t) : list string :=
  fold_left
    (fun acc entity =>
       fold_left
         (fun acc rel =>
            if Relationship.is_Aggregate rel
            then set_add (Relationship.get_target_entity_name rel) acc
            else acc)
         (EntityType.relationships entity) acc)
    (PyDict.values (Database.entity_types database)) [].

(** [_find_root_entity]; [None] is the [StopIteration] that [next] raises
    on a database without entities. *)
Definition _find_root_entity (database : Database.t) : option string :=
  let embedded := embedded_entities database in
  match find (fun ne => has_embedded (snd ne)
                        && negb (set_mem (fst ne) embedded))
             (Database.entity_types database) with
  | Some ne => Some (fst ne)
  | None =>
      match find (fun ne => has_embedded (snd ne))
                 (Database.entity_types database) with
      | Some ne => Some (fst ne)
      | None =>
          match PyDict.keys (Database.entity_types database) with
          | k :: _ => Some k
          | [] => None
          end
      end
  end.

Section JsonExport.

(** Modelled from the spec: [TypeMappings.PRIMITIVE_TO_MONGODB], which the
    adapter imports and src/ does not declare, is the adapter-owned
    mapping from a primitive kind to a BSON type name. *)
Variable REVERSE_TYPE_MAP : list (PrimitiveType * string).

(** [cls.REVERSE_TYPE_MAP.get(p, 'string')] *)
Definition bson_of (p : PrimitiveType) : string :=
  match enum_get PrimitiveType_beq REVERSE_TYPE_MAP p with
  | Some b => b
  | None => "string"
  end.

(** [_export_attribute_to_property] *)
Definition _export_attribute_to_property (attr : Attribute.t)
    : PyDict.t json :=
  match Attribute.data_type attr with
  | ListDataType element_type =>
      match element_type with
      | PrimitiveDataType primitive_type _ _ _ =>
          [("bsonType", JStr "array");
           ("items", JDict [("bsonType", JStr (bson_of primitive_type))])]
      | _ =>
          [("bsonType", JStr "array");
           ("items", JDict [("bsonType", JStr "string")])]
      end
  | PrimitiveDataType primitive_type max_length _ _ =>
      let bson_type := bson_of primitive_type in
      let prop := [("bsonType", JStr bson_type)] in
      if truthy_int max_length && String.eqb bson_type "string"
      then PyDict.set prop "maxLength" (json_of_opt_int max_length)
      else prop
  | _ => [("bsonType", JStr "string")]
  end.

End JsonExport.

End MongoDBAdapter.

(** ** The reference graph of a database *)

(** [holds_reference a b]: the entity [a] has a [Reference] whose target
    name is the name of another entity, [b]. *)
Definition holds_reference (a : EntityType.t) (b : string) : Prop :=
  exists rel,
    In rel (EntityType.relationships a) /\
    Relationship.is_Reference rel = true /\
    Relationship.get_target_entity_name rel = b /\
    b <> EntityType.en_name a.

(** The dependency edges between the names of a database, the
    self-references left out. *)
Definition depends_on (database : Database.t) (a b : string) : Prop :=
  exists ea,
    In ea (PyDict.values (Database.entity_types database)) /\
    EntityType.en_name ea = a /\ holds_reference ea b.

Definition acyclic (database : Database.t) : Prop :=
  forall n, ~ clos_trans string (depends_on database) n n.

(** [before x y l]: [x] occurs in [l] strictly before an occurrence of
    [y]. *)
Definition before {A} (x y : A) (l : list A) : Prop :=
  exists l1 l2, l = l1 ++ x :: l2 /\ In y l2.

(** The number of names of the dict [D] that are not visited yet: the
    measure that bounds the recursion of [visit]. *)
Definition unvisited (D : PyDict.t (list string)) (v : list string) : nat :=
  length (filter (fun k => negb (set_mem k v)) (PyDict.keys D)).

(** What a call of [visit] adds: the names [new], appended to the order
    and joined to the visited set. *)
Definition extends (D : PyDict.t (list string))
    (st st' : PostgreSQLAdapter.dfs_state) (new : list string) : Prop :=
  PostgreSQLAdapter.sorted_names st'
    = PostgreSQLAdapter.sorted_names st ++ new /\
  (forall x, In x (PostgreSQLAdapter.visited st') <->
             In x (PostgreSQLAdapter.visited st) \/ In x new) /\
  NoDup new /\
  (forall x, In x new ->
             ~ In x (PostgreSQLAdapter.visited st) /\ In x (PyDict.keys D)).

(** The edges that [visit] follows: [d] is in the set filed under [n] and
    is itself a name of the dict. *)
Definition dep_edge (D : PyDict.t (list string)) (n d : string) : Prop :=
  In d (PyDict.get_default D n []) /\ In d (PyDict.keys D).

(** An order is closed when each of its names comes after the names it
    depends on. *)
Definition closed (D : PyDict.t (list string)) (l : list string) : Prop :=
  forall n d, In n l -> dep_edge D n d -> before d n l.

(** The names that are entered and not yet emitted all reach [name]. *)
Definition grey_reach (D : PyDict.t (list string))
    (st : PostgreSQLAdapter.dfs_state) (name : string) : Prop :=
  forall g, In g (PostgreSQLAdapter.visited st) ->
            ~ In g (PostgreSQLAdapter.sorted_names st) ->
            clos_trans string (dep_edge D) g name.

(** What a call leaves behind on an acyclic graph. *)
Definition visit_post (D : PyDict.t (list string))
    (st st' : PostgreSQLAdapter.dfs_state) : Prop :=
  closed D (PostgreSQLAdapter.sorted_names st') /\
  incl (PostgreSQLAdapter.sorted_names st') (PostgreSQLAdapter.visited st') /\
  (exists new, PostgreSQLAdapter.sorted_names st'
               = PostgreSQLAdapter.sorted_names st ++ new) /\
  (forall g, In g (PostgreSQLAdapter.visited st') ->
             In g (PostgreSQLAdapter.sorted_names st') \/
             In g (PostgreSQLAdapter.visited st)) /\
  incl (PostgreSQLAdapter.visited st) (PostgreSQLAdapter.visited st').

(** ** What [from_dict] rebuilds from the output of [to_dict] *)

(** An optional field that [to_dict] leaves out (a falsy value) comes back
    as [None]. *)
Definition reload_int (o : option Z) : option Z :=
  if truthy_int o then o else None.

Definition reload_str (o : option string) : option string :=
  if truthy_str o then o else None.

Fixpoint reload_dtype (t : DataType) : DataType :=
  match t with
  | PrimitiveDataType pt ml pr sc =>
      PrimitiveDataType pt (reload_int ml) (reload_int pr) (reload_int sc)
  | ListDataType el => ListDataType (reload_dtype el)
  | SetDataType el => SetDataType (reload_dtype el)
  | MapDataType kt vt => MapDataType (reload_dtype kt) (reload_dtype vt)
  end.

Definition reload_attr (a : Attribute.t) : Attribute.t :=
  Attribute.mk (Attribute.attr_name a) (reload_dtype (Attribute.data_type a))
               (Attribute.is_key a) (Attribute.is_optional a)
               (reload_str (Attribute.description a)) (Attribute.meta_id a).

(** A target comes back as the name that was written. *)
Definition reload_rel (r : Relationship.t) : Relationship.t :=
  match r with
  | Relationship.Reference c o d m n tgt ea =>
      Relationship.Reference c o (reload_str d) m n
                             (ByName (EntityRef_name tgt))
                             (map reload_attr ea)
  | Relationship.Aggregate c o d m n tgt =>
      Relationship.Aggregate c o (reload_str d) m n
                             (ByName (EntityRef_name tgt))
  end.

(** The number of identifiers that reading a relationship draws. *)
Definition rel_uids (r : Relationship.t) : nat :=
  match r with
  | Relationship.Reference _ _ _ _ _ _ ea => S (length ea)
  | Relationship.Aggregate _ _ _ _ _ _ => 1
  end.

(** The attribute that [get_attribute] finds under a name in the
    attribute list [attrs]. *)
Definition members_of (attrs : list Attribute.t) (names : list string)
    : list Attribute.t :=
  flat_map
    (fun n =>
       match find (fun a => String.eqb (Attribute.attr_name a) n) attrs with
       | Some a => [a]
       | None => []
       end)
    names.

Definition reload_key (attrs : list Attribute.t) (k : Key.t) : Key.t :=
  Key.mk (Key.key_type k)
         (members_of attrs (Key.get_attribute_names k))
         (Key.is_managed k)
         (reload_str (Key.referenced_entity k))
         (if truthy_str (Key.referenced_entity k)
          then Key.referenced_attributes k else []).

Definition reload_var (v : StructuralVariation.t) : StructuralVariation.t :=
  StructuralVariation.mk
    (StructuralVariation.variation_id v)
    (map reload_attr (StructuralVariation.attributes v))
    (map reload_rel (StructuralVariation.relationships v))
    (StructuralVariation.count v)
    (reload_str (StructuralVariation.first_timestamp v))
    (reload_str (StructuralVariation.last_timestamp v)).

Definition reload_entity (e : EntityType.t) : EntityType.t :=
  EntityType.mk
    (EntityType.en_name e) (EntityType.entity_kind e) (EntityType.is_root e)
    (map (reload_key (map reload_attr (EntityType.attributes e)))
         (EntityType.keys e))
    (map reload_attr (EntityType.attributes e))
    (map reload_rel (EntityType.relationships e))
    (map reload_var (EntityType.variations e))
    (reload_str (EntityType.description e))
    (EntityType.meta_id e).

Definition reload_rel_type (r : RelationshipType.t) : RelationshipType.t :=
  RelationshipType.mk
    (RelationshipType.rel_name r)
    (ByName (RelationshipType.get_source_name r))
    (ByName (RelationshipType.get_target_name r))
    (map reload_attr (RelationshipType.attributes r))
    (RelationshipType.cardinality r)
    (reload_str (RelationshipType.description r))
    (RelationshipType.meta_id r).

Definition reload_db (d : Database.t) : Database.t :=
  Database.mk
    (Database.db_name d) (Database.db_type d)
    (map (fun ne => (fst ne, reload_entity (snd ne))) (Database.entity_types d))
    (map (fun nr => (fst nr, reload_rel_type (snd nr)))
         (Database.relationship_types d))
    (Database.version d)
    (reload_str (Database.description d))
    (Database.meta_id d).

(** A key survives the round trip when it has a member, lists no name
    twice, and each name is the name of an attribute of the entity that is
    marked as a key member. *)
Definition key_ok (e : EntityType.t) (k : Key.t) : Prop :=
  Key.key_attributes k <> [] /\
  NoDup (Key.get_attribute_names k) /\
  Forall (fun n => exists a, EntityType.get_attribute e n = Some a /\
                             Attribute.is_key a = true)
         (Key.get_attribute_names k).

(** A variation survives when no two of its attributes, and no two of its
    relationships, are written the same. *)
Definition variation_ok (v : StructuralVariation.t) : Prop :=
  NoDup (map Attribute.to_dict (StructuralVariation.attributes v)) /\
  NoDup (map Relationship.to_dict (StructuralVariation.relationships v)).

Definition entity_ok (e : EntityType.t) : Prop :=
  Forall (key_ok e) (EntityType.keys e) /\
  Forall variation_ok (EntityType.variations e).

(** The databases that [to_dict] and [from_dict] carry over unchanged. *)
Definition serializable (d : Database.t) : Prop :=
  Database.names_unique d /\
  PyDict.wf (Database.relationship_types d) /\
  Forall (fun nr => fst nr = RelationshipType.rel_name (snd nr))
         (Database.relationship_types d) /\
  Forall (fun ne => entity_ok (snd ne)) (Database.entity_types d).

(** All the names are names of key attributes of the list. *)
Definition all_key_members (attrs : list Attribute.t) (ns : list string)
    : Prop :=
  Forall (fun n => exists a,
            find (fun x => String.eqb (Attribute.attr_name x) n) attrs
            = Some a /\ Attribute.is_key a = true) ns.

(** The reference that [_resolve_references] adds to an entity for the
    column [fk] and the target [target]: required-one, and optional as the
    attribute of the column is. *)
Definition resolved_reference (e : EntityType.t) (fk target : string)
    (r : Relationship.t) : Prop :=
  exists meta,
    r = Relationship.Reference ONE_TO_ONE
          (match EntityType.get_attribute e fk with
           | Some attr => Attribute.is_optional attr
           | None => true
           end)
          None meta fk (ByName target) [].

(** ** Invariants of the model and sample values *)

Definition at_most_one_primary (e : EntityType.t) : Prop :=
  (length (EntityType.primary_keys e) <= 1)%nat.

Definition attribute_names (e : EntityType.t) : list string :=
  map Attribute.attr_name (EntityType.attributes e).

(** The invariant of an attribute: a key member is not optional. *)
Definition key_not_optional (a : Attribute.t) : Prop :=
  Attribute.is_key a = true -> Attribute.is_optional a = false.

(** The data type without its length, precision and scale. *)
Fixpoint erase_params (t : DataType) : DataType :=
  match t with
  | PrimitiveDataType pt _ _ _ => PrimitiveDataType pt None None None
  | ListDataType el => ListDataType (erase_params el)
  | SetDataType el => SetDataType (erase_params el)
  | MapDataType kt vt => MapDataType (erase_params kt) (erase_params vt)
  end.

(** The parenthesis depth after the text [s], entered at [depth], when no
    comma of [s] stands at depth 0; [None] when one does. *)
Fixpoint depth_after (s : string) (depth : Z) : option Z :=
  match s with
  | EmptyString => Some depth
  | String char rest =>
      if Ascii.eqb char "("%char then depth_after rest (depth + 1)
      else if Ascii.eqb char ")"%char then depth_after rest (depth - 1)
      else if Ascii.eqb char ","%char && Z.eqb depth 0 then None
      else depth_after rest depth
  end.

(** The entities are filed so that each [Reference] to another entity of
    the database points to an entity filed earlier. *)
Fixpoint dependency_ordered (seen : list string)
    (entities : list (string * EntityType.t)) (all : list string) : Prop :=
  match entities with
  | [] => True
  | (name, e) :: rest =>
      (forall d, holds_reference e d -> In d all -> In d seen) /\
      dependency_ordered (seen ++ [name]) rest all
  end.

Module Samples.

Definition id_attr : Attribute.t :=
  Attribute.mk "id" (PrimitiveDataType INTEGER None None None)
               true false None "a-1".

Definition email_attr : Attribute.t :=
  Attribute.mk "email" (PrimitiveDataType STRING None None None)
               false true None "a-2".

(** A second attribute with the name of [email_attr]. *)
Definition email_again : Attribute.t :=
  Attribute.mk "email" (PrimitiveDataType TEXT None None None)
               false true None "a-3".

Definition pk_id : Key.t := Key.mk PRIMARY [id_attr] true None [].
Definition pk_email : Key.t := Key.mk PRIMARY [email_attr] true None [].
Definition uq_email : Key.t := Key.mk UNIQUE [email_attr] false None [].

Definition person : EntityType.t :=
  EntityType.mk "person" TABLE true [pk_id] [id_attr; email_attr] [] []
                None "e-1".

(** A second entity with the name of [person]. *)
Definition person_again : EntityType.t :=
  EntityType.mk "person" KDOCUMENT true [] [email_attr] [] [] None "e-2".

Definition address : EntityType.t :=
  EntityType.mk "address" TABLE true [] [id_attr] [] [] None "e-3".

Definition db : Database.t :=
  Database.mk "shop" RELATIONAL
              [("person", person); ("address", address)] [] 1 None "d-1".

(** [orders] references [customer], and is filed before it. *)
Definition customer : EntityType.t :=
  EntityType.mk "customer" TABLE true [pk_id] [id_attr] [] [] None "e-4".

Definition orders : EntityType.t :=
  EntityType.mk "orders" TABLE true [pk_id] [id_attr]
    [Relationship.Reference ONE_TO_ONE false None "r-1" "customer_id"
                            (ByName "customer") []]
    [] None "e-5".

Definition db_forward : Database.t :=
  Database.mk "sales" RELATIONAL
              [("orders", orders); ("customer", customer)] [] 1 None "d-2".

(** The same two entities, [customer] filed first. *)
Definition db_ordered : Database.t :=
  Database.mk "sales" RELATIONAL
              [("customer", customer); ("orders", orders)] [] 1 None "d-5".

(** Two entities that reference each other, one of them itself too. *)
Definition husband : EntityType.t :=
  EntityType.mk "husband" TABLE true [] [id_attr]
    [Relationship.Reference ONE_TO_ONE true None "r-2" "wife_id"
                            (ByName "wife") []]
    [] None "e-6".

Definition wife : EntityType.t :=
  EntityType.mk "wife" TABLE true [] [id_attr]
    [Relationship.Reference ONE_TO_ONE true None "r-3" "husband_id"
                            (ByName "husband") [];
     Relationship.Reference ONE_TO_ONE true None "r-4" "mother_id"
                            (ByName "wife") []]
    [] None "e-7".

Definition db_cycle : Database.t :=
  Database.mk "family" RELATIONAL
              [("husband", husband); ("wife", wife)] [] 1 None "d-3".

(** [person] with a second key that has no member. *)
Definition person_memberless_key : EntityType.t :=
  EntityType.mk "person" TABLE true
                [pk_id; Key.mk UNIQUE [] true None []]
                [id_attr; email_attr] [] [] None "e-8".

Definition db_memberless_key : Database.t :=
  Database.mk "crm" RELATIONAL [("person", person_memberless_key)] [] 1
              None "d-4".

(** A run of the regular expressions and string methods on the text
    [ddl_forward], in which [orders] references the later table
    [customer]. *)
Definition ddl_forward : string :=
  "CREATE TABLE orders (customer_id INTEGER REFERENCES customer(id)); CREATE TABLE customer (id SERIAL);".

Definition run_findall (ddl : string) : list (string * string) :=
  [("orders", "customer_id INTEGER REFERENCES customer(id)");
   ("customer", "id SERIAL")].

Definition run_match_column (col_def : string)
    : option (string * string * option string * option string) :=
  if String.eqb col_def "customer_id INTEGER REFERENCES customer(id)"
  then Some ("customer_id", "INTEGER", None, Some "REFERENCES customer(id)")
  else if String.eqb col_def "id SERIAL"
  then Some ("id", "SERIAL", None, None)
  else None.

Definition run_search_references (constraints : string)
    : option (string * string) :=
  if String.eqb constraints "REFERENCES customer(id)"
  then Some ("customer", "id")
  else None.

(** [s.strip()] on a text whose only white space is the space. *)
Fixpoint run_lstrip (s : string) : string :=
  match s with
  | String c r => if Ascii.eqb c " "%char then run_lstrip r else s
  | EmptyString => EmptyString
  end.

Fixpoint run_rstrip (s : string) : string :=
  match s with
  | EmptyString => EmptyString
  | String c r =>
      match run_rstrip r with
      | EmptyString =>
          if Ascii.eqb c " "%char then EmptyString else String c EmptyString
      | r' => String c r'
      end
  end.

Definition run_strip (s : string) : string := run_rstrip (run_lstrip s).

Definition run_contains (sub s : string) : bool :=
  match String.index 0 sub s with Some _ => true | None => false end.

Definition run_startswith (s prefix : string) : bool := String.prefix prefix s.

Definition run_type_map : PyDict.t PrimitiveType :=
  [("INTEGER", INTEGER); ("SERIAL", INTEGER)].

Definition run_parse (ddl : string) : option Database.t :=
  PostgreSQLAdapter.parse
    (fun _ => "fresh") (fun s => s) (fun s => s) (fun s => s)
    run_startswith run_contains (fun s => s) (fun s => [s])
    (fun _ => Some 0%Z) (fun s => s) (fun s => s) run_findall
    run_match_column run_search_references run_type_map ddl "sales" 0.

(** [s.upper()] and [s.lower()] on ASCII text. *)
Definition run_upper_char (c : ascii) : ascii :=
  let n := nat_of_ascii c in
  if Nat.leb 97 n && Nat.leb n 122 then ascii_of_nat (n - 32) else c.

Definition run_lower_char (c : ascii) : ascii :=
  let n := nat_of_ascii c in
  if Nat.leb 65 n && Nat.leb n 90 then ascii_of_nat (n + 32) else c.

Fixpoint run_upper (s : string) : string :=
  match s with
  | EmptyString => EmptyString
  | String c r => String (run_upper_char c) (run_upper r)
  end.

Fixpoint run_lower (s : string) : string :=
  match s with
  | EmptyString => EmptyString
  | String c r => String (run_lower_char c) (run_lower r)
  end.

(** A run of the regular expressions on two further texts, with the
    string methods computed.  In [ddl_two_columns] the second column of
    [orders] references the later table [customer]; in [ddl_keyword] the
    only column of [a] references the later table [b], and its name
    begins with the letters of a constraint keyword. *)
Definition ddl_two_columns : string :=
  "CREATE TABLE orders (id SERIAL, customer_id INTEGER NOT NULL REFERENCES customer(id)); CREATE TABLE customer (id SERIAL);".

Definition ddl_keyword : string :=
  "CREATE TABLE a (unique_b INTEGER REFERENCES b(id)); CREATE TABLE b (id SERIAL);".

Definition run_findall_tables (ddl : string) : list (string * string) :=
  if String.eqb ddl ddl_two_columns then
    [("orders",
      "id SERIAL, customer_id INTEGER NOT NULL REFERENCES customer(id)");
     ("customer", "id SERIAL")]
  else if String.eqb ddl ddl_keyword then
    [("a", "unique_b INTEGER REFERENCES b(id)"); ("b", "id SERIAL")]
  else [].

Definition run_match_columns (col_def : string)
    : option (string * string * option string * option string) :=
  if String.eqb col_def "id SERIAL"
  then Some ("id", "SERIAL", None, None)
  else if String.eqb col_def
            "customer_id INTEGER NOT NULL REFERENCES customer(id)"
  then Some ("customer_id", "INTEGER", None,
             Some "NOT NULL REFERENCES customer(id)")
  else if String.eqb col_def "unique_b INTEGER REFERENCES b(id)"
  then Some ("unique_b", "INTEGER", None, Some "REFERENCES b(id)")
  else None.

Definition run_search_clause (constraints : string)
    : option (string * string) :=
  if String.eqb constraints "NOT NULL REFERENCES customer(id)"
  then Some ("customer", "id")
  else if String.eqb constraints "REFERENCES b(id)"
  then Some ("b", "id")
  else None.

Definition run_parse_text (ddl : string) : option Database.t :=
  PostgreSQLAdapter.parse
    (fun _ => "fresh") run_lower run_upper run_strip
    run_startswith run_contains (fun s => s) (fun s => [s])
    (fun _ => Some 0%Z) (fun s => s) (fun s => s) run_findall_tables
    run_match_columns run_search_clause run_type_map ddl "sales" 0.

(** The same run, for one column definition and for one table. *)
Definition run_parse_column (col_def : string) (n : nat)
    : option (option Attribute.t * option (string * string) * nat) :=
  PostgreSQLAdapter._parse_column
    (fun _ => "fresh") (fun s => s) (fun s => s) (fun s => s)
    run_contains (fun s => s) (fun s => [s]) (fun _ => Some 0%Z)
    run_match_column run_search_references run_type_map col_def n.

Definition run_parse_table (table_name table_body : string) (n : nat)
    : option (EntityType.t * list (string * string * string) * nat) :=
  PostgreSQLAdapter._parse_table
    (fun _ => "fresh") (fun s => s) (fun s => s) (fun s => s)
    run_startswith run_contains (fun s => s) (fun s => [s])
    (fun _ => Some 0%Z) run_match_column run_search_references run_type_map
    [] table_name table_body n.

End Samples.

(** ** Proof automation *)

(** Inversion of the monadic steps of a [from_dict] computation. *)
Ltac inv_bind H :=
  repeat first
    [ progress (unfold bind at 1 in H)
    | match type of H with
      | match ?c ?n with Some _ => _ | None => _ end = Some _ =>
          let E := fresh "E" in
          destruct (c n) as [[? ?]|] eqn:E; [|discriminate H]
      | match ?c with Some _ => _ | None => _ end = Some _ =>
          let E := fresh "E" in
          destruct c as [[? ?]|] eqn:E; [|discriminate H]
      end ].

(** Evaluation of the lookups in a dict whose keys are literals, and of
    the monadic steps, without unfolding the serialized values. *)
Ltac dict_eval :=
  cbn [PyDict.get PyDict.get_default PyDict.set PyDict.mem PyDict.values
       PyDict.keys String.eqb Ascii.eqb Bool.eqb andb orb negb json_is
       as_str as_bool as_int as_opt_str as_opt_int as_list as_strs
       as_str_list obind bind lift ret option_map fst snd app
       json_of_opt_int json_of_opt_str from_symbol_json enum_of_json
       Database.meta_id_of Database._uid Database.dict_values
       Database._create_dtype].

(** One monadic step whose result is known. *)
Ltac mstep E := unfold bind at 1; rewrite E; cbv beta iota.
Ltac mlift := unfold bind at 1; unfold lift at 1; cbv beta iota.

(** * Properties *)

(** ** The type system *)

Lemma _get_native_type_total (ptype : PrimitiveType) (db : DatabaseType) :
  exists s, _get_native_type ptype db = Some s.
Proof. destruct ptype, db; vm_compute; eexists; reflexivity. Qed.

Lemma to_native_total (t : DataType) (db : DatabaseType) :
  exists s, to_native t db = Some s.
Proof.
  induction t as [pt ml pr sc | el IH | el IH | kt IHk vt IHv]; simpl.
  - destruct (_get_native_type_total pt db) as [b ->].
    destruct (DatabaseType_beq db RELATIONAL); [|eauto].
    destruct (PrimitiveType_beq pt STRING && truthy_int ml); [eauto|].
    destruct (PrimitiveType_beq pt DECIMAL && truthy_int pr); eauto.
  - destruct IH as [n ->]. eauto.
  - destruct IH as [n ->]. destruct db; eauto.
  - destruct IHk as [k ->], IHv as [v ->]. destruct db; eauto.
Qed.

(** C7. Over the closed enumerations the two indexings of [_TYPE_MAPS]
    never miss: for each of the 18 primitive kinds and each of the 4
    paradigms [_get_native_type] returns a string, and so does
    [PrimitiveDataType.to_native] whatever the length, precision and scale
    are. *)
Theorem C7_to_native_total :
  forall (p : PrimitiveType) (db : DatabaseType),
    In p all_PrimitiveType /\ In db all_DatabaseType /\
    (exists s, _get_native_type p db = Some s) /\
    (forall max_length precision scale,
        exists s, to_native (PrimitiveDataType p max_length precision scale) db
                  = Some s).
Proof.
  intros p db. repeat split.
  - destruct p; simpl; tauto.
  - destruct db; simpl; tauto.
  - apply _get_native_type_total.
  - intros. apply to_native_total.
Qed.

(** ** Dictionaries *)

Lemma PyDict_get_set_same {V} (d : PyDict.t V) k v :
  PyDict.get (PyDict.set d k v) k = Some v.
Proof.
  induction d as [|[k' v'] r IH]; simpl.
  - now rewrite String.eqb_refl.
  - destruct (String.eqb k' k) eqn:E; simpl; rewrite E; auto.
Qed.

Lemma PyDict_get_set_other {V} (d : PyDict.t V) k k' v :
  k' <> k -> PyDict.get (PyDict.set d k v) k' = PyDict.get d k'.
Proof.
  intros Hne. induction d as [|[k0 v0] r IH]; simpl.
  - destruct (String.eqb k k') eqn:E; auto.
    apply String.eqb_eq in E. congruence.
  - destruct (String.eqb k0 k) eqn:E; simpl.
    + apply String.eqb_eq in E. subst k0.
      destruct (String.eqb k k') eqn:E'; auto.
      apply String.eqb_eq in E'. congruence.
    + destruct (String.eqb k0 k'); auto.
Qed.

Lemma PyDict_keys_set {V} (d : PyDict.t V) k v :
  PyDict.keys (PyDict.set d k v) =
  if PyDict.mem d k then PyDict.keys d else PyDict.keys d ++ [k].
Proof.
  unfold PyDict.mem.
  induction d as [|[k' v'] r IH]; simpl; auto.
  destruct (String.eqb k' k) eqn:E; simpl; auto.
  rewrite IH. destruct (PyDict.get r k); auto.
Qed.

Lemma PyDict_get_None_keys {V} (d : PyDict.t V) k :
  PyDict.get d k = None <-> ~ In k (PyDict.keys d).
Proof.
  induction d as [|[k' v'] r IH]; simpl.
  - tauto.
  - destruct (String.eqb k' k) eqn:E.
    + apply String.eqb_eq in E. split; [discriminate | intros H; tauto].
    + apply String.eqb_neq in E. rewrite IH. tauto.
Qed.

Lemma PyDict_wf_set {V} (d : PyDict.t V) k v :
  PyDict.wf d -> PyDict.wf (PyDict.set d k v).
Proof.
  unfold PyDict.wf. intros Hd. rewrite PyDict_keys_set.
  unfold PyDict.mem. destruct (PyDict.get d k) eqn:E; auto.
  apply PyDict_get_None_keys in E.
  apply NoDup_app; auto.
  - repeat constructor. simpl. tauto.
  - intros x Hx [<-|[]]. contradiction.
Qed.

Lemma PyDict_In_set {V} (d : PyDict.t V) k v kv :
  In kv (PyDict.set d k v) -> kv = (k, v) \/ In kv d.
Proof.
  induction d as [|[k' v'] r IH]; simpl.
  - intros [<-|[]]; auto.
  - destruct (String.eqb k' k) eqn:E; simpl.
    + apply String.eqb_eq in E. subst k'. intros [<-|H]; auto.
    + intros [<-|H]; auto. destruct (IH H); auto.
Qed.

(** ** Mutation primitives of the model *)

Lemma filter_app_single {A} (p : A -> bool) (l : list A) (x : A) :
  filter p (l ++ [x]) = filter p l ++ (if p x then [x] else []).
Proof. rewrite filter_app. reflexivity. Qed.

Lemma find_hd_filter {A} (p : A -> bool) (l : list A) :
  find p l = hd_error (filter p l).
Proof. induction l as [|x r IH]; simpl; auto. destruct (p x); auto. Qed.

(** C1 (as stated, refuted). [add_key] accepts a second [PRIMARY] key: the
    entity [person], which has one, has two afterwards. *)
Lemma C1_second_primary_key_accepted :
  at_most_one_primary Samples.person /\
  EntityType.keys (EntityType.add_key Samples.person Samples.pk_email)
    = [Samples.pk_id; Samples.pk_email] /\
  length (EntityType.primary_keys
            (EntityType.add_key Samples.person Samples.pk_email)) = 2%nat.
Proof. unfold at_most_one_primary. simpl. repeat split; lia. Qed.

(** C1 (amended). [add_key] appends the key without a check.  It keeps
    the entity at no more than one [PRIMARY] key when the added key is of
    another kind or the entity has no [PRIMARY] key so far, and
    [get_primary_key] returns the first [PRIMARY] key of the list, the only
    one under the invariant. *)
Theorem C1_add_key_at_most_one_primary :
  forall (e : EntityType.t) (key : Key.t),
    at_most_one_primary e ->
    Key.key_type key <> PRIMARY \/ EntityType.get_primary_key e = None ->
    let e' := EntityType.add_key e key in
    EntityType.keys e' = EntityType.keys e ++ [key] /\
    at_most_one_primary e' /\
    EntityType.get_primary_key e' = hd_error (EntityType.primary_keys e') /\
    (forall p, EntityType.primary_keys e' = [p] ->
               EntityType.get_primary_key e' = Some p).
Proof.
  intros e key Hone Hcase e'. subst e'.
  unfold at_most_one_primary, EntityType.primary_keys,
    EntityType.get_primary_key in *.
  simpl. repeat split.
  - rewrite filter_app_single.
    destruct Hcase as [Hk | Hnone].
    + destruct (KeyType_beq (Key.key_type key) PRIMARY) eqn:E.
      * exfalso. apply Hk.
        destruct (Key.key_type key); simpl in E; congruence.
      * rewrite app_nil_r. exact Hone.
    + rewrite find_hd_filter in Hnone.
      destruct (filter _ (EntityType.keys e)); [|discriminate].
      simpl. destruct (KeyType_beq _ _); simpl; lia.
  - apply find_hd_filter.
  - intros p Hp. rewrite find_hd_filter, Hp. reflexivity.
Qed.

Lemma C1_add_key_at_most_one_primary_witness :
  at_most_one_primary (EntityType.add_key Samples.person Samples.uq_email) /\
  EntityType.get_primary_key
    (EntityType.add_key Samples.person Samples.uq_email) = Some Samples.pk_id.
Proof.
  assert (H1 : at_most_one_primary Samples.person)
    by (unfold at_most_one_primary; simpl; lia).
  assert (H2 : Key.key_type Samples.uq_email <> PRIMARY
               \/ EntityType.get_primary_key Samples.person = None)
    by (left; discriminate).
  pose proof (C1_add_key_at_most_one_primary
                Samples.person Samples.uq_email H1 H2) as H.
  simpl in H. destruct H as (_ & Hone & _ & Huniq).
  split; [exact Hone | apply Huniq; reflexivity].
Defined.

(** C2 (as stated, refuted). [add_attribute] completes on an attribute
    whose name the entity already has, and both attributes stay. *)
Lemma C2_duplicate_attribute_accepted :
  In (Attribute.attr_name Samples.email_again)
     (attribute_names Samples.person) /\
  EntityType.attributes
    (EntityType.add_attribute Samples.person Samples.email_again)
    = [Samples.id_attr; Samples.email_attr; Samples.email_again] /\
  attribute_names
    (EntityType.add_attribute Samples.person Samples.email_again)
    = ["id"; "email"; "email"].
Proof. simpl. repeat split. right. left. reflexivity. Qed.

(** C2 (amended). [add_attribute] appends the attribute without a check
    and always completes; the names stay unique exactly when they were and
    the new name is not among them, and [get_attribute] keeps returning the
    earlier attribute of a name. *)
Theorem C2_add_attribute_appends :
  forall (e : EntityType.t) (a : Attribute.t),
    let e' := EntityType.add_attribute e a in
    EntityType.attributes e' = EntityType.attributes e ++ [a] /\
    (NoDup (attribute_names e') <->
     NoDup (attribute_names e) /\
     ~ In (Attribute.attr_name a) (attribute_names e)) /\
    (forall n x, EntityType.get_attribute e n = Some x ->
                 EntityType.get_attribute e' n = Some x).
Proof.
  intros e a e'. subst e'. unfold attribute_names. simpl.
  split; [reflexivity|]. split; [split|].
  - intros H. rewrite map_app in H. simpl in H.
    apply NoDup_remove in H. rewrite app_nil_r in H. exact H.
  - intros [Hn Hi]. rewrite map_app. simpl.
    apply NoDup_app; auto.
    + repeat constructor. simpl. tauto.
    + intros x Hx [<-|[]]. contradiction.
  - intros n x. unfold EntityType.get_attribute. simpl.
    induction (EntityType.attributes e) as [|y r IH]; simpl; [discriminate|].
    destruct (String.eqb (Attribute.attr_name y) n); auto.
Qed.

(** C8 (as stated, refuted). [Key.add_attribute] marks an optional
    attribute as a key member and leaves it optional. *)
Lemma C8_optional_key_member :
  key_not_optional Samples.email_attr /\
  Attribute.is_key (snd (Key.add_attribute Samples.pk_id Samples.email_attr))
    = true /\
  Attribute.is_optional
    (snd (Key.add_attribute Samples.pk_id Samples.email_attr)) = true.
Proof. unfold key_not_optional. simpl. repeat split. discriminate. Qed.

(** C8 (amended). [Key.add_attribute] sets [is_key] and changes no other
    field of the attribute, [is_optional] included: the marked attribute
    is a non-optional key member exactly when the attribute was not
    optional before. *)
Theorem C8_add_attribute_marks_key :
  forall (k : Key.t) (a : Attribute.t),
    let a' := snd (Key.add_attribute k a) in
    a' = Attribute.set_is_key a true /\
    Attribute.is_key a' = true /\
    Attribute.is_optional a' = Attribute.is_optional a /\
    (key_not_optional a' <-> Attribute.is_optional a = false).
Proof.
  intros k a a'. subst a'. unfold Key.add_attribute, key_not_optional.
  destruct (negb _); simpl; repeat split; auto.
Qed.

(** ** The entity map *)

(** C10. [add_entity_type] files the entity under its name, replacing
    without error an entity that was filed under that name (which keeps
    its place in the map); the entries under the other names stay, names
    remain unique, and [get_entity_type] returns the entity afterwards. *)
Theorem C10_add_entity_type_binds :
  forall (d : Database.t) (e : EntityType.t),
    let d' := Database.add_entity_type d e in
    Database.get_entity_type d' (EntityType.en_name e) = Some e /\
    (forall n, n <> EntityType.en_name e ->
               Database.get_entity_type d' n = Database.get_entity_type d n) /\
    PyDict.keys (Database.entity_types d') =
      (if PyDict.mem (Database.entity_types d) (EntityType.en_name e)
       then PyDict.keys (Database.entity_types d)
       else PyDict.keys (Database.entity_types d) ++ [EntityType.en_name e]) /\
    (Database.names_unique d -> Database.names_unique d').
Proof.
  intros d e d'. subst d'.
  unfold Database.add_entity_type, Database.get_entity_type,
    Database.names_unique. simpl.
  split; [apply PyDict_get_set_same|].
  split; [intros n Hn; now apply PyDict_get_set_other|].
  split; [apply PyDict_keys_set|].
  intros [Hwf Hnames]. split; [now apply PyDict_wf_set|].
  apply Forall_forall. intros kv Hin.
  apply PyDict_In_set in Hin. destruct Hin as [-> | Hin]; [reflexivity|].
  rewrite Forall_forall in Hnames. now apply Hnames.
Qed.

Lemma C10_add_entity_type_binds_witness :
  Database.get_entity_type
    (Database.add_entity_type Samples.db Samples.person_again) "person"
    = Some Samples.person_again /\
  Database.get_entity_type
    (Database.add_entity_type Samples.db Samples.person_again) "address"
    = Some Samples.address /\
  Database.names_unique
    (Database.add_entity_type Samples.db Samples.person_again).
Proof.
  assert (Hu : Database.names_unique Samples.db).
  { split.
    - unfold PyDict.wf. simpl. repeat constructor; simpl; intuition congruence.
    - repeat constructor. }
  destruct (C10_add_entity_type_binds Samples.db Samples.person_again)
    as (Hget & Hframe & _ & Hinv).
  split; [exact Hget|]. split; [|exact (Hinv Hu)].
  rewrite Hframe; [reflexivity | discriminate].
Defined.

(** ** The dependency resolver *)

Lemma set_mem_In x s : set_mem x s = true <-> In x s.
Proof.
  unfold set_mem. rewrite existsb_exists. split.
  - intros (y & Hy & E). apply String.eqb_eq in E. now subst.
  - intros H. exists x. split; auto. apply String.eqb_refl.
Qed.

Lemma set_mem_false x s : set_mem x s = false <-> ~ In x s.
Proof.
  rewrite <- set_mem_In. destruct (set_mem x s); intuition congruence.
Qed.

Lemma set_add_In x y s : In y (set_add x s) <-> y = x \/ In y s.
Proof.
  unfold set_add. destruct (set_mem x s) eqn:E.
  - apply set_mem_In in E. intuition (subst; auto).
  - rewrite in_app_iff. simpl. intuition.
Qed.

Lemma PyDict_mem_keys {V} (d : PyDict.t V) k :
  PyDict.mem d k = true <-> In k (PyDict.keys d).
Proof.
  unfold PyDict.mem. destruct (PyDict.get d k) eqn:E.
  - split; auto. intros _.
    destruct (in_dec string_dec k (PyDict.keys d)) as [H|H]; auto.
    apply PyDict_get_None_keys in H. congruence.
  - apply PyDict_get_None_keys in E. split; [discriminate | tauto].
Qed.

Section Resolver.

Import PostgreSQLAdapter.

Variable set_iter : list string -> list string.
Variable D : PyDict.t (list string).

Local Abbreviation K := (PyDict.keys D).
Local Abbreviation unvisited := (unvisited D).
Local Abbreviation extends := (extends D).

Lemma filter_length_le {A} (p q : A -> bool) (l : list A) :
  (forall x, In x l -> p x = true -> q x = true) ->
  (length (filter p l) <= length (filter q l))%nat.
Proof.
  induction l as [|x r IH]; simpl; intros H; auto.
  assert (IH' := IH (fun y Hy => H y (or_intror Hy))).
  destruct (p x) eqn:P.
  - rewrite (H x (or_introl eq_refl) P). simpl. lia.
  - destruct (q x); simpl; lia.
Qed.

Lemma filter_length_lt {A} (p q : A -> bool) (l : list A) (a : A) :
  (forall x, In x l -> p x = true -> q x = true) ->
  In a l -> p a = false -> q a = true ->
  (length (filter p l) < length (filter q l))%nat.
Proof.
  induction l as [|x r IH]; simpl; intros H Ha Pa Qa; [tauto|].
  assert (Hr : forall y, In y r -> p y = true -> q y = true)
    by (intros y Hy; apply H; auto).
  destruct Ha as [-> | Ha].
  - rewrite Pa, Qa. simpl.
    pose proof (filter_length_le p q r Hr). lia.
  - specialize (IH Hr Ha Pa Qa).
    destruct (p x) eqn:P.
    + rewrite (H x (or_introl eq_refl) P). simpl. lia.
    + destruct (q x); simpl; lia.
Qed.

Lemma unvisited_mono v v' :
  incl v v' -> (unvisited v' <= unvisited v)%nat.
Proof.
  intros Hi. apply filter_length_le. intros x _ Hx.
  apply negb_true_iff in Hx. apply negb_true_iff.
  apply set_mem_false in Hx. apply set_mem_false. auto.
Qed.

Lemma unvisited_add name v :
  In name K -> ~ In name v ->
  (unvisited (set_add name v) < unvisited v)%nat.
Proof.
  intros HK Hv. apply filter_length_lt with (a := name); auto.
  - intros x _ Hx. apply negb_true_iff in Hx. apply negb_true_iff.
    apply set_mem_false in Hx. apply set_mem_false.
    rewrite set_add_In in Hx. tauto.
  - apply negb_false_iff. apply set_mem_In. apply set_add_In. auto.
  - apply negb_true_iff. now apply set_mem_false.
Qed.

Lemma extends_incl st st' new :
  extends st st' new -> incl (visited st) (visited st').
Proof. intros (_ & Hv & _) x Hx. apply Hv. auto. Qed.

Lemma extends_refl st : extends st st [].
Proof.
  split; [now rewrite app_nil_r|]. split; [intros x; simpl; tauto|].
  split; [constructor|]. intros x [].
Qed.

Lemma extends_trans st1 st2 st3 n1 n2 :
  extends st1 st2 n1 -> extends st2 st3 n2 -> extends st1 st3 (n1 ++ n2).
Proof.
  intros (S1 & V1 & N1 & F1) (S2 & V2 & N2 & F2).
  split; [rewrite S2, S1; now rewrite app_assoc|].
  split; [intros x; rewrite V2, V1, in_app_iff; tauto|].
  split.
  - apply NoDup_app; auto. intros x H1 H2.
    apply F2 in H2. apply (proj1 H2). apply V1. auto.
  - intros x H. apply in_app_iff in H. destruct H as [H|H].
    + now apply F1 in H.
    + apply F2 in H. rewrite V1 in H. tauto.
Qed.

Lemma extends_snoc st st2 n2 name :
  ~ In name (visited st) -> In name K ->
  extends (mk_state (sorted_names st) (set_add name (visited st))) st2 n2 ->
  extends st (mk_state (sorted_names st2 ++ [name]) (visited st2))
          (n2 ++ [name]).
Proof.
  intros M HK (S2 & V2 & N2 & F2). simpl in *.
  assert (Hn2 : ~ In name n2).
  { intros H. apply F2 in H. apply (proj1 H). apply set_add_In. auto. }
  split; [simpl; rewrite S2; now rewrite app_assoc|].
  split; [intros x; simpl; rewrite V2, set_add_In, in_app_iff; simpl;
          intuition congruence|].
  split.
  - apply NoDup_app; auto.
    + repeat constructor. simpl. tauto.
    + intros x Hx [<-|[]]. contradiction.
  - intros x H. apply in_app_iff in H. destruct H as [H|[<-|[]]]; auto.
    apply F2 in H. rewrite set_add_In in H. tauto.
Qed.

Lemma visit_deps_returns (rec : string -> dfs_state -> option dfs_state)
    (bound : nat) :
  (forall name st, In name K -> (unvisited (visited st) < bound)%nat ->
     exists st' new, rec name st = Some st' /\ extends st st' new) ->
  forall deps st, (unvisited (visited st) < bound)%nat ->
    exists st' new,
      visit_deps rec D deps st = Some st' /\ extends st st' new.
Proof.
  intros Hrec. induction deps as [|dep rest IH]; intros st Hb; simpl.
  - exists st, []. split; auto. apply extends_refl.
  - destruct (PyDict.mem D dep) eqn:M.
    + apply PyDict_mem_keys in M.
      destruct (Hrec dep st M Hb) as (st1 & n1 & E1 & X1). rewrite E1.
      assert (Hb1 : (unvisited (visited st1) < bound)%nat).
      { pose proof (unvisited_mono _ _ (extends_incl _ _ _ X1)). lia. }
      destruct (IH st1 Hb1) as (st2 & n2 & E2 & X2).
      exists st2, (n1 ++ n2). split; auto.
      eapply extends_trans; eauto.
    + apply IH; auto.
Qed.

(** [visit] returns when the fuel exceeds the number of unvisited
    names. *)
Lemma visit_returns :
  forall fuel name st,
    In name K -> (unvisited (visited st) < fuel)%nat ->
    exists st' new,
      visit set_iter fuel D name st = Some st' /\ extends st st' new /\
      In name (visited st').
Proof.
  induction fuel as [|fuel IH]; intros name st HK Hb; [lia|].
  simpl. destruct (set_mem name (visited st)) eqn:M.
  - apply set_mem_In in M. exists st, []. split; auto. split; auto.
    apply extends_refl.
  - apply set_mem_false in M.
    set (st1 := mk_state (sorted_names st) (set_add name (visited st))).
    assert (Hb1 : (unvisited (visited st1) < fuel)%nat).
    { pose proof (unvisited_add name (visited st) HK M). simpl. lia. }
    destruct (visit_deps_returns (visit set_iter fuel D) fuel) with
      (deps := set_iter (PyDict.get_default D name [])) (st := st1)
      as (st2 & n2 & E2 & X2); auto.
    { intros n s Hn Hs. destruct (IH n s Hn Hs) as (s' & nw & ? & ? & _).
      eauto. }
    rewrite E2. eexists. exists (n2 ++ [name]). split; [reflexivity|].
    split; [now apply extends_snoc|].
    simpl. destruct X2 as (_ & V2 & _). apply V2. left.
    apply set_add_In. auto.
Qed.

Lemma visit_all_returns :
  forall fuel names st,
    incl names K -> (unvisited (visited st) < fuel)%nat ->
    exists st' new,
      visit_all set_iter fuel D names st = Some st' /\
      extends st st' new /\ incl names (visited st').
Proof.
  intros fuel. induction names as [|name rest IH]; intros st HK Hb.
  - exists st, []. split; [reflexivity|]. split; [apply extends_refl|].
    intros x [].
  - simpl.
    destruct (visit_returns fuel name st) as (st1 & n1 & E1 & X1 & I1);
      auto.
    { apply HK. simpl. auto. }
    rewrite E1.
    destruct (IH st1) as (st2 & n2 & E2 & X2 & I2).
    { intros x Hx. apply HK. simpl. auto. }
    { pose proof (unvisited_mono _ _ (extends_incl _ _ _ X1)). lia. }
    exists st2, (n1 ++ n2). split; auto.
    split; [eapply extends_trans; eauto|].
    intros x [<- | Hx]; auto.
    apply (extends_incl _ _ _ X2). exact I1.
Qed.

(** More fuel does not change a result: the bound is no part of the
    behaviour. *)
Lemma visit_deps_mono (rec rec' : string -> dfs_state -> option dfs_state) :
  (forall name st st', rec name st = Some st' -> rec' name st = Some st') ->
  forall deps st st',
    visit_deps rec D deps st = Some st' ->
    visit_deps rec' D deps st = Some st'.
Proof.
  intros Hrec. induction deps as [|dep rest IH]; intros st st' H; simpl in *.
  - exact H.
  - destruct (PyDict.mem D dep); [|now apply IH].
    destruct (rec dep st) as [st1|] eqn:E; [|discriminate].
    rewrite (Hrec _ _ _ E). now apply IH.
Qed.

Lemma visit_unfold fuel name st :
  visit set_iter (S fuel) D name st =
  if set_mem name (visited st) then Some st
  else
    match visit_deps (visit set_iter fuel D) D
            (set_iter (PyDict.get_default D name []))
            (mk_state (sorted_names st) (set_add name (visited st))) with
    | Some st2 => Some (mk_state (sorted_names st2 ++ [name]) (visited st2))
    | None => None
    end.
Proof. reflexivity. Qed.

Lemma visit_fuel_S :
  forall fuel name st st',
    visit set_iter fuel D name st = Some st' ->
    visit set_iter (S fuel) D name st = Some st'.
Proof.
  induction fuel as [|fuel IH]; intros name st st' H; [discriminate|].
  rewrite visit_unfold in H. rewrite visit_unfold.
  destruct (set_mem name (visited st)); [exact H|].
  destruct (visit_deps (visit set_iter fuel D) D _ _) as [st2|] eqn:E;
    [|discriminate].
  now rewrite (visit_deps_mono _ _ IH _ _ _ E).
Qed.

Lemma visit_fuel_le :
  forall fuel fuel' name st st',
    (fuel <= fuel')%nat ->
    visit set_iter fuel D name st = Some st' ->
    visit set_iter fuel' D name st = Some st'.
Proof.
  intros fuel fuel' name st st' Hle H.
  induction Hle as [|m _ IH]; [exact H | now apply visit_fuel_S].
Qed.

(** *** The order on an acyclic graph *)

Hypothesis set_iter_spec : forall l x, In x (set_iter l) <-> In x l.
Hypothesis D_acyclic : forall n, ~ clos_trans string (dep_edge D) n n.

Lemma before_app_r {A} (x y : A) l l' :
  before x y l -> before x y (l ++ l').
Proof.
  intros (l1 & l2 & -> & Hy). exists l1, (l2 ++ l'). split.
  - now rewrite <- app_assoc.
  - apply in_app_iff. auto.
Qed.

Lemma before_snoc {A} (x y : A) l : In x l -> before x y (l ++ [y]).
Proof.
  intros H. apply in_split in H. destruct H as (l1 & l2 & ->).
  exists l1, (l2 ++ [y]). split.
  - now rewrite <- app_assoc.
  - apply in_app_iff. simpl. auto.
Qed.

Lemma closed_snoc l name :
  closed D l ->
  (forall d, dep_edge D name d -> In d l) ->
  closed D (l ++ [name]).
Proof.
  intros Hc Hd n d Hn He. apply in_app_iff in Hn.
  destruct Hn as [Hn | [<- | []]].
  - apply before_app_r. now apply Hc.
  - apply before_snoc. now apply Hd.
Qed.

Lemma visit_deps_closed (rec : string -> dfs_state -> option dfs_state) :
  (forall name st st',
      rec name st = Some st' ->
      closed D (sorted_names st) ->
      incl (sorted_names st) (visited st) ->
      grey_reach D st name ->
      visit_post D st st' /\ In name (sorted_names st')) ->
  forall deps st st',
    visit_deps rec D deps st = Some st' ->
    closed D (sorted_names st) ->
    incl (sorted_names st) (visited st) ->
    (forall dep, In dep deps -> In dep K -> grey_reach D st dep) ->
    visit_post D st st' /\
    (forall dep, In dep deps -> In dep K -> In dep (sorted_names st')).
Proof.
  intros Hrec. induction deps as [|dep rest IH]; intros st st' E Hc Hi Hg.
  - simpl in E. injection E as <-. split.
    + split; [auto|]. split; [auto|].
      split; [exists []; now rewrite app_nil_r|].
      split; [auto | apply incl_refl].
    + intros dep [].
  - simpl in E. destruct (PyDict.mem D dep) eqn:M.
    + apply PyDict_mem_keys in M.
      destruct (rec dep st) as [st1|] eqn:E1; [|discriminate].
      destruct (Hrec dep st st1 E1 Hc Hi) as [P1 In1].
      { apply Hg; simpl; auto. }
      destruct P1 as (C1 & I1 & (n1 & S1) & G1 & V1).
      destruct (IH st1 st' E C1 I1) as [P2 In2].
      { intros d Hd HK g Hgv Hgs. apply (Hg d); simpl; auto.
        - destruct (G1 g Hgv); [contradiction | auto].
        - intros H. apply Hgs. rewrite S1. apply in_app_iff. auto. }
      destruct P2 as (C2 & I2 & (n2 & S2) & G2 & V2).
      split.
      * split; [auto|]. split; [auto|].
        split; [exists (n1 ++ n2); rewrite S2, S1; now rewrite app_assoc|].
        split.
        -- intros g Hgv. destruct (G2 g Hgv) as [H|H]; auto.
           destruct (G1 g H) as [H'|H']; auto.
           left. rewrite S2. apply in_app_iff. auto.
        -- eapply incl_tran; eauto.
      * intros d [<- | Hd] HK; auto.
        rewrite S2. apply in_app_iff. auto.
    + destruct (IH st st' E Hc Hi) as [P2 In2].
      { intros d Hd HK. apply Hg; simpl; auto. }
      split; auto. intros d [<- | Hd] HK; auto.
      apply PyDict_mem_keys in HK. congruence.
Qed.

Lemma visit_closed :
  forall fuel name st st',
    visit set_iter fuel D name st = Some st' ->
    closed D (sorted_names st) ->
    incl (sorted_names st) (visited st) ->
    grey_reach D st name ->
    visit_post D st st' /\ In name (sorted_names st').
Proof.
  induction fuel as [|fuel IH]; intros name st st' E Hc Hi Hg;
    [discriminate|].
  simpl in E. destruct (set_mem name (visited st)) eqn:M.
  - injection E as <-. apply set_mem_In in M. split.
    + split; [auto|]. split; [auto|].
      split; [exists []; now rewrite app_nil_r|].
      split; [auto | apply incl_refl].
    + destruct (in_dec string_dec name (sorted_names st)) as [H|H]; auto.
      exfalso. apply (D_acyclic name). now apply Hg.
  - apply set_mem_false in M.
    set (st1 := mk_state (sorted_names st) (set_add name (visited st)))
      in E.
    destruct (visit_deps _ _ _ st1) as [st2|] eqn:E2; [|discriminate].
    injection E as <-.
    destruct (visit_deps_closed (visit set_iter fuel D) (IH) _ _ _ E2)
      as [P2 In2]; auto.
    { simpl. intros x Hx. apply set_add_In. auto. }
    { intros dep Hd HK g Hgv Hgs. simpl in Hgv, Hgs.
      apply (proj1 (set_iter_spec _ _)) in Hd.
      assert (Hstep : clos_trans string (dep_edge D) name dep)
        by (apply t_step; split; [exact Hd | exact HK]).
      apply set_add_In in Hgv. destruct Hgv as [-> | Hgv]; auto.
      eapply t_trans; [apply Hg; eauto | exact Hstep]. }
    destruct P2 as (C2 & I2 & (n2 & S2) & G2 & V2). simpl in *.
    assert (Hname : In name (visited st2))
      by (apply V2, set_add_In; auto).
    split; [|apply in_app_iff; simpl; auto].
    split; [simpl|].
    { apply closed_snoc; auto. intros d [Hd HK].
      apply In2; auto. now apply (proj2 (set_iter_spec _ _)). }
    split; [simpl|].
    { intros x Hx. apply in_app_iff in Hx.
      destruct Hx as [Hx | [<- | []]]; auto. }
    split; [exists (n2 ++ [name]); simpl; rewrite S2; now rewrite app_assoc|].
    split; simpl.
    + intros g Hgv. destruct (G2 g Hgv) as [H|H].
      * left. apply in_app_iff. auto.
      * apply set_add_In in H. destruct H as [-> | H]; auto.
        left. apply in_app_iff. simpl. auto.
    + intros x Hx. apply V2, set_add_In. auto.
Qed.

Lemma visit_all_closed :
  forall fuel names st st',
    visit_all set_iter fuel D names st = Some st' ->
    closed D (sorted_names st) ->
    incl (sorted_names st) (visited st) ->
    incl (visited st) (sorted_names st) ->
    closed D (sorted_names st') /\
    incl names (sorted_names st') /\
    incl (sorted_names st) (sorted_names st').
Proof.
  intros fuel. induction names as [|name rest IH];
    intros st st' E Hc Hi Hv; simpl in E.
  - injection E as <-. split; auto. split; [intros x [] | apply incl_refl].
  - destruct (visit set_iter fuel D name st) as [st1|] eqn:E1;
      [|discriminate].
    destruct (visit_closed _ _ _ _ E1 Hc Hi) as [P1 In1].
    { intros g Hgv Hgs. exfalso. apply Hgs. now apply Hv. }
    destruct P1 as (C1 & I1 & (n1 & S1) & G1 & V1).
    assert (Hs1 : incl (sorted_names st) (sorted_names st1)).
    { intros x Hx. rewrite S1. apply in_app_iff. auto. }
    assert (Hv1 : incl (visited st1) (sorted_names st1)).
    { intros g Hg. destruct (G1 g Hg) as [H|H]; auto. }
    destruct (IH st1 st' E C1 I1 Hv1) as (C2 & I2 & S2).
    split; auto. split.
    + intros x [<- | Hx]; auto.
    + eapply incl_tran; eauto.
Qed.

End Resolver.

(** *** The dependencies of a database *)

Lemma entity_deps_In (e : EntityType.t) (d : string) :
  In d (PostgreSQLAdapter.entity_deps e) <-> holds_reference e d.
Proof.
  unfold PostgreSQLAdapter.entity_deps, holds_reference.
  assert (G : forall rels acc,
    In d (fold_left
            (fun deps rel =>
               if Relationship.is_Reference rel then
                 let target := Relationship.get_target_entity_name rel in
                 if negb (String.eqb target (EntityType.name e))
                 then set_add target deps else deps
               else deps) rels acc)
    <-> In d acc \/
        exists rel, In rel rels /\ Relationship.is_Reference rel = true /\
                    Relationship.get_target_entity_name rel = d /\
                    d <> EntityType.en_name e).
  { induction rels as [|r rs IH]; intros acc; simpl.
    - split; auto. intros [H | (rel & [] & _)]; auto.
    - rewrite IH. unfold EntityType.name.
      destruct (Relationship.is_Reference r) eqn:R.
      + destruct (String.eqb (Relationship.get_target_entity_name r)
                             (EntityType.en_name e)) eqn:T; simpl.
        * apply String.eqb_eq in T. split.
          -- intros [H | (rel & H1 & H2)]; eauto 10.
          -- intros [H | (rel & [<- | H1] & H2 & H3 & H4)];
               try congruence; eauto 10.
        * apply String.eqb_neq in T. rewrite set_add_In. split.
          -- intros [[-> | H] | (rel & H1 & H2)]; eauto 10.
          -- intros [H | (rel & [<- | H1] & H2 & H3 & H4)]; eauto 10.
      + split.
        * intros [H | (rel & H1 & H2)]; eauto 10.
        * intros [H | (rel & [<- | H1] & H2 & H3 & H4)];
            try congruence; eauto 10. }
  rewrite G. simpl. split; [intros [[] | H]; auto | auto].
Qed.

Lemma PyDict_length_set {V} (d : PyDict.t V) k v :
  (length (PyDict.set d k v) <= S (length d))%nat.
Proof.
  induction d as [|[k' v'] r IH]; simpl; auto.
  destruct (String.eqb k' k); simpl; lia.
Qed.

Section Dependencies.

Import PostgreSQLAdapter.

Local Abbreviation step := dependencies_step.

Lemma build_keys_In es : forall acc k,
  In k (PyDict.keys (fold_left step es acc)) <->
  In k (PyDict.keys acc) \/ In k (map EntityType.en_name es).
Proof.
  induction es as [|e r IH]; intros acc k; simpl; [tauto|].
  rewrite IH. unfold dependencies_step. rewrite PyDict_keys_set.
  unfold EntityType.name.
  destruct (PyDict.mem acc (EntityType.en_name e)) eqn:M.
  - apply PyDict_mem_keys in M. intuition (subst; auto).
  - rewrite in_app_iff. simpl. intuition.
Qed.

Lemma build_wf es : forall acc,
  PyDict.wf acc -> PyDict.wf (fold_left step es acc).
Proof.
  induction es as [|e r IH]; intros acc H; simpl; auto.
  apply IH. now apply PyDict_wf_set.
Qed.

Lemma build_length es : forall acc,
  (length (fold_left step es acc) <= length acc + length es)%nat.
Proof.
  induction es as [|e r IH]; intros acc; simpl; [lia|].
  specialize (IH (step acc e)).
  pose proof (PyDict_length_set acc (EntityType.name e) (entity_deps e)).
  unfold dependencies_step in *. lia.
Qed.

Lemma build_get es : forall acc k deps,
  PyDict.get (fold_left step es acc) k = Some deps ->
  PyDict.get acc k = Some deps \/
  exists e, In e es /\ EntityType.en_name e = k /\ deps = entity_deps e.
Proof.
  induction es as [|e r IH]; intros acc k deps H; simpl in *; auto.
  apply IH in H. destruct H as [H | (x & H1 & H2 & H3)].
  - unfold dependencies_step, EntityType.name in H.
    destruct (string_dec k (EntityType.en_name e)) as [-> | Hne].
    + rewrite PyDict_get_set_same in H. injection H as <-.
      right. exists e. auto.
    + rewrite PyDict_get_set_other in H; auto.
  - right. exists x. auto.
Qed.

Lemma build_get_other es : forall acc k,
  ~ In k (map EntityType.en_name es) ->
  PyDict.get (fold_left step es acc) k = PyDict.get acc k.
Proof.
  induction es as [|e r IH]; intros acc k H; simpl in *; auto.
  rewrite IH; [|tauto]. unfold dependencies_step, EntityType.name.
  apply PyDict_get_set_other. intros ->. tauto.
Qed.

Lemma build_get_unique es : forall acc e,
  NoDup (map EntityType.en_name es) -> In e es ->
  PyDict.get (fold_left step es acc) (EntityType.en_name e)
  = Some (entity_deps e).
Proof.
  induction es as [|x r IH]; intros acc e Hn Hin; simpl in *; [tauto|].
  inversion Hn as [|? ? Hx Hr]; subst.
  destruct Hin as [-> | Hin].
  - rewrite build_get_other; auto.
    unfold dependencies_step, EntityType.name. apply PyDict_get_set_same.
  - now apply IH.
Qed.

Lemma build_keys_unique es : forall acc,
  NoDup (PyDict.keys acc ++ map EntityType.en_name es) ->
  PyDict.keys (fold_left step es acc)
  = PyDict.keys acc ++ map EntityType.en_name es.
Proof.
  induction es as [|e r IH]; intros acc H; simpl in *.
  - now rewrite app_nil_r.
  - assert (M : PyDict.mem acc (EntityType.en_name e) = false).
    { destruct (PyDict.mem acc (EntityType.en_name e)) eqn:M; auto.
      apply PyDict_mem_keys in M. apply NoDup_remove_2 in H.
      exfalso. apply H. apply in_app_iff. auto. }
    assert (Ek : PyDict.keys (step acc e)
                 = PyDict.keys acc ++ [EntityType.en_name e]).
    { unfold dependencies_step, EntityType.name. rewrite PyDict_keys_set, M. auto. }
    rewrite IH; rewrite Ek, <- app_assoc; simpl; auto.
Qed.

End Dependencies.

Lemma PyDict_get_In {V} (d : PyDict.t V) k v :
  PyDict.wf d -> In (k, v) d -> PyDict.get d k = Some v.
Proof.
  unfold PyDict.wf. induction d as [|[k' v'] r IH]; simpl; [tauto|].
  intros Hn [E | Hin].
  - injection E as -> ->. now rewrite String.eqb_refl.
  - inversion Hn as [|? ? Hk Hr]; subst.
    destruct (String.eqb k' k) eqn:E; auto.
    apply String.eqb_eq in E. subst k'. exfalso. apply Hk.
    change k with (fst (k, v)). now apply in_map.
Qed.

Lemma names_unique_keys (database : Database.t) :
  Database.names_unique database ->
  map EntityType.en_name (PyDict.values (Database.entity_types database))
  = PyDict.keys (Database.entity_types database).
Proof.
  intros [_ H]. unfold PyDict.values, PyDict.keys.
  induction (Database.entity_types database) as [|[k e] r IH]; simpl; auto.
  inversion H as [|? ? Hk Hr]; subst. simpl in Hk. subst k.
  now rewrite IH.
Qed.

Lemma names_unique_get (database : Database.t) (e : EntityType.t) :
  Database.names_unique database ->
  In e (PyDict.values (Database.entity_types database)) ->
  Database.get_entity_type database (EntityType.en_name e) = Some e.
Proof.
  intros [Hwf H] Hin. unfold Database.get_entity_type.
  apply PyDict_get_In; auto.
  unfold PyDict.values in Hin. apply in_map_iff in Hin.
  destruct Hin as ([k e'] & <- & Hin). simpl.
  rewrite Forall_forall in H. specialize (H _ Hin). simpl in H.
  now subst k.
Qed.

Lemma entities_of_keys (database : Database.t) :
  PyDict.wf (Database.entity_types database) ->
  PostgreSQLAdapter.entities_of database
    (PyDict.keys (Database.entity_types database))
  = PyDict.values (Database.entity_types database).
Proof.
  unfold PostgreSQLAdapter.entities_of, Database.get_entity_type.
  intros Hwf.
  assert (G : forall l, incl l (Database.entity_types database) ->
    flat_map (fun name =>
                match PyDict.get (Database.entity_types database) name with
                | Some e => [e] | None => []
                end) (PyDict.keys l) = PyDict.values l).
  { induction l as [|[k e] r IH]; intros Hl; simpl; auto.
    rewrite (PyDict_get_In _ k e Hwf); [|apply Hl; simpl; auto].
    simpl. f_equal. apply IH. intros x Hx. apply Hl. simpl. auto. }
  apply G. apply incl_refl.
Qed.

Lemma clos_trans_incl {A} (R S : A -> A -> Prop) :
  (forall x y, R x y -> S x y) ->
  forall x y, clos_trans A R x y -> clos_trans A S x y.
Proof.
  intros H x y C. induction C as [x y r | x y z _ IH1 _ IH2].
  - apply t_step. auto.
  - eapply t_trans; eauto.
Qed.

Lemma dep_edge_depends_on (database : Database.t) a b :
  dep_edge (PostgreSQLAdapter.build_dependencies
              (PyDict.values (Database.entity_types database))) a b ->
  depends_on database a b.
Proof.
  intros [Hin _]. unfold PyDict.get_default in Hin.
  destruct (PyDict.get _ a) as [deps|] eqn:E; [|destruct Hin].
  apply build_get in E. simpl in E.
  destruct E as [E | (e & He & Hn & ->)]; [discriminate|].
  exists e. split; auto. split; auto. now apply entity_deps_In.
Qed.

(** The loop over the names returns with the fuel of
    [_sort_entities_by_dependency], and the order it leaves lists each
    name of the dict once. *)
Lemma sorted_names_complete (set_iter : list string -> list string)
    (database : Database.t) :
  let D := PostgreSQLAdapter.build_dependencies
             (PyDict.values (Database.entity_types database)) in
  exists st,
    PostgreSQLAdapter.visit_all set_iter
      (S (length (Database.entity_types database))) D (PyDict.keys D)
      (PostgreSQLAdapter.mk_state [] []) = Some st /\
    NoDup (PostgreSQLAdapter.sorted_names st) /\
    (forall x, In x (PostgreSQLAdapter.sorted_names st)
               <-> In x (PyDict.keys D)).
Proof.
  intros D.
  destruct (visit_all_returns set_iter D
              (S (length (Database.entity_types database)))
              (PyDict.keys D) (PostgreSQLAdapter.mk_state [] []))
    as (st & new & E & (S1 & V1 & N1 & F1) & I1).
  - apply incl_refl.
  - simpl. unfold unvisited.
    pose proof (build_length
                  (PyDict.values (Database.entity_types database)) []) as L.
    fold (PostgreSQLAdapter.build_dependencies
            (PyDict.values (Database.entity_types database))) in L.
    fold D in L. simpl in L.
    assert (Fl : forall (p : string -> bool) (l : list string),
               (length (filter p l) <= length l)%nat).
    { induction l as [|x l IHl]; simpl; auto.
      destruct (p x); simpl; lia. }
    specialize (Fl (fun k => negb (set_mem k [])) (PyDict.keys D)).
    unfold PyDict.keys in Fl at 2. rewrite length_map in Fl.
    unfold PyDict.values in L. rewrite length_map in L. lia.
  - exists st. split; auto. simpl in S1. rewrite S1. split; auto.
    intros x. split.
    + intros H. now apply F1 in H.
    + intros H. apply I1 in H. apply V1 in H. simpl in H. tauto.
Qed.

Lemma dependencies_keys (database : Database.t) :
  Database.names_unique database ->
  PyDict.keys (PostgreSQLAdapter.build_dependencies
                 (PyDict.values (Database.entity_types database)))
  = PyDict.keys (Database.entity_types database).
Proof.
  intros Hu. unfold PostgreSQLAdapter.build_dependencies.
  rewrite build_keys_unique; simpl; rewrite names_unique_keys; auto.
  apply Hu.
Qed.

(** C6. The resolver returns on every database, cyclic reference graphs
    included: the recursion of [visit] never goes deeper than the fuel of
    [_sort_entities_by_dependency].  On a database whose entities are filed
    under their names the order it produces has each entity exactly
    once. *)
Theorem C6_resolver_terminates :
  forall (set_iter : list string -> list string) (database : Database.t),
    exists order,
      PostgreSQLAdapter._sort_entities_by_dependency set_iter database
        = Some order /\
      (Database.names_unique database ->
       Permutation order (PyDict.values (Database.entity_types database)) /\
       NoDup (map EntityType.en_name order)).
Proof.
  intros set_iter database.
  destruct (sorted_names_complete set_iter database) as (st & E & Hn & Hin).
  unfold PostgreSQLAdapter._sort_entities_by_dependency,
    PostgreSQLAdapter.sort_with_fuel.
  rewrite E. eexists. split; [reflexivity|].
  intros Hu.
  assert (P : Permutation
                (PostgreSQLAdapter.entities_of database
                   (PostgreSQLAdapter.sorted_names st))
                (PyDict.values (Database.entity_types database))).
  { rewrite <- entities_of_keys by apply Hu.
    unfold PostgreSQLAdapter.entities_of. apply Permutation_flat_map.
    apply NoDup_Permutation; auto; [apply Hu|].
    intros x. rewrite Hin. now rewrite dependencies_keys. }
  split; auto.
  apply Permutation_NoDup with
    (l := map EntityType.en_name
              (PyDict.values (Database.entity_types database))).
  - apply Permutation_map. now apply Permutation_sym.
  - rewrite names_unique_keys; auto. apply Hu.
Qed.

Lemma db_cycle_names_unique : Database.names_unique Samples.db_cycle.
Proof.
  split.
  - unfold PyDict.wf. simpl. repeat constructor; simpl; intuition congruence.
  - repeat constructor.
Qed.

Lemma C6_resolver_terminates_witness :
  PostgreSQLAdapter._sort_entities_by_dependency (fun l => l) Samples.db_cycle
    = Some [Samples.wife; Samples.husband] /\
  Permutation [Samples.wife; Samples.husband]
              (PyDict.values (Database.entity_types Samples.db_cycle)).
Proof.
  destruct (C6_resolver_terminates (fun l => l) Samples.db_cycle)
    as (order & E & H).
  assert (E' : PostgreSQLAdapter._sort_entities_by_dependency
                 (fun l => l) Samples.db_cycle
               = Some [Samples.wife; Samples.husband]) by reflexivity.
  split; [exact E'|].
  rewrite E' in E. injection E as <-.
  exact (proj1 (H db_cycle_names_unique)).
Defined.

Lemma entities_of_app (database : Database.t) l1 l2 :
  PostgreSQLAdapter.entities_of database (l1 ++ l2)
  = PostgreSQLAdapter.entities_of database l1
    ++ PostgreSQLAdapter.entities_of database l2.
Proof. apply flat_map_app. Qed.

(** C4. On a database whose reference graph, self-references apart, has
    no cycle, the resolver's order has every referenced entity strictly
    before every entity that holds a [Reference] to it, in whatever order
    the sets of targets are gone through. *)
Theorem C4_dependency_order :
  forall (set_iter : list string -> list string) (database : Database.t),
    (forall l x, In x (set_iter l) <-> In x l) ->
    Database.names_unique database ->
    acyclic database ->
    exists order,
      PostgreSQLAdapter._sort_entities_by_dependency set_iter database
        = Some order /\
      forall a b,
        In a (PyDict.values (Database.entity_types database)) ->
        In b (PyDict.values (Database.entity_types database)) ->
        holds_reference a (EntityType.en_name b) ->
        before b a order.
Proof.
  intros set_iter database Hiter Hu Hacyc.
  destruct (sorted_names_complete set_iter database) as (st & E & Hn & Hin).
  unfold PostgreSQLAdapter._sort_entities_by_dependency,
    PostgreSQLAdapter.sort_with_fuel.
  rewrite E. eexists. split; [reflexivity|].
  intros a b Ha Hb Href.
  set (D := PostgreSQLAdapter.build_dependencies
              (PyDict.values (Database.entity_types database))) in *.
  destruct (visit_all_closed set_iter D Hiter) with
    (fuel := S (length (Database.entity_types database)))
    (names := PyDict.keys D) (st := PostgreSQLAdapter.mk_state [] [])
    (st' := st) as (Hc & _ & _); auto.
  - intros n C. apply (Hacyc n).
    eapply clos_trans_incl; [|exact C].
    intros x y. apply dep_edge_depends_on.
  - intros n d [].
  - apply incl_refl.
  - apply incl_refl.
  - assert (Ka : In (EntityType.en_name a) (PyDict.keys D)).
    { unfold D. rewrite dependencies_keys, <- names_unique_keys; auto.
      now apply in_map. }
    assert (Kb : In (EntityType.en_name b) (PyDict.keys D)).
    { unfold D. rewrite dependencies_keys, <- names_unique_keys; auto.
      now apply in_map. }
    destruct (Hc (EntityType.en_name a) (EntityType.en_name b))
      as (l1 & l2 & Es & Hl2).
    + now apply Hin.
    + split; auto. unfold PyDict.get_default, D.
      unfold PostgreSQLAdapter.build_dependencies.
      rewrite build_get_unique; auto.
      * now apply entity_deps_In.
      * rewrite names_unique_keys; auto. apply Hu.
    + rewrite Es. rewrite entities_of_app. simpl.
      rewrite (names_unique_get database b Hu Hb). simpl.
      exists (PostgreSQLAdapter.entities_of database l1),
             (PostgreSQLAdapter.entities_of database l2).
      split; auto.
      unfold PostgreSQLAdapter.entities_of. apply in_flat_map.
      exists (EntityType.en_name a). split; auto.
      rewrite (names_unique_get database a Hu Ha). simpl. auto.
Qed.

Lemma db_forward_names_unique : Database.names_unique Samples.db_forward.
Proof.
  split.
  - unfold PyDict.wf. simpl. repeat constructor; simpl; intuition congruence.
  - repeat constructor.
Qed.

Lemma db_forward_depends_on a b :
  depends_on Samples.db_forward a b -> a = "orders" /\ b = "customer".
Proof.
  intros (e & Hin & <- & rel & Hrel & _ & <- & _).
  simpl in Hin. destruct Hin as [<- | [<- | []]]; simpl in Hrel.
  - destruct Hrel as [<- | []]. auto.
  - destruct Hrel.
Qed.

Lemma db_forward_acyclic : acyclic Samples.db_forward.
Proof.
  assert (G : forall a b,
             clos_trans string (depends_on Samples.db_forward) a b ->
             a = "orders" /\ b = "customer").
  { intros a b C. induction C as [a b r | a b c _ [-> _] _ [_ ->]]; auto.
    now apply db_forward_depends_on. }
  intros n C. apply G in C. destruct C as [-> C]. discriminate.
Qed.

Lemma C4_dependency_order_witness :
  PostgreSQLAdapter._sort_entities_by_dependency (fun l => l)
    Samples.db_forward = Some [Samples.customer; Samples.orders] /\
  before Samples.customer Samples.orders [Samples.customer; Samples.orders].
Proof.
  destruct (C4_dependency_order (fun l => l) Samples.db_forward
              (fun l x => conj (fun H => H) (fun H => H))
              db_forward_names_unique db_forward_acyclic)
    as (order & E & H).
  assert (E' : PostgreSQLAdapter._sort_entities_by_dependency
                 (fun l => l) Samples.db_forward
               = Some [Samples.customer; Samples.orders]) by reflexivity.
  split; [exact E'|].
  rewrite E' in E. injection E as <-.
  apply H; simpl; auto.
  eexists. split; [left; reflexivity|].
  split; [reflexivity|]. split; [reflexivity|]. discriminate.
Defined.

(** ** Deserialization: defaults of missing fields *)


Lemma lift_inv {A} (o : option A) n a n' :
  lift o n = Some (a, n') -> o = Some a /\ n' = n.
Proof. unfold lift. destruct o; intros H; inversion H; auto. Qed.

Lemma ret_inv {A} (x : A) n a n' :
  ret x n = Some (a, n') -> a = x /\ n' = n.
Proof. unfold ret. intros H. inversion H; auto. Qed.

Lemma create_rel_cardinality uid d n r n' :
  Database._create_rel uid (JDict d) n = Some (Some r, n') ->
  from_symbol_json (PyDict.get_default d "cardinality" (JStr "&"))
  = Some (Relationship.cardinality r).
Proof.
  unfold Database._create_rel. intros H.
  unfold bind at 1 in H.
  destruct (lift (from_symbol_json _) n) as [[card n0]|] eqn:Ec;
    [|discriminate].
  apply lift_inv in Ec. destruct Ec as [Ec ->]. rewrite Ec. f_equal.
  destruct (json_is _ "reference").
  - inv_bind H. apply ret_inv in H. destruct H as [H _].
    injection H as ->. reflexivity.
  - destruct (json_is _ "aggregate" || json_is _ "embedded").
    + inv_bind H. apply ret_inv in H. destruct H as [H _].
      injection H as ->. reflexivity.
    + apply ret_inv in H. destruct H as [H _]. discriminate.
Qed.

Lemma for_each_invariant {A S} (P : S -> Prop) (body : S -> A -> M S) :
  (forall s a n s' n', body s a n = Some (s', n') -> P s -> P s') ->
  forall l s n s' n', for_each l body s n = Some (s', n') -> P s -> P s'.
Proof.
  intros Hb. induction l as [|x xs IH]; intros s n s' n' E Hs; simpl in E.
  - apply ret_inv in E. destruct E as [-> _]. exact Hs.
  - unfold bind at 1 in E.
    destruct (body s x n) as [[s1 n1]|] eqn:E1; [|discriminate].
    eapply IH; eauto.
Qed.

Lemma create_attrs_invariant {S} (P : S -> Prop) uid
    (add : S -> Attribute.t -> S) :
  (forall s a, P s -> P (add s a)) ->
  forall l s n s' n',
    Database.create_attrs uid l add s n = Some (s', n') -> P s -> P s'.
Proof.
  intros Ha. unfold Database.create_attrs. apply for_each_invariant.
  intros s a n s' n' E Hs. unfold bind in E.
  destruct (Database._create_attr uid a n) as [[o n1]|]; [|discriminate].
  apply ret_inv in E. destruct E as [-> _]. destruct o; auto.
Qed.

Lemma create_rel_type_cardinality uid d n r n' :
  Database._create_rel_type uid (JDict d) n = Some (Some r, n') ->
  from_symbol_json (PyDict.get_default d "cardinality" (JStr "*"))
  = Some (RelationshipType.cardinality r).
Proof.
  unfold Database._create_rel_type. intros H.
  inv_bind H.
  apply ret_inv in H. destruct H as [H _]. injection H as ->.
  match goal with
  | E : lift (from_symbol_json _) _ = Some _ |- _ =>
      apply lift_inv in E; destruct E as [E _]; rewrite E; f_equal
  end.
  match goal with
  | E : Database.create_attrs _ _ _ _ _ = Some _ |- ?c = _ =>
      refine (create_attrs_invariant
                (fun r => c = RelationshipType.cardinality r) uid
                RelationshipType.add_attribute _ _ _ _ _ _ E eq_refl)
  end.
  intros ? ? Hs. exact Hs.
Qed.

Lemma add_key_member_key_type (ke : Key.t * EntityType.t) (an : json) :
  Key.key_type (fst (Database.add_key_member ke an)) = Key.key_type (fst ke).
Proof.
  destruct ke as [k e]. unfold Database.add_key_member.
  destruct an; simpl; auto.
  destruct (EntityType.get_attribute e s); simpl; auto.
  unfold Key.add_attribute. destruct (negb _); reflexivity.
Qed.

Lemma create_key_key_type d e k e' :
  Database._create_key (JDict d) e = Some (Some k, e') ->
  Key.key_type k =
  enum_of_json KeyType_value all_KeyType PRIMARY
               (PyDict.get_default d "key_type" (JStr "PRIMARY")).
Proof.
  unfold Database._create_key, obind. intros H.
  destruct (as_bool _) as [m|]; [|discriminate].
  destruct (as_opt_str _) as [re|]; [|discriminate].
  destruct (as_str_list _) as [ra|]; [|discriminate].
  destruct (as_list _) as [names|]; [|discriminate].
  set (k0 := Key.mk _ [] m re ra) in H.
  assert (G : forall l ke,
             Key.key_type (fst (fold_left Database.add_key_member l ke))
             = Key.key_type (fst ke)).
  { induction l as [|x xs IH]; intros ke; simpl; auto.
    rewrite IH. apply add_key_member_key_type. }
  specialize (G names (k0, e)).
  destruct (fold_left Database.add_key_member names (k0, e)) as [k1 e1].
  simpl in G. destruct (Key.key_attributes k1); [discriminate|].
  injection H as -> ->. exact G.
Qed.

(** C9 (as stated, refuted). A relationship type read from a dictionary
    without the field ["cardinality"] is optional-many, not required-one. *)
Lemma C9_relationship_type_default_many :
  PyDict.get [("rel_name", JStr "KNOWS")] "cardinality" = None /\
  Database._create_rel_type (fun _ => "fresh")
    (JDict [("rel_name", JStr "KNOWS")]) 0
  = Some (Some (RelationshipType.mk "KNOWS" (ByName "") (ByName "") []
                                    ZERO_TO_MANY None "fresh"), 1%nat) /\
  ZERO_TO_MANY <> ONE_TO_ONE.
Proof. repeat split. discriminate. Qed.

(** C9 (amended). With the field ["cardinality"] absent, a relationship
    that [_create_rel] builds is required-one ([ONE_TO_ONE]) and a
    relationship type that [_create_rel_type] builds is optional-many
    ([ZERO_TO_MANY]); with the field ["key_type"] absent, a key that
    [_create_key] builds is [PRIMARY]. *)
Theorem C9_from_dict_defaults :
  forall (uid : nat -> string) (d : PyDict.t json),
    (PyDict.get d "cardinality" = None ->
     forall n r n',
       Database._create_rel uid (JDict d) n = Some (Some r, n') ->
       Relationship.cardinality r = ONE_TO_ONE) /\
    (PyDict.get d "key_type" = None ->
     forall e k e',
       Database._create_key (JDict d) e = Some (Some k, e') ->
       Key.key_type k = PRIMARY) /\
    (PyDict.get d "cardinality" = None ->
     forall n r n',
       Database._create_rel_type uid (JDict d) n = Some (Some r, n') ->
       RelationshipType.cardinality r = ZERO_TO_MANY).
Proof.
  intros uid d. split; [|split].
  - intros Hc n r n' H. apply create_rel_cardinality in H.
    unfold PyDict.get_default in H. rewrite Hc in H. simpl in H.
    now injection H as <-.
  - intros Hk e k e' H. apply create_key_key_type in H.
    unfold PyDict.get_default in H. rewrite Hk in H. exact H.
  - intros Hc n r n' H. apply create_rel_type_cardinality in H.
    unfold PyDict.get_default in H. rewrite Hc in H. simpl in H.
    now injection H as <-.
Qed.

Lemma C9_from_dict_defaults_witness :
  (exists r n',
      Database._create_rel (fun _ => "fresh")
        (JDict [("kind", JStr "reference"); ("ref_name", JStr "owner_id");
                ("refs_to", JStr "person")]) 0 = Some (Some r, n') /\
      Relationship.cardinality r = ONE_TO_ONE) /\
  (exists k e',
      Database._create_key (JDict [("attributes", JList [JStr "email"])])
        Samples.person = Some (Some k, e') /\
      Key.key_type k = PRIMARY) /\
  (exists r n',
      Database._create_rel_type (fun _ => "fresh")
        (JDict [("rel_name", JStr "KNOWS")]) 0 = Some (Some r, n') /\
      RelationshipType.cardinality r = ZERO_TO_MANY).
Proof.
  split; [|split].
  - eexists. eexists. split; [cbv; reflexivity|].
    eapply (proj1 (C9_from_dict_defaults (fun _ => "fresh")
                    [("kind", JStr "reference"); ("ref_name", JStr "owner_id");
                     ("refs_to", JStr "person")]) eq_refl 0%nat _ 1%nat).
    reflexivity.
  - eexists. eexists. split; [cbv; reflexivity|].
    eapply (proj1 (proj2 (C9_from_dict_defaults (fun _ => "fresh")
                           [("attributes", JList [JStr "email"])]))
             eq_refl Samples.person _ _).
    reflexivity.
  - eexists. eexists. split; [cbv; reflexivity|].
    eapply (proj2 (proj2 (C9_from_dict_defaults (fun _ => "fresh")
                           [("rel_name", JStr "KNOWS")]))
             eq_refl 0%nat _ 1%nat).
    reflexivity.
Defined.

(** ** Serialization: the round trip *)

Lemma PrimitiveType_of_value (p : PrimitiveType) :
  enum_of_value PrimitiveType_value all_PrimitiveType (PrimitiveType_value p)
  = Some p.
Proof. destruct p; reflexivity. Qed.

Lemma EntityKind_of_value (k : EntityKind) :
  enum_of_value EntityKind_value all_EntityKind (EntityKind_value k) = Some k.
Proof. destruct k; reflexivity. Qed.

Lemma KeyType_of_value (k : KeyType) :
  enum_of_value KeyType_value all_KeyType (KeyType_value k) = Some k.
Proof. destruct k; reflexivity. Qed.

Lemma DatabaseType_of_value (d : DatabaseType) :
  enum_of_value DatabaseType_value all_DatabaseType (DatabaseType_value d)
  = Some d.
Proof. destruct d; reflexivity. Qed.

Lemma from_symbol_value (c : Cardinality) :
  from_symbol (Cardinality_value c) = c.
Proof. destruct c; reflexivity. Qed.

Lemma reload_int_idem o : reload_int (reload_int o) = reload_int o.
Proof.
  unfold reload_int. destruct (truthy_int o) eqn:E; [now rewrite E | auto].
Qed.

Lemma reload_str_idem o : reload_str (reload_str o) = reload_str o.
Proof.
  unfold reload_str. destruct (truthy_str o) eqn:E; [now rewrite E | auto].
Qed.

Lemma truthy_reload_int o : truthy_int (reload_int o) = truthy_int o.
Proof. unfold reload_int. destruct (truthy_int o) eqn:E; auto. Qed.

Lemma truthy_reload_str o : truthy_str (reload_str o) = truthy_str o.
Proof. unfold reload_str. destruct (truthy_str o) eqn:E; auto. Qed.

Lemma set_if_int_reload d k o :
  set_if_int d k (reload_int o) = set_if_int d k o.
Proof.
  unfold set_if_int. rewrite truthy_reload_int.
  unfold reload_int. destruct (truthy_int o); reflexivity.
Qed.

Lemma set_if_str_reload d k o :
  set_if_str d k (reload_str o) = set_if_str d k o.
Proof.
  unfold set_if_str. rewrite truthy_reload_str.
  unfold reload_str. destruct (truthy_str o); reflexivity.
Qed.

Lemma DataType_to_dict_reload (t : DataType) :
  DataType_to_dict (reload_dtype t) = DataType_to_dict t.
Proof.
  induction t as [pt ml pr sc | el IH | el IH | kt IHk vt IHv]; simpl.
  - now rewrite !set_if_int_reload.
  - now rewrite IH.
  - now rewrite IH.
  - now rewrite IHk, IHv.
Qed.


Lemma truthy_int_Some o : truthy_int o = true -> exists z, o = Some z.
Proof. destruct o; [eauto | discriminate]. Qed.

Lemma truthy_str_Some o : truthy_str o = true -> exists s, o = Some s.
Proof. destruct o; [eauto | discriminate]. Qed.

(** The value that the local function of [_create_dtype] gives for a
    missing key is the result of the call on the empty dict. *)
Lemma create_dtype_empty :
  Database._create_dtype (JDict []) = Some (Some Database.default_dtype).
Proof. reflexivity. Qed.

Lemma create_dtype_to_dict (t : DataType) :
  Database._create_dtype (DataType_to_dict t) = Some (Some (reload_dtype t)).
Proof.
  induction t as [pt ml pr sc | el IH | el IH | kt IHk vt IHv].
  - unfold DataType_to_dict, set_if_int, reload_dtype, reload_int.
    destruct (truthy_int ml) eqn:E1, (truthy_int pr) eqn:E2,
             (truthy_int sc) eqn:E3;
      repeat match goal with
             | E : truthy_int ?o = true |- _ =>
                 apply truthy_int_Some in E; destruct E as [? ->]
             end;
      dict_eval; rewrite PrimitiveType_of_value; reflexivity.
  - cbn [DataType_to_dict reload_dtype].
    dict_eval. rewrite IH. reflexivity.
  - cbn [DataType_to_dict reload_dtype].
    dict_eval. rewrite IH. reflexivity.
  - cbn [DataType_to_dict reload_dtype].
    dict_eval. rewrite IHk, IHv. reflexivity.
Qed.

Lemma create_attr_to_dict uid (a : Attribute.t) n :
  Database._create_attr uid (Attribute.to_dict a) n
  = Some (Some (reload_attr a), S n).
Proof.
  destruct a as [name dt k o desc meta].
  unfold Attribute.to_dict, set_if_str, reload_attr, reload_str.
  cbn [Attribute.attr_name Attribute.data_type Attribute.is_key
       Attribute.is_optional Attribute.description Attribute.meta_id].
  destruct (truthy_str desc) eqn:E;
    [apply truthy_str_Some in E; destruct E as [? ->]|];
    cbn [Database._create_attr]; dict_eval;
    rewrite create_dtype_to_dict; dict_eval; reflexivity.
Qed.

Lemma Attribute_to_dict_reload (a : Attribute.t) :
  Attribute.to_dict (reload_attr a) = Attribute.to_dict a.
Proof.
  destruct a as [name dt k o desc meta].
  unfold Attribute.to_dict, reload_attr.
  cbn [Attribute.attr_name Attribute.data_type Attribute.is_key
       Attribute.is_optional Attribute.description Attribute.meta_id].
  now rewrite DataType_to_dict_reload, set_if_str_reload.
Qed.

(** A loop over written elements whose body rebuilds each element. *)
Lemma for_each_fold {A S} (P : A -> Prop) (I : S -> Prop) (f : A -> json)
    (body : S -> json -> M S) (g : S -> A -> S) :
  (forall s a n, P a -> I s ->
     exists n', body s (f a) n = Some (g s a, n') /\ I (g s a)) ->
  forall l s n, Forall P l -> I s ->
    exists n', for_each (map f l) body s n = Some (fold_left g l s, n') /\
               I (fold_left g l s).
Proof.
  intros Hb. induction l as [|a l IH]; intros s n Hl Hs; simpl.
  - exists n. split; auto.
  - inversion Hl as [|? ? Ha Hl']; subst.
    destruct (Hb s a n Ha Hs) as (n1 & E1 & I1).
    unfold bind at 1. rewrite E1. now apply IH.
Qed.

Lemma Forall_True {A} (l : list A) : Forall (fun _ => True) l.
Proof. induction l; constructor; auto. Qed.

Lemma create_attrs_to_dict {St} uid (add : St -> Attribute.t -> St)
    (l : list Attribute.t) (s : St) n :
  exists n',
    Database.create_attrs uid (map Attribute.to_dict l) add s n
    = Some (fold_left add (map reload_attr l) s, n').
Proof.
  unfold Database.create_attrs.
  destruct (for_each_fold (fun _ => True) (fun _ => True) Attribute.to_dict
              (fun s a => r <- Database._create_attr uid a ;;
                          ret (match r with
                               | Some attr => add s attr
                               | None => s
                               end))
              (fun s a => add s (reload_attr a))) with
    (l := l) (s := s) (n := n) as (n' & E & _); auto.
  - intros s0 a n0 _ _. exists (S n0). split; auto.
    unfold bind. rewrite create_attr_to_dict. reflexivity.
  - apply Forall_True.
  - exists n'. rewrite E. f_equal. f_equal.
    clear. revert s. induction l; simpl; auto.
Qed.

Lemma fold_left_snoc {A} (l acc : list A) :
  fold_left (fun l a => l ++ [a]) l acc = acc ++ l.
Proof.
  revert acc. induction l as [|x l IH]; intros acc; simpl.
  - now rewrite app_nil_r.
  - rewrite IH. now rewrite <- app_assoc.
Qed.

Lemma create_rel_to_dict uid (r : Relationship.t) n :
  exists n',
    Database._create_rel uid (Relationship.to_dict r) n
    = Some (Some (reload_rel r), n').
Proof.
  destruct r as [c o desc meta name tgt ea | c o desc meta name tgt].
  - unfold Relationship.to_dict, set_if_str, set_if_list, reload_rel,
      reload_str.
    cbn [Relationship.get_target_entity_name].
    destruct (create_attrs_to_dict uid (fun l a => l ++ [a]) ea [] (S n))
      as (n' & E).
    rewrite fold_left_snoc in E. simpl app in E.
    exists n'.
    destruct ea as [|x xs];
      (destruct (truthy_str desc) eqn:Ed;
       [apply truthy_str_Some in Ed; destruct Ed as [? ->]|]);
      cbn [Database._create_rel]; dict_eval;
      rewrite from_symbol_value; unfold bind at 1;
      try change (@nil json) with (map Attribute.to_dict []);
      rewrite E; reflexivity.
  - unfold Relationship.to_dict, set_if_str, reload_rel, reload_str.
    cbn [Relationship.get_target_entity_name].
    exists (S n).
    destruct (truthy_str desc) eqn:Ed;
      [apply truthy_str_Some in Ed; destruct Ed as [? ->]|];
      cbn [Database._create_rel]; dict_eval;
      rewrite from_symbol_value; reflexivity.
Qed.

Lemma map_to_dict_reload_attr (l : list Attribute.t) :
  map Attribute.to_dict (map reload_attr l) = map Attribute.to_dict l.
Proof.
  rewrite map_map. apply map_ext. apply Attribute_to_dict_reload.
Qed.

Lemma Relationship_to_dict_reload (r : Relationship.t) :
  Relationship.to_dict (reload_rel r) = Relationship.to_dict r.
Proof.
  destruct r as [c o desc meta name tgt ea | c o desc meta name tgt];
    unfold Relationship.to_dict, reload_rel;
    cbn [Relationship.get_target_entity_name EntityRef_name
         Relationship.is_array Relationship.cardinality];
    rewrite set_if_str_reload; auto.
  unfold set_if_list. destruct ea as [|x xs]; auto.
  cbn [map]. rewrite map_to_dict_reload_attr, Attribute_to_dict_reload.
  reflexivity.
Qed.

Lemma map_to_dict_reload_rel (l : list Relationship.t) :
  map Relationship.to_dict (map reload_rel l) = map Relationship.to_dict l.
Proof.
  rewrite map_map. apply map_ext. apply Relationship_to_dict_reload.
Qed.

Lemma fold_left_map {A B St} (g : St -> B -> St) (h : A -> B) l s :
  fold_left (fun s a => g s (h a)) l s = fold_left g (map h l) s.
Proof. revert s. induction l; simpl; auto. Qed.

Lemma create_rels_to_dict {St} uid (add : St -> Relationship.t -> St)
    (l : list Relationship.t) (s : St) n :
  exists n',
    Database.create_rels uid (map Relationship.to_dict l) add s n
    = Some (fold_left add (map reload_rel l) s, n').
Proof.
  unfold Database.create_rels.
  destruct (for_each_fold (fun _ => True) (fun _ => True) Relationship.to_dict
              (fun s r => o <- Database._create_rel uid r ;;
                          ret (match o with
                               | Some rel => add s rel
                               | None => s
                               end))
              (fun s r => add s (reload_rel r))) with
    (l := l) (s := s) (n := n) as (n' & E & _); auto.
  - intros s0 r n0 _ _.
    destruct (create_rel_to_dict uid r n0) as (n1 & E1).
    exists n1. split; auto. unfold bind. rewrite E1. reflexivity.
  - apply Forall_True.
  - exists n'. rewrite E. now rewrite (fold_left_map add reload_rel).
Qed.

(** The membership test of a dataclass list. *)
Lemma py_in_In {A} (eq_dec : forall x y : A, {x = y} + {x <> y}) x l :
  py_in eq_dec x l = true <-> In x l.
Proof.
  unfold py_in. rewrite existsb_exists. split.
  - intros (y & Hy & E). destruct (eq_dec y x); [now subst | discriminate].
  - intros H. exists x. split; auto. destruct (eq_dec x x); congruence.
Qed.

Lemma py_in_false {A} (eq_dec : forall x y : A, {x = y} + {x <> y}) x l :
  ~ In x l -> py_in eq_dec x l = false.
Proof.
  intros H. destruct (py_in eq_dec x l) eqn:E; auto.
  apply py_in_In in E. contradiction.
Qed.

Lemma NoDup_map_factor {A B C} (f : A -> C) (g : B -> C) (h : A -> B) l :
  (forall a, g (h a) = f a) -> NoDup (map f l) -> NoDup (map h l).
Proof.
  intros Hf Hn. apply (NoDup_map_inv g). rewrite map_map.
  now rewrite (map_ext _ _ Hf).
Qed.

Lemma fold_add_attribute (v : StructuralVariation.t) (l : list Attribute.t) :
  NoDup (StructuralVariation.attributes v ++ l) ->
  fold_left StructuralVariation.add_attribute l v
  = StructuralVariation.mk
      (StructuralVariation.variation_id v)
      (StructuralVariation.attributes v ++ l)
      (StructuralVariation.relationships v)
      (StructuralVariation.count v)
      (StructuralVariation.first_timestamp v)
      (StructuralVariation.last_timestamp v).
Proof.
  revert v. induction l as [|a l IH]; intros v Hn; simpl.
  - rewrite app_nil_r. now destruct v.
  - unfold StructuralVariation.add_attribute at 2.
    rewrite py_in_false.
    + cbn [negb]. rewrite IH; simpl.
      * now rewrite <- app_assoc.
      * now rewrite <- app_assoc.
    + apply NoDup_remove_2 in Hn. intros H. apply Hn.
      apply in_app_iff. auto.
Qed.

Lemma fold_add_relationship (v : StructuralVariation.t)
    (l : list Relationship.t) :
  NoDup (StructuralVariation.relationships v ++ l) ->
  fold_left StructuralVariation.add_relationship l v
  = StructuralVariation.mk
      (StructuralVariation.variation_id v)
      (StructuralVariation.attributes v)
      (StructuralVariation.relationships v ++ l)
      (StructuralVariation.count v)
      (StructuralVariation.first_timestamp v)
      (StructuralVariation.last_timestamp v).
Proof.
  revert v. induction l as [|a l IH]; intros v Hn; simpl.
  - rewrite app_nil_r. now destruct v.
  - unfold StructuralVariation.add_relationship at 2.
    rewrite py_in_false.
    + cbn [negb]. rewrite IH; simpl.
      * now rewrite <- app_assoc.
      * now rewrite <- app_assoc.
    + apply NoDup_remove_2 in Hn. intros H. apply Hn.
      apply in_app_iff. auto.
Qed.

Lemma create_var_to_dict uid (v : StructuralVariation.t) n :
  variation_ok v ->
  exists n',
    Database._create_var uid (StructuralVariation.to_dict v) n
    = Some (Some (reload_var v), n').
Proof.
  intros [Ha Hr].
  destruct v as [vid attrs rels cnt ft lt].
  cbn [StructuralVariation.attributes StructuralVariation.relationships]
    in Ha, Hr.
  unfold StructuralVariation.to_dict, set_if_str, reload_var, reload_str.
  cbn [StructuralVariation.variation_id StructuralVariation.attributes
       StructuralVariation.relationships StructuralVariation.count
       StructuralVariation.first_timestamp StructuralVariation.last_timestamp].
  set (v0 := fun f l => StructuralVariation.mk vid [] [] cnt f l).
  assert (G : forall f l n0, exists n',
    (v <- Database.create_attrs uid (map Attribute.to_dict attrs)
            StructuralVariation.add_attribute (v0 f l) ;;
     v <- Database.create_rels uid (map Relationship.to_dict rels)
            StructuralVariation.add_relationship v ;;
     ret (Some v)) n0
    = Some (Some (StructuralVariation.mk vid (map reload_attr attrs)
                    (map reload_rel rels) cnt f l), n')).
  { intros f l n0.
    destruct (create_attrs_to_dict uid StructuralVariation.add_attribute
                attrs (v0 f l) n0) as (n1 & E1).
    rewrite fold_add_attribute in E1.
    2: { simpl. eapply NoDup_map_factor; [|exact Ha].
         apply Attribute_to_dict_reload. }
    unfold bind at 1. rewrite E1.
    match goal with
    | |- context [Database.create_rels _ _ _ ?v1] =>
        destruct (create_rels_to_dict uid
                    StructuralVariation.add_relationship rels v1 n1)
          as (n2 & E2)
    end.
    rewrite fold_add_relationship in E2.
    2: { simpl. eapply NoDup_map_factor; [|exact Hr].
         apply Relationship_to_dict_reload. }
    unfold bind at 1. rewrite E2. exists n2. reflexivity. }
  destruct (truthy_str ft) eqn:Ef;
    [apply truthy_str_Some in Ef; destruct Ef as [? ->]|];
    (destruct (truthy_str lt) eqn:El;
     [apply truthy_str_Some in El; destruct El as [? ->]|]);
    cbn [Database._create_var]; dict_eval;
    match goal with
    | |- exists n', _ ?n0 = Some (Some (StructuralVariation.mk _ _ _ _ ?f ?l),
                                  n') =>
        destruct (G f l n0) as (n' & E); exists n'; exact E
    end.
Qed.

Lemma StructuralVariation_to_dict_reload (v : StructuralVariation.t) :
  StructuralVariation.to_dict (reload_var v) = StructuralVariation.to_dict v.
Proof.
  destruct v as [vid attrs rels cnt ft lt].
  unfold StructuralVariation.to_dict, reload_var.
  cbn [StructuralVariation.variation_id StructuralVariation.attributes
       StructuralVariation.relationships StructuralVariation.count
       StructuralVariation.first_timestamp StructuralVariation.last_timestamp].
  now rewrite map_to_dict_reload_attr, map_to_dict_reload_rel,
    !set_if_str_reload.
Qed.

Lemma find_reload_attr (attrs : list Attribute.t) n a :
  find (fun x => String.eqb (Attribute.attr_name x) n) attrs = Some a ->
  find (fun x => String.eqb (Attribute.attr_name x) n) (map reload_attr attrs)
  = Some (reload_attr a).
Proof.
  induction attrs as [|x r IH]; simpl; [discriminate|].
  destruct (String.eqb (Attribute.attr_name x) n); auto.
  now intros [= ->].
Qed.

Lemma set_is_key_id (a : Attribute.t) :
  Attribute.is_key a = true -> Attribute.set_is_key a true = a.
Proof. destruct a; simpl; now intros ->. Qed.

Lemma replace_first_id {A} (p : A -> bool) (x : A) (l : list A) :
  find p l = Some x -> EntityType.replace_first p x l = l.
Proof.
  induction l as [|y r IH]; simpl; auto.
  destruct (p y); [now intros [= ->] | intros H; now rewrite IH].
Qed.

Lemma store_attribute_id (e : EntityType.t) n a :
  EntityType.get_attribute e n = Some a ->
  EntityType.store_attribute e n a = e.
Proof.
  unfold EntityType.get_attribute, EntityType.store_attribute. intros H.
  rewrite replace_first_id; auto. now destruct e.
Qed.

Lemma members_of_names attrs ns :
  all_key_members attrs ns ->
  map Attribute.attr_name (members_of attrs ns) = ns.
Proof.
  induction 1 as [|n ns (a & Hf & _) _ IH]; simpl; auto.
  rewrite Hf. simpl. rewrite IH. f_equal.
  apply find_some in Hf. now apply String.eqb_eq.
Qed.

Lemma add_key_members (e : EntityType.t) :
  forall ns k,
    NoDup (Key.get_attribute_names k ++ ns) ->
    all_key_members (EntityType.attributes e) ns ->
    fold_left Database.add_key_member (map JStr ns) (k, e)
    = (Key.mk (Key.key_type k)
              (Key.key_attributes k
                 ++ members_of (EntityType.attributes e) ns)
              (Key.is_managed k) (Key.referenced_entity k)
              (Key.referenced_attributes k), e).
Proof.
  induction ns as [|n ns IH]; intros k Hn Ha.
  - simpl. rewrite app_nil_r. now destruct k.
  - inversion Ha as [|? ? (a & Hf & Hk) Ha']; subst.
    cbn [map fold_left Database.add_key_member].
    unfold EntityType.get_attribute. rewrite Hf.
    unfold Key.add_attribute. rewrite (set_is_key_id a Hk).
    assert (Hname : Attribute.attr_name a = n).
    { apply find_some in Hf. now apply String.eqb_eq. }
    rewrite py_in_false.
    2: { intros Hin. apply NoDup_remove_2 in Hn. apply Hn.
         apply in_app_iff. left. unfold Key.get_attribute_names.
         rewrite <- Hname. now apply in_map. }
    cbn [negb]. rewrite store_attribute_id by exact Hf.
    rewrite IH; auto.
    + cbn [Key.key_type Key.key_attributes Key.is_managed
           Key.referenced_entity Key.referenced_attributes members_of
           flat_map].
      rewrite Hf. now rewrite <- app_assoc.
    + unfold Key.get_attribute_names in *. cbn [Key.key_attributes].
      rewrite map_app. cbn [map]. rewrite Hname, <- app_assoc. exact Hn.
Qed.

Lemma as_strs_map_JStr (l : list string) : as_strs (map JStr l) = Some l.
Proof. induction l as [|x l IH]; simpl; auto. now rewrite IH. Qed.

Lemma key_ok_members (e : EntityType.t) (k : Key.t) :
  key_ok e k ->
  all_key_members (map reload_attr (EntityType.attributes e))
                  (Key.get_attribute_names k).
Proof.
  intros (_ & _ & H). unfold all_key_members.
  eapply Forall_impl; [|exact H].
  intros n (a & Hf & Hk). exists (reload_attr a). split.
  - now apply find_reload_attr.
  - exact Hk.
Qed.

Lemma create_key_to_dict (e e' : EntityType.t) (k : Key.t) :
  EntityType.attributes e' = map reload_attr (EntityType.attributes e) ->
  key_ok e k ->
  Database._create_key (Key.to_dict k) e'
  = Some (Some (reload_key (EntityType.attributes e') k), e').
Proof.
  intros He Hk. pose proof (key_ok_members e k Hk) as Hm.
  rewrite <- He in Hm. destruct Hk as (Hne & Hnd & _).
  pose proof (add_key_members e' (Key.get_attribute_names k)) as Hf.
  pose proof (members_of_names _ _ Hm) as Hnames.
  assert (Hmem : members_of (EntityType.attributes e')
                            (Key.get_attribute_names k) <> []).
  { intros E. rewrite E in Hnames. simpl in Hnames.
    unfold Key.get_attribute_names in Hnames.
    destruct (Key.key_attributes k); [congruence | discriminate]. }
  unfold Key.to_dict, reload_key, reload_str.
  destruct (truthy_str (Key.referenced_entity k)) eqn:Er;
    [apply truthy_str_Some in Er; destruct Er as [re Er]; rewrite Er|];
    cbn [Database._create_key]; dict_eval;
    rewrite ?as_strs_map_JStr; dict_eval;
    rewrite KeyType_of_value, Hf by (simpl; auto);
    cbn [Key.key_attributes Key.key_type Key.is_managed
         Key.referenced_entity Key.referenced_attributes app];
    destruct (members_of _ _) eqn:Em; try congruence; reflexivity.
Qed.

Lemma Key_to_dict_reload (attrs : list Attribute.t) (k : Key.t) :
  all_key_members attrs (Key.get_attribute_names k) ->
  Key.to_dict (reload_key attrs k) = Key.to_dict k.
Proof.
  intros Hm.
  assert (Hn : Key.get_attribute_names (reload_key attrs k)
               = Key.get_attribute_names k)
    by exact (members_of_names _ _ Hm).
  unfold Key.to_dict. rewrite Hn. unfold reload_key.
  cbn [Key.key_type Key.key_attributes Key.is_managed Key.referenced_entity
       Key.referenced_attributes].
  rewrite truthy_reload_str.
  unfold reload_str. destruct (truthy_str (Key.referenced_entity k));
    reflexivity.
Qed.

Lemma fold_add_attribute_entity (l : list Attribute.t) (e : EntityType.t) :
  fold_left EntityType.add_attribute l e
  = EntityType.set_attributes e (EntityType.attributes e ++ l).
Proof.
  revert e. induction l as [|a l IH]; intros e; simpl.
  - rewrite app_nil_r. now destruct e.
  - rewrite IH. unfold EntityType.set_attributes, EntityType.add_attribute.
    simpl. now rewrite <- app_assoc.
Qed.

Lemma fold_add_key (l : list Key.t) (e : EntityType.t) :
  fold_left EntityType.add_key l e
  = EntityType.set_keys e (EntityType.keys e ++ l).
Proof.
  revert e. induction l as [|a l IH]; intros e; simpl.
  - rewrite app_nil_r. now destruct e.
  - rewrite IH. unfold EntityType.set_keys, EntityType.add_key.
    simpl. now rewrite <- app_assoc.
Qed.

Lemma fold_add_relationship_entity (l : list Relationship.t)
    (e : EntityType.t) :
  fold_left EntityType.add_relationship l e
  = EntityType.set_relationships e (EntityType.relationships e ++ l).
Proof.
  revert e. induction l as [|a l IH]; intros e; simpl.
  - rewrite app_nil_r. now destruct e.
  - rewrite IH.
    unfold EntityType.set_relationships, EntityType.add_relationship.
    simpl. now rewrite <- app_assoc.
Qed.

Lemma fold_add_variation (l : list StructuralVariation.t)
    (e : EntityType.t) :
  fold_left EntityType.add_variation l e
  = EntityType.set_variations e (EntityType.variations e ++ l).
Proof.
  revert e. induction l as [|a l IH]; intros e; simpl.
  - rewrite app_nil_r. now destruct e.
  - rewrite IH.
    unfold EntityType.set_variations, EntityType.add_variation.
    simpl. now rewrite <- app_assoc.
Qed.


Lemma create_keys_to_dict (e e1 : EntityType.t) (keys : list Key.t) n :
  EntityType.attributes e1 = map reload_attr (EntityType.attributes e) ->
  Forall (key_ok e) keys ->
  exists n',
    for_each (map Key.to_dict keys)
      (fun e0 k =>
         r <- lift (Database._create_key k e0) ;;
         ret (match fst r with
              | Some key => EntityType.add_key (snd r) key
              | None => snd r
              end))
      e1 n
    = Some (EntityType.set_keys e1
              (EntityType.keys e1
                 ++ map (reload_key (EntityType.attributes e1)) keys), n').
Proof.
  intros He Hk.
  destruct (for_each_fold (key_ok e)
              (fun s => EntityType.attributes s = EntityType.attributes e1)
              Key.to_dict
              (fun e0 k =>
                 r <- lift (Database._create_key k e0) ;;
                 ret (match fst r with
                      | Some key => EntityType.add_key (snd r) key
                      | None => snd r
                      end))
              (fun s k => EntityType.add_key s
                            (reload_key (EntityType.attributes e1) k)))
    with (l := keys) (s := e1) (n := n) as (n' & E & _); auto.
  - intros s k n0 Hok Hs. exists n0. split; [|exact Hs].
    unfold bind, lift.
    rewrite (create_key_to_dict e s k); [|congruence|exact Hok].
    cbn [fst snd ret]. now rewrite Hs.
  - exists n'. rewrite E. f_equal. f_equal.
    rewrite (fold_left_map EntityType.add_key
               (reload_key (EntityType.attributes e1))).
    apply fold_add_key.
Qed.

Lemma create_vars_to_dict uid (e1 : EntityType.t)
    (vars : list StructuralVariation.t) n :
  Forall variation_ok vars ->
  exists n',
    for_each (map StructuralVariation.to_dict vars)
      (fun e0 v =>
         o <- Database._create_var uid v ;;
         ret (match o with
              | Some var => EntityType.add_variation e0 var
              | None => e0
              end))
      e1 n
    = Some (EntityType.set_variations e1
              (EntityType.variations e1 ++ map reload_var vars), n').
Proof.
  intros Hv.
  destruct (for_each_fold variation_ok (fun _ => True)
              StructuralVariation.to_dict
              (fun e0 v =>
                 o <- Database._create_var uid v ;;
                 ret (match o with
                      | Some var => EntityType.add_variation e0 var
                      | None => e0
                      end))
              (fun s v => EntityType.add_variation s (reload_var v)))
    with (l := vars) (s := e1) (n := n) as (n' & E & _); auto.
  - intros s v n0 Hok _.
    destruct (create_var_to_dict uid v n0 Hok) as (n1 & E1).
    exists n1. split; auto. unfold bind. rewrite E1. reflexivity.
  - exists n'. rewrite E. f_equal. f_equal.
    rewrite (fold_left_map EntityType.add_variation reload_var).
    apply fold_add_variation.
Qed.

Lemma entity_body uid (e : EntityType.t) (e0 : EntityType.t)
    (js_vars : list json) n0 :
  js_vars = map StructuralVariation.to_dict (EntityType.variations e) ->
  EntityType.keys e0 = [] -> EntityType.attributes e0 = [] ->
  EntityType.relationships e0 = [] -> EntityType.variations e0 = [] ->
  entity_ok e ->
  exists n',
    (e1 <- Database.create_attrs uid
             (map Attribute.to_dict (EntityType.attributes e))
             EntityType.add_attribute e0 ;;
     keys0 <- lift (Some (map Key.to_dict (EntityType.keys e))) ;;
     e2 <- for_each keys0
             (fun e0 k =>
                r <- lift (Database._create_key k e0) ;;
                ret (match fst r with
                     | Some key => EntityType.add_key (snd r) key
                     | None => snd r
                     end))
             e1 ;;
     rels0 <- lift (Some (map Relationship.to_dict
                              (EntityType.relationships e))) ;;
     e3 <- Database.create_rels uid rels0 EntityType.add_relationship e2 ;;
     vars <- lift (Some js_vars) ;;
     e4 <- for_each vars
             (fun e0 v =>
                o <- Database._create_var uid v ;;
                ret (match o with
                     | Some var => EntityType.add_variation e0 var
                     | None => e0
                     end))
             e3 ;;
     ret (Some e4)) n0
    = Some (Some (EntityType.mk
                    (EntityType.en_name e0) (EntityType.entity_kind e0)
                    (EntityType.is_root e0)
                    (map (reload_key
                            (map reload_attr (EntityType.attributes e)))
                         (EntityType.keys e))
                    (map reload_attr (EntityType.attributes e))
                    (map reload_rel (EntityType.relationships e))
                    (map reload_var (EntityType.variations e))
                    (EntityType.description e0) (EntityType.meta_id e0)),
            n').
Proof.
  intros -> K0 A0 R0 V0 [Hk Hv].
  destruct (create_attrs_to_dict uid EntityType.add_attribute
              (EntityType.attributes e) e0 n0) as (n1 & E1).
  rewrite fold_add_attribute_entity, A0 in E1. cbn [app] in E1.
  mstep E1. mlift.
  match goal with
  | |- context [bind (for_each _ _ ?e1)] =>
      destruct (create_keys_to_dict e e1 (EntityType.keys e) n1)
        as (n2 & E2); [reflexivity | exact Hk |]
  end.
  mstep E2. mlift.
  match goal with
  | |- context [Database.create_rels _ _ _ ?e2] =>
      destruct (create_rels_to_dict uid EntityType.add_relationship
                  (EntityType.relationships e) e2 n2) as (n3 & E3)
  end.
  rewrite fold_add_relationship_entity in E3.
  mstep E3. mlift.
  match goal with
  | |- context [bind (for_each _ _ ?e3)] =>
      destruct (create_vars_to_dict uid e3 (EntityType.variations e) n3 Hv)
        as (n4 & E4)
  end.
  mstep E4. exists n4. unfold ret. f_equal. f_equal. f_equal.
  destruct e0. simpl in *. subst. reflexivity.
Qed.

Lemma create_entity_to_dict uid (e : EntityType.t) n :
  entity_ok e ->
  exists n',
    Database._create_entity uid (EntityType.to_dict e) n
    = Some (Some (reload_entity e), n').
Proof.
  intros Hok.
  unfold EntityType.to_dict, set_if_str, set_if_list, reload_entity,
    reload_str.
  destruct (EntityType.variations e) as [|v vs] eqn:Ev;
    (destruct (truthy_str (EntityType.description e)) eqn:Ed;
     [apply truthy_str_Some in Ed; destruct Ed as [? Ed]; rewrite Ed|]);
    cbn [Database._create_entity]; dict_eval;
    rewrite EntityKind_of_value; rewrite <- Ev;
    apply (entity_body uid e); auto; rewrite Ev; reflexivity.
Qed.

Lemma EntityType_to_dict_reload (e : EntityType.t) :
  entity_ok e ->
  EntityType.to_dict (reload_entity e) = EntityType.to_dict e.
Proof.
  intros [Hk _]. unfold EntityType.to_dict, reload_entity.
  cbn [EntityType.en_name EntityType.entity_kind EntityType.is_root
       EntityType.keys EntityType.attributes EntityType.relationships
       EntityType.variations EntityType.description EntityType.meta_id].
  rewrite map_to_dict_reload_attr, map_to_dict_reload_rel,
    set_if_str_reload.
  assert (Ek : map Key.to_dict
                 (map (reload_key (map reload_attr (EntityType.attributes e)))
                      (EntityType.keys e))
               = map Key.to_dict (EntityType.keys e)).
  { rewrite map_map. apply map_ext_in. intros k Hin.
    apply Key_to_dict_reload. apply (key_ok_members e).
    rewrite Forall_forall in Hk. now apply Hk. }
  rewrite Ek. f_equal. f_equal.
  unfold set_if_list. destruct (EntityType.variations e) as [|v vs]; auto.
  cbn [map]. rewrite StructuralVariation_to_dict_reload.
  rewrite map_map.
  rewrite (map_ext _ _ StructuralVariation_to_dict_reload).
  reflexivity.
Qed.

Lemma fold_add_attribute_rel_type (l : list Attribute.t)
    (r : RelationshipType.t) :
  fold_left RelationshipType.add_attribute l r
  = RelationshipType.mk
      (RelationshipType.rel_name r) (RelationshipType.source_entity r)
      (RelationshipType.target_entity r)
      (RelationshipType.attributes r ++ l)
      (RelationshipType.cardinality r) (RelationshipType.description r)
      (RelationshipType.meta_id r).
Proof.
  revert r. induction l as [|a l IH]; intros r; simpl.
  - rewrite app_nil_r. now destruct r.
  - rewrite IH. unfold RelationshipType.add_attribute. simpl.
    now rewrite <- app_assoc.
Qed.

Lemma create_rel_type_to_dict uid (r : RelationshipType.t) n :
  exists n',
    Database._create_rel_type uid (RelationshipType.to_dict r) n
    = Some (Some (reload_rel_type r), n').
Proof.
  destruct r as [name src tgt attrs card desc meta].
  unfold RelationshipType.to_dict, set_if_str, reload_rel_type, reload_str.
  cbn [RelationshipType.rel_name RelationshipType.get_source_name
       RelationshipType.get_target_name RelationshipType.source_entity
       RelationshipType.target_entity RelationshipType.attributes
       RelationshipType.cardinality RelationshipType.description
       RelationshipType.meta_id].
  assert (G : forall r0 n0, exists n',
    (r1 <- Database.create_attrs uid (map Attribute.to_dict attrs)
             RelationshipType.add_attribute r0 ;;
     ret (Some r1)) n0
    = Some (Some (RelationshipType.mk
                    (RelationshipType.rel_name r0)
                    (RelationshipType.source_entity r0)
                    (RelationshipType.target_entity r0)
                    (RelationshipType.attributes r0 ++ map reload_attr attrs)
                    (RelationshipType.cardinality r0)
                    (RelationshipType.description r0)
                    (RelationshipType.meta_id r0)), n')).
  { intros r0 n0.
    destruct (create_attrs_to_dict uid RelationshipType.add_attribute
                attrs r0 n0) as (n1 & E1).
    mstep E1. exists n1. now rewrite fold_add_attribute_rel_type. }
  destruct (truthy_str desc) eqn:Ed;
    [apply truthy_str_Some in Ed; destruct Ed as [? ->]|];
    cbn [Database._create_rel_type]; dict_eval;
    rewrite from_symbol_value;
    match goal with
    | |- exists n', bind (Database.create_attrs _ _ _ ?r0) _ ?n0 = _ =>
        destruct (G r0 n0) as (n' & E); exists n'; exact E
    end.
Qed.

Lemma RelationshipType_to_dict_reload (r : RelationshipType.t) :
  RelationshipType.to_dict (reload_rel_type r) = RelationshipType.to_dict r.
Proof.
  unfold RelationshipType.to_dict, reload_rel_type.
  cbn [RelationshipType.rel_name RelationshipType.get_source_name
       RelationshipType.get_target_name RelationshipType.source_entity
       RelationshipType.target_entity RelationshipType.attributes
       RelationshipType.cardinality RelationshipType.description
       RelationshipType.meta_id EntityRef_name].
  now rewrite map_to_dict_reload_attr, set_if_str_reload.
Qed.

Lemma fold_set_fresh {V} (l : list (string * V)) : forall acc,
  NoDup (PyDict.keys acc ++ map fst l) ->
  fold_left (fun d kv => PyDict.set d (fst kv) (snd kv)) l acc = acc ++ l.
Proof.
  induction l as [|[k v] l IH]; intros acc Hn; simpl.
  - now rewrite app_nil_r.
  - assert (Es : PyDict.set acc k v = acc ++ [(k, v)]).
    { simpl in Hn. apply NoDup_remove_2 in Hn.
      assert (Hk : ~ In k (PyDict.keys acc))
        by (intros H; apply Hn; apply in_app_iff; auto).
      clear - Hk. induction acc as [|[k' v'] r IHr]; simpl; auto.
      destruct (String.eqb k' k) eqn:E.
      - apply String.eqb_eq in E. subst. exfalso. apply Hk. simpl. auto.
      - rewrite IHr; auto. intros H. apply Hk. simpl. auto. }
    rewrite Es, IH.
    + now rewrite <- app_assoc.
    + unfold PyDict.keys in *. rewrite map_app. simpl.
      rewrite <- app_assoc. exact Hn.
Qed.

Lemma dict_of_items_nodup {V} (l : list (string * V)) :
  NoDup (map fst l) -> dict_of_items l = l.
Proof. intros H. unfold dict_of_items. now rewrite fold_set_fresh. Qed.

Lemma fold_add_entity_type (l : list (string * EntityType.t))
    (h : EntityType.t -> EntityType.t) (db : Database.t) :
  (forall e, EntityType.en_name (h e) = EntityType.en_name e) ->
  Forall (fun ne => fst ne = EntityType.en_name (snd ne)) l ->
  NoDup (PyDict.keys (Database.entity_types db) ++ map fst l) ->
  fold_left (fun db ne => Database.add_entity_type db (h (snd ne))) l db
  = Database.set_entity_types db
      (Database.entity_types db ++ map (fun ne => (fst ne, h (snd ne))) l).
Proof.
  intros Hh Hl Hn.
  assert (G : forall db0,
    fold_left (fun db ne => Database.add_entity_type db (h (snd ne))) l db0
    = Database.set_entity_types db0
        (fold_left (fun d kv => PyDict.set d (fst kv) (snd kv))
                   (map (fun ne => (fst ne, h (snd ne))) l)
                   (Database.entity_types db0))).
  { clear Hn. induction l as [|[k e] l IH]; intros db0; simpl.
    - now destruct db0.
    - inversion Hl as [|? ? Hk Hl']; subst. simpl in Hk. subst k.
      rewrite IH; auto. unfold Database.add_entity_type. simpl.
      now rewrite Hh. }
  rewrite G, fold_set_fresh; auto.
  rewrite map_map. simpl. exact Hn.
Qed.

Lemma fold_add_relationship_type (l : list (string * RelationshipType.t))
    (h : RelationshipType.t -> RelationshipType.t) (db : Database.t) :
  (forall r, RelationshipType.rel_name (h r) = RelationshipType.rel_name r) ->
  Forall (fun nr => fst nr = RelationshipType.rel_name (snd nr)) l ->
  NoDup (PyDict.keys (Database.relationship_types db) ++ map fst l) ->
  fold_left (fun db nr => Database.add_relationship_type db (h (snd nr))) l db
  = Database.set_relationship_types db
      (Database.relationship_types db
         ++ map (fun nr => (fst nr, h (snd nr))) l).
Proof.
  intros Hh Hl Hn.
  assert (G : forall db0,
    fold_left (fun db nr => Database.add_relationship_type db (h (snd nr)))
              l db0
    = Database.set_relationship_types db0
        (fold_left (fun d kv => PyDict.set d (fst kv) (snd kv))
                   (map (fun nr => (fst nr, h (snd nr))) l)
                   (Database.relationship_types db0))).
  { clear Hn. induction l as [|[k e] l IH]; intros db0; simpl.
    - now destruct db0.
    - inversion Hl as [|? ? Hk Hl']; subst. simpl in Hk. subst k.
      rewrite IH; auto. unfold Database.add_relationship_type. simpl.
      now rewrite Hh. }
  rewrite G, fold_set_fresh; auto.
  rewrite map_map. simpl. exact Hn.
Qed.

Lemma db_body uid (d db0 : Database.t) (js_e js_r : list json) n0 :
  js_e = map (fun ne => EntityType.to_dict (snd ne))
             (Database.entity_types d) ->
  js_r = map (fun nr => RelationshipType.to_dict (snd nr))
             (Database.relationship_types d) ->
  Database.entity_types db0 = [] ->
  Database.relationship_types db0 = [] ->
  serializable d ->
  exists n',
    (db <- for_each js_e
             (fun db e_data =>
                o <- Database._create_entity uid e_data ;;
                ret (match o with
                     | Some e => Database.add_entity_type db e
                     | None => db
                     end))
             db0 ;;
     rs <- lift (Some js_r) ;;
     db <- for_each rs
             (fun db r_data =>
                o <- Database._create_rel_type uid r_data ;;
                ret (match o with
                     | Some r => Database.add_relationship_type db r
                     | None => db
                     end))
             db ;;
     ret db) n0
    = Some (Database.mk
              (Database.db_name db0) (Database.db_type db0)
              (map (fun ne => (fst ne, reload_entity (snd ne)))
                   (Database.entity_types d))
              (map (fun nr => (fst nr, reload_rel_type (snd nr)))
                   (Database.relationship_types d))
              (Database.version db0) (Database.description db0)
              (Database.meta_id db0), n').
Proof.
  intros -> -> E0 R0 ((Hwf & Hnames) & Hrwf & Hrnames & Hok).
  destruct (for_each_fold (A := string * EntityType.t)
              (fun ne => entity_ok (snd ne)) (fun _ => True)
              (fun ne => EntityType.to_dict (snd ne))
              (fun db e_data =>
                 o <- Database._create_entity uid e_data ;;
                 ret (match o with
                      | Some e => Database.add_entity_type db e
                      | None => db
                      end))
              (fun db ne => Database.add_entity_type db
                              (reload_entity (snd ne))))
    with (l := Database.entity_types d) (s := db0) (n := n0)
    as (n1 & E1 & _); auto.
  { intros s ne n Hne _.
    destruct (create_entity_to_dict uid (snd ne) n Hne) as (n' & E).
    exists n'. split; auto. unfold bind. rewrite E. reflexivity. }
  rewrite fold_add_entity_type in E1; auto.
  2: { rewrite E0. simpl. exact Hwf. }
  mstep E1. mlift.
  match goal with
  | |- context [bind (for_each _ _ ?db1)] =>
      destruct (for_each_fold (A := string * RelationshipType.t)
                  (fun _ => True) (fun _ => True)
                  (fun nr => RelationshipType.to_dict (snd nr))
                  (fun db r_data =>
                     o <- Database._create_rel_type uid r_data ;;
                     ret (match o with
                          | Some r => Database.add_relationship_type db r
                          | None => db
                          end))
                  (fun db nr => Database.add_relationship_type db
                                  (reload_rel_type (snd nr))))
        with (l := Database.relationship_types d) (s := db1) (n := n1)
        as (n2 & E2 & _); auto
  end.
  { intros s nr n _ _.
    destruct (create_rel_type_to_dict uid (snd nr) n) as (n' & E).
    exists n'. split; auto. unfold bind. rewrite E. reflexivity. }
  { apply Forall_True. }
  rewrite fold_add_relationship_type in E2; auto.
  2: { simpl. rewrite R0. simpl. exact Hrwf. }
  mstep E2. exists n2. unfold ret. f_equal. f_equal.
  destruct db0. simpl in *. subst. reflexivity.
Qed.

Lemma values_map_snd {A B} (f : A -> B) (l : list (string * A)) :
  map snd (map (fun ne => (fst ne, f (snd ne))) l)
  = map (fun ne => f (snd ne)) l.
Proof. now rewrite map_map. Qed.

Lemma keys_map_snd {A B} (f : A -> B) (l : list (string * A)) :
  map fst (map (fun ne => (fst ne, f (snd ne))) l) = map fst l.
Proof. rewrite map_map. reflexivity. Qed.

Lemma from_dict_to_dict uid (d : Database.t) n :
  serializable d ->
  exists n',
    Database.from_dict uid (Database.to_dict d) n = Some (reload_db d, n').
Proof.
  intros Hs. pose proof Hs as ((Hwf & _) & Hrwf & _).
  unfold Database.to_dict, set_if_str, reload_db, reload_str.
  rewrite !dict_of_items_nodup by (rewrite keys_map_snd; assumption).
  destruct (Database.relationship_types d) as [|r rs] eqn:Er;
    (destruct (truthy_str (Database.description d)) eqn:Ed;
     [apply truthy_str_Some in Ed; destruct Ed as [? Ed]; rewrite Ed|]);
    cbn [Database.from_dict]; dict_eval;
    rewrite DatabaseType_of_value; dict_eval;
    rewrite <- Er;
    apply (db_body uid d); auto; rewrite ?Er;
    try reflexivity; apply values_map_snd.
Qed.

Lemma Database_to_dict_reload (d : Database.t) :
  serializable d ->
  Database.to_dict (reload_db d) = Database.to_dict d.
Proof.
  intros (_ & _ & _ & Hok).
  unfold Database.to_dict, reload_db.
  cbn [Database.db_name Database.db_type Database.entity_types
       Database.relationship_types Database.version Database.description
       Database.meta_id].
  rewrite set_if_str_reload.
  assert (Ee : map (fun ne => (fst ne, EntityType.to_dict (snd ne)))
                 (map (fun ne => (fst ne, reload_entity (snd ne)))
                      (Database.entity_types d))
               = map (fun ne => (fst ne, EntityType.to_dict (snd ne)))
                     (Database.entity_types d)).
  { rewrite map_map. apply map_ext_in. intros ne Hin. simpl.
    rewrite EntityType_to_dict_reload; auto.
    rewrite Forall_forall in Hok. now apply Hok. }
  assert (Er : map (fun nr => (fst nr, RelationshipType.to_dict (snd nr)))
                 (map (fun nr => (fst nr, reload_rel_type (snd nr)))
                      (Database.relationship_types d))
               = map (fun nr => (fst nr, RelationshipType.to_dict (snd nr)))
                     (Database.relationship_types d)).
  { rewrite map_map. apply map_ext. intros nr. simpl.
    now rewrite RelationshipType_to_dict_reload. }
  rewrite Ee.
  destruct (Database.relationship_types d) as [|r rs] eqn:E; auto.
  rewrite <- E in *. 
  remember (Database.relationship_types d) as l.
  destruct l as [|r0 rs0]; [discriminate|].
  cbn [map] in *. rewrite Er. reflexivity.
Qed.

(** C3 (as stated, refuted). A key without member is written by
    [to_dict] and dropped by [from_dict]: the database read back from the
    dictionary of [db_memberless_key] has one key where the dictionary has
    two, and its own dictionary differs. *)
Lemma C3_memberless_key_dropped :
  exists d' n',
    Database.from_dict (fun _ => "fresh")
      (Database.to_dict Samples.db_memberless_key) 0 = Some (d', n') /\
    map (fun ne => length (EntityType.keys (snd ne)))
        (Database.entity_types d') = [1%nat] /\
    map (fun ne => length (EntityType.keys (snd ne)))
        (Database.entity_types Samples.db_memberless_key) = [2%nat] /\
    Database.to_dict d' <> Database.to_dict Samples.db_memberless_key.
Proof.
  eexists. eexists. split; [vm_compute; reflexivity|].
  split; [reflexivity|]. split; [reflexivity|].
  vm_compute. discriminate.
Qed.

(** C3 (amended). For a database in which every entity and relationship
    type is filed under its own name, every key has a member, lists no
    name twice and names key attributes of its entity, and no variation
    holds two attributes or two relationships that are written the same,
    [from_dict] returns on the dictionary of the database and the database
    it returns has exactly that dictionary, identifiers included: they are
    written and read back, never regenerated. *)
Theorem C3_to_dict_idempotent :
  forall (uid : nat -> string) (d : Database.t) (n : nat),
    serializable d ->
    exists d' n',
      Database.from_dict uid (Database.to_dict d) n = Some (d', n') /\
      Database.to_dict d' = Database.to_dict d.
Proof.
  intros uid d n Hs.
  destruct (from_dict_to_dict uid d n Hs) as (n' & E).
  exists (reload_db d), n'. split; [exact E|].
  now apply Database_to_dict_reload.
Qed.

Lemma db_forward_serializable : serializable Samples.db_forward.
Proof.
  split; [apply db_forward_names_unique|].
  split; [constructor|]. split; [constructor|].
  repeat constructor; simpl; try discriminate;
    try (intros [H|[]]; discriminate);
    try (eexists; split; reflexivity); tauto.
Qed.

Lemma C3_to_dict_idempotent_witness :
  exists d' n',
    Database.from_dict (fun _ => "fresh")
      (Database.to_dict Samples.db_forward) 0 = Some (d', n') /\
    Database.to_dict d' = Database.to_dict Samples.db_forward.
Proof.
  exact (C3_to_dict_idempotent (fun _ => "fresh") Samples.db_forward 0
           db_forward_serializable).
Defined.

(** ** Forward references in the import of DDL *)

Section ForwardReferences.

Import PostgreSQLAdapter.

Variable uid : nat -> string.
Variable lower upper strip : string -> string.
Variable startswith : string -> string -> bool.
Variable contains : string -> string -> bool.
Variable normalize_whitespace : string -> string.
Variable split_commas : string -> list string.
Variable py_int : string -> option Z.
Variable sub_line_comments : string -> string.
Variable sub_block_comments : string -> string.
Variable findall_create_table : string -> list (string * string).
Variable match_column
  : string -> option (string * string * option string * option string).
Variable search_references : string -> option (string * string).
Variable TYPE_MAP : PyDict.t PrimitiveType.

Local Abbreviation parse_column :=
  (_parse_column uid lower upper strip contains normalize_whitespace
                 split_commas py_int match_column search_references
                 TYPE_MAP).
Local Abbreviation table_column :=
  (parse_table_column uid lower upper strip startswith contains
                      normalize_whitespace split_commas py_int match_column
                      search_references TYPE_MAP).
Local Abbreviation parse_table :=
  (_parse_table uid lower upper strip startswith contains
                normalize_whitespace split_commas py_int match_column
                search_references TYPE_MAP).
Local Abbreviation tables_loop :=
  (parse_tables uid lower upper strip startswith contains
                normalize_whitespace split_commas py_int match_column
                search_references TYPE_MAP).

Local Abbreviation column_references :=
  (PostgreSQLAdapter.column_references lower upper strip startswith
     normalize_whitespace match_column search_references).

Lemma parse_column_references col_def fk target n r n' :
  column_references col_def fk target ->
  parse_column (strip col_def) n = Some (r, n') ->
  exists attr, r = (Some attr, Some (fk, target)).
Proof.
  intros (_ & _ & g1 & g2 & g3 & g4 & t & c & Hm & Hs & -> & ->) H.
  unfold _parse_column in H. rewrite Hm in H.
  unfold bind in H.
  destruct (lift _ n) as [[dt n1]|]; [|discriminate].
  rewrite Hs in H. unfold ret in H. injection H as <- _. eauto.
Qed.

(** An attribute that [_parse_column] builds is optional only when it is
    no key member. *)
Lemma parse_column_key_not_optional col_def n attr ref n' :
  parse_column col_def n = Some ((Some attr, ref), n') ->
  key_not_optional attr.
Proof.
  unfold _parse_column.
  destruct (match_column _) as [[[[g1 g2] g3] g4]|];
    [|intros H; discriminate].
  unfold bind.
  destruct (lift _ n) as [[dt n1]|]; [|discriminate].
  unfold ret. intros H. injection H as <- _ _.
  unfold key_not_optional. simpl. intros ->. apply andb_false_r.
Qed.

Lemma table_column_spec st col_def n st' n' :
  table_column st col_def n = Some (st', n') ->
  EntityType.en_name (fst st') = EntityType.en_name (fst st) /\
  exists new,
    snd st' = snd st ++ new /\
    forall fk target,
      column_references col_def fk target ->
      In (EntityType.en_name (fst st), fk, target) new.
Proof.
  destruct st as [entity pending]. unfold parse_table_column.
  destruct (negb (nonempty (strip col_def))) eqn:En.
  { intros H. injection H as <- <-. split; auto. exists []. split.
    - now rewrite app_nil_r.
    - intros fk target (Hne & _). rewrite Hne in En. discriminate. }
  destruct (existsb _ constraint_keywords) eqn:Ek.
  { intros H. injection H as <- <-. split; auto. exists []. split.
    - now rewrite app_nil_r.
    - intros fk target (_ & Hk & _). congruence. }
  unfold bind at 1.
  destruct (parse_column (strip col_def) n) as [[r n1]|] eqn:Ec;
    [|discriminate].
  destruct r as [[attr|] ref_info].
  - intros H. injection H as <- <-. cbn [fst snd].
    split.
    + destruct (contains _ _); reflexivity.
    + destruct ref_info as [[fk0 t0]|].
      * exists [(EntityType.en_name entity, fk0, t0)]. split.
        -- f_equal. f_equal. f_equal.
           destruct (contains _ _); reflexivity.
        -- intros fk target Hc.
           destruct (parse_column_references _ _ _ _ _ _ Hc Ec)
             as (a & E). injection E as _ <- <-. simpl. auto.
      * exists []. split; [now rewrite app_nil_r|].
        intros fk target Hc.
        destruct (parse_column_references _ _ _ _ _ _ Hc Ec) as (a & E).
        discriminate.
  - intros H. injection H as <- <-. split; auto. exists []. split.
    + now rewrite app_nil_r.
    + intros fk target Hc.
      destruct (parse_column_references _ _ _ _ _ _ Hc Ec) as (a & E).
      discriminate.
Qed.

Lemma table_columns_spec columns : forall st n st' n',
  for_each columns table_column st n = Some (st', n') ->
  EntityType.en_name (fst st') = EntityType.en_name (fst st) /\
  exists new,
    snd st' = snd st ++ new /\
    forall col_def fk target,
      In col_def columns ->
      column_references col_def fk target ->
      In (EntityType.en_name (fst st), fk, target) new.
Proof.
  induction columns as [|c cs IH]; intros st n st' n' H; simpl in H.
  - injection H as <- <-. split; auto. exists []. split.
    + now rewrite app_nil_r.
    + intros ? ? ? [].
  - unfold bind at 1 in H.
    destruct (table_column st c n) as [[st1 n1]|] eqn:E1; [|discriminate].
    apply table_column_spec in E1. destruct E1 as (N1 & new1 & P1 & F1).
    apply IH in H. destruct H as (N2 & new2 & P2 & F2).
    split; [congruence|].
    exists (new1 ++ new2). split.
    + rewrite P2, P1. now rewrite app_assoc.
    + intros col_def fk target [<- | Hin] Hc; apply in_app_iff.
      * left. now apply F1.
      * right. rewrite <- N1. eapply F2; eauto.
Qed.

Lemma parse_table_spec pending table_name table_body n entity pending' n' :
  parse_table pending table_name table_body n
    = Some ((entity, pending'), n') ->
  EntityType.en_name entity = lower table_name /\
  exists new,
    pending' = pending ++ new /\
    forall col_def fk target,
      In col_def (_split_columns strip table_body) ->
      column_references col_def fk target ->
      In (lower table_name, fk, target) new.
Proof.
  unfold _parse_table. unfold bind at 1. cbv beta iota.
  unfold bind at 1.
  destruct (for_each _ _ _ _) as [[[e1 p1] n1]|] eqn:E; [|discriminate].
  apply table_columns_spec in E. cbn [fst snd new_entity
    EntityType.en_name] in E.
  destruct E as (N & new & P & F).
  intros H. unfold ret in H. injection H as <- <- _. split.
  - rewrite <- N.
    destruct (EntityType.get_primary_key e1); auto.
    destruct (find _ _); auto.
  - exists new. split; auto.
Qed.

Lemma fold_left_option_None {A B} (f : option A -> B -> option A) l :
  (forall b, f None b = None) -> fold_left f l None = None.
Proof. intros H. induction l as [|b l IH]; simpl; auto. now rewrite H. Qed.

Lemma parse_tables_spec tables : forall a a',
  tables_loop tables a = Some a' ->
  (exists new,
      _pending_references a' = _pending_references a ++ new /\
      forall A body col_def fk target,
        In (A, body) tables ->
        In col_def (_split_columns strip body) ->
        column_references col_def fk target ->
        In (lower A, fk, target) new) /\
  (forall k, PyDict.mem (Database.entity_types (database a)) k = true ->
             PyDict.mem (Database.entity_types (database a')) k = true) /\
  (forall A body, In (A, body) tables ->
     PyDict.mem (Database.entity_types (database a')) (lower A) = true).
Proof.
  unfold parse_tables.
  induction tables as [|[A0 body0] tables IH]; intros a a' H;
    cbn [fold_left obind fst snd] in H.
  - injection H as <-. split; [|split].
    + exists []. split; [now rewrite app_nil_r|]. intros ? ? ? ? ? [].
    + auto.
    + intros ? ? [].
  - destruct (parse_table (_pending_references a) A0 body0 (uids a))
      as [[[entity pending] n1]|] eqn:E.
    2: { cbn [obind] in H.
         rewrite fold_left_option_None in H; [discriminate | reflexivity]. }
    cbn [obind] in H.
    apply parse_table_spec in E. destruct E as (N & new1 & P1 & F1).
    apply IH in H. cbn [database _pending_references uids] in H.
    destruct H as ((new2 & P2 & F2) & M2 & T2).
    assert (Hown : PyDict.mem
                     (Database.entity_types
                        (Database.add_entity_type (database a) entity))
                     (lower A0) = true).
    { unfold Database.add_entity_type, PyDict.mem. simpl.
      rewrite N, PyDict_get_set_same. reflexivity. }
    split; [|split].
    + exists (new1 ++ new2). split.
      * rewrite P2, P1. now rewrite app_assoc.
      * intros A body col_def fk target [E | Hin] Hc Hr;
          apply in_app_iff.
        -- injection E as <- <-. left. eapply F1; eauto.
        -- right. eapply F2; eauto.
    + intros k Hk. apply M2.
      unfold Database.add_entity_type, PyDict.mem in *. simpl.
      destruct (string_dec k (EntityType.en_name entity)) as [-> | Hne].
      * now rewrite PyDict_get_set_same.
      * rewrite PyDict_get_set_other; auto.
    + intros A body [E | Hin].
      * injection E as <- <-. now apply M2.
      * eapply T2; eauto.
Qed.

Lemma resolved_reference_attrs e e' fk target r :
  EntityType.attributes e' = EntityType.attributes e ->
  resolved_reference e fk target r -> resolved_reference e' fk target r.
Proof.
  intros Ha (meta & ->). exists meta.
  unfold EntityType.get_attribute. now rewrite Ha.
Qed.

(** A step of the resolution keeps the names of the map and the
    attributes of every entity, and only adds relationships. *)
Lemma resolve_step_get db n ref db' n' k :
  resolve_reference uid (db, n) ref = (db', n') ->
  match Database.get_entity_type db k with
  | Some e =>
      exists e', Database.get_entity_type db' k = Some e' /\
                 EntityType.attributes e' = EntityType.attributes e /\
                 incl (EntityType.relationships e)
                      (EntityType.relationships e')
  | None => Database.get_entity_type db' k = None
  end.
Proof.
  destruct ref as [[s f] t]. unfold resolve_reference.
  destruct (Database.get_entity_type db s) as [es|] eqn:Es.
  2: { intros H. injection H as <- <-.
       destruct (Database.get_entity_type db k); eauto using incl_refl. }
  destruct (Database.get_entity_type db t) as [et|] eqn:Et.
  2: { intros H. injection H as <- <-.
       destruct (Database.get_entity_type db k); eauto using incl_refl. }
  intros H. injection H as <- <-.
  unfold Database.get_entity_type in *. simpl.
  destruct (string_dec k s) as [-> | Hne].
  - rewrite Es, PyDict_get_set_same. eexists. split; [reflexivity|].
    split; [reflexivity|]. simpl. intros x Hx. apply in_app_iff. auto.
  - rewrite PyDict_get_set_other; auto.
    destruct (PyDict.get (Database.entity_types db) k);
      eauto using incl_refl.
Qed.

Lemma resolve_all_get pending : forall db n db' n' k e,
  fold_left (resolve_reference uid) pending (db, n) = (db', n') ->
  Database.get_entity_type db k = Some e ->
  exists e', Database.get_entity_type db' k = Some e' /\
             EntityType.attributes e' = EntityType.attributes e /\
             incl (EntityType.relationships e) (EntityType.relationships e').
Proof.
  induction pending as [|ref pending IH]; intros db n db' n' k e H Hk;
    cbn [fold_left] in H.
  - injection H as <- <-. eauto using incl_refl.
  - destruct (resolve_reference uid (db, n) ref) as [db1 n1] eqn:E1.
    pose proof (resolve_step_get _ _ _ _ _ k E1) as S1. rewrite Hk in S1.
    destruct S1 as (e1 & G1 & A1 & R1).
    destruct (IH _ _ _ _ _ _ H G1) as (e' & G' & A' & R').
    exists e'. split; auto. split; [congruence|].
    eapply incl_tran; eauto.
Qed.

Lemma resolve_all_adds pending : forall db n db' n' s f t es et,
  fold_left (resolve_reference uid) pending (db, n) = (db', n') ->
  In (s, f, t) pending ->
  Database.get_entity_type db s = Some es ->
  Database.get_entity_type db t = Some et ->
  exists e' r,
    Database.get_entity_type db' s = Some e' /\
    In r (EntityType.relationships e') /\
    resolved_reference e' f t r.
Proof.
  induction pending as [|ref pending IH];
    intros db n db' n' s f t es et H Hin Hs Ht; [destruct Hin|].
  cbn [fold_left] in H.
  destruct (resolve_reference uid (db, n) ref) as [db1 n1] eqn:E1.
  destruct Hin as [-> | Hin].
  - unfold resolve_reference in E1. rewrite Hs, Ht in E1.
    injection E1 as <- <-.
    match type of H with
    | fold_left _ _ (?d1, _) = _ =>
        assert (G1 : exists e1, Database.get_entity_type d1 s = Some e1 /\
                   EntityType.attributes e1 = EntityType.attributes es /\
                   exists r, In r (EntityType.relationships e1) /\
                             resolved_reference es f t r)
    end.
    { unfold Database.get_entity_type. simpl.
      rewrite PyDict_get_set_same. eexists. split; [reflexivity|].
      split; [reflexivity|]. eexists. split.
      - simpl. apply in_app_iff. right. left. reflexivity.
      - eexists. reflexivity. }
    destruct G1 as (e1 & G1 & A1 & r & R1 & P1).
    destruct (resolve_all_get _ _ _ _ _ _ _ H G1) as (e' & G' & A' & R').
    exists e', r. split; auto. split; [now apply R'|].
    eapply resolved_reference_attrs; [|exact P1]. congruence.
  - pose proof (resolve_step_get _ _ _ _ _ s E1) as S1. rewrite Hs in S1.
    destruct S1 as (es1 & Gs & _).
    pose proof (resolve_step_get _ _ _ _ _ t E1) as T1. rewrite Ht in T1.
    destruct T1 as (et1 & Gt & _).
    eapply IH; eauto.
Qed.

Lemma PyDict_mem_get {V} (d : PyDict.t V) k :
  PyDict.mem d k = true -> exists v, PyDict.get d k = Some v.
Proof. unfold PyDict.mem. destruct (PyDict.get d k); [eauto|discriminate]. Qed.

(** A definition that [_split_columns] returns for the body of [A] and
    that the adapter reads as a column with a [REFERENCES] clause naming
    [B] leaves, once [parse] has completed, a required-one [Reference] to
    [B] on the entity filed under the name of [A]. *)
Lemma forward_reference_resolved :
  forall (ddl db_name : string) (n : nat) (db : Database.t)
         (A bodyA B bodyB : string) (pre mid post : list (string * string))
         (col_def fk : string),
    _extract_create_tables findall_create_table
      (_remove_comments sub_line_comments sub_block_comments ddl)
      = pre ++ (A, bodyA) :: mid ++ (B, bodyB) :: post ->
    In col_def (_split_columns strip bodyA) ->
    column_references col_def fk (lower B) ->
    parse uid lower upper strip startswith contains normalize_whitespace
          split_commas py_int sub_line_comments sub_block_comments
          findall_create_table match_column search_references TYPE_MAP
          ddl db_name n = Some db ->
    exists e r,
      Database.get_entity_type db (lower A) = Some e /\
      In r (EntityType.relationships e) /\
      Relationship.is_Reference r = true /\
      Relationship.rel_name r = fk /\
      Relationship.get_target_entity_name r = lower B /\
      Relationship.cardinality r = ONE_TO_ONE /\
      Relationship.is_optional r =
        match EntityType.get_attribute e fk with
        | Some attr => Attribute.is_optional attr
        | None => true
        end.
Proof.
  intros ddl db_name n db A bodyA B bodyB pre mid post col_def fk
         Htables Hcol Href Hparse.
  unfold parse in Hparse. rewrite Htables in Hparse.
  destruct (tables_loop _ _) as [a|] eqn:Ea; [|discriminate].
  cbn [obind] in Hparse. injection Hparse as <-.
  apply parse_tables_spec in Ea.
  destruct Ea as ((new & P & F) & _ & T).
  cbn [_pending_references] in P. simpl app in P.
  assert (HA : In (A, bodyA) (pre ++ (A, bodyA) :: mid ++ (B, bodyB) :: post))
    by (apply in_app_iff; right; left; reflexivity).
  assert (HB : In (B, bodyB) (pre ++ (A, bodyA) :: mid ++ (B, bodyB) :: post)).
  { apply in_app_iff. right. right. apply in_app_iff. right. left.
    reflexivity. }
  pose proof (F _ _ _ _ _ HA Hcol Href) as Hpend.
  destruct (PyDict_mem_get _ _ (T _ _ HA)) as (ea & Ga).
  destruct (PyDict_mem_get _ _ (T _ _ HB)) as (eb & Gb).
  unfold _resolve_references.
  destruct (fold_left _ _ _) as [db' n'] eqn:Ef. cbn [database].
  rewrite P in Ef.
  destruct (resolve_all_adds _ _ _ _ _ _ _ _ _ _ Ef Hpend Ga Gb)
    as (e' & r & G & Hin & (meta & ->)).
  exists e'. eexists. split; [exact G|]. split; [exact Hin|].
  repeat split.
Qed.

End ForwardReferences.


(** ** Cardinalities and native type names *)

(** X1. [Cardinality.from_symbol] is the inverse of [value] on the four
    symbols and gives [ONE_TO_ONE] for every other string: the result is
    [c] exactly when [s] is the symbol of [c], or [s] is no symbol at all
    and [c] is [ONE_TO_ONE]. *)
Theorem X1_from_symbol_characterised :
  forall (s : string) (c : Cardinality),
    from_symbol s = c <->
    (Cardinality_value c = s \/
     (c = ONE_TO_ONE /\ forall c', Cardinality_value c' <> s)).
Proof.
  intros s c. unfold from_symbol, PyDict.get_default. cbn [PyDict.get].
  destruct (String.eqb_spec "?" s) as [<-|H1].
  { split; [intros <-; left; reflexivity|].
    intros [H|[_ H]]; [destruct c; simpl in H; (reflexivity || discriminate)|].
    exfalso; apply (H ZERO_TO_ONE); reflexivity. }
  destruct (String.eqb_spec "&" s) as [<-|H2].
  { split; [intros <-; left; reflexivity|].
    intros [H|[-> _]]; [|reflexivity].
    destruct c; simpl in H; (reflexivity || discriminate). }
  destruct (String.eqb_spec "*" s) as [<-|H3].
  { split; [intros <-; left; reflexivity|].
    intros [H|[_ H]]; [destruct c; simpl in H; (reflexivity || discriminate)|].
    exfalso; apply (H ZERO_TO_MANY); reflexivity. }
  destruct (String.eqb_spec "+" s) as [<-|H4].
  { split; [intros <-; left; reflexivity|].
    intros [H|[_ H]]; [destruct c; simpl in H; (reflexivity || discriminate)|].
    exfalso; apply (H ONE_TO_MANY); reflexivity. }
  split.
  - intros <-. right. split; [reflexivity|].
    intros c'; destruct c'; simpl; assumption.
  - intros [H|[-> _]]; [|reflexivity].
    destruct c; simpl in H; congruence.
Qed.

(** X2. The bounds of a relationship agree with the two predicates of its
    cardinality: the lower bound is 1 when the cardinality is required and
    0 otherwise, the upper bound is -1 (unlimited) when it is multiple and
    1 otherwise, [is_array] holds exactly for the unlimited upper bound,
    and two cardinalities with the same bounds are the same. *)
Theorem X2_bounds_agree_with_predicates :
  forall r : Relationship.t,
    Relationship.lower_bound r
      = (if is_required (Relationship.cardinality r) then 1 else 0)%Z /\
    Relationship.upper_bound r
      = (if is_multiple (Relationship.cardinality r) then -1 else 1)%Z /\
    (Relationship.is_array r = true <->
     Relationship.upper_bound r = (-1)%Z) /\
    (forall c c', to_bounds c = to_bounds c' -> c = c').
Proof.
  intros r.
  unfold Relationship.lower_bound, Relationship.upper_bound,
    Relationship.is_array.
  split; [destruct (Relationship.cardinality r); reflexivity|].
  split; [destruct (Relationship.cardinality r); reflexivity|].
  split.
  - destruct (Relationship.cardinality r); cbn; split; intro H;
      (reflexivity || discriminate H).
  - intros c c'; destruct c, c'; cbn; intro H;
      (reflexivity || discriminate H).
Qed.

Lemma append_nonempty (a b : string) : a <> "" -> (a ++ b)%string <> "".
Proof. destruct a; [congruence | discriminate]. Qed.

Lemma _get_native_type_nonempty (ptype : PrimitiveType) (db : DatabaseType)
    (s : string) :
  _get_native_type ptype db = Some s -> s <> "".
Proof.
  destruct ptype, db; vm_compute; intros [= <-]; discriminate.
Qed.

(** X3. [to_native] returns a non-empty native type name for every data
    type, the nested containers included, on each of the four paradigms:
    no combination raises. *)
Theorem X3_to_native_every_data_type :
  forall (t : DataType) (db : DatabaseType),
    exists s, to_native t db = Some s /\ s <> "".
Proof.
  intros t db.
  induction t as [pt ml pr sc | el IH | el IH | kt IHk vt IHv];
    cbn [to_native].
  - destruct (_get_native_type_total pt db) as [b Hb]. rewrite Hb.
    pose proof (_get_native_type_nonempty _ _ _ Hb) as Hn.
    destruct (DatabaseType_beq db RELATIONAL); [|eauto].
    destruct (PrimitiveType_beq pt STRING && truthy_int ml).
    { eexists; split; [reflexivity | discriminate]. }
    destruct (PrimitiveType_beq pt DECIMAL && truthy_int pr).
    { eexists; split; [reflexivity | discriminate]. }
    eauto.
  - destruct IH as [n [-> Hn]].
    destruct db; eexists; (split; [reflexivity|]);
      first [apply append_nonempty; assumption | discriminate].
  - destruct IH as [n [-> Hn]].
    destruct db; eexists; (split; [reflexivity|]);
      first [apply append_nonempty; assumption | discriminate].
  - destruct IHk as [k [-> Hk]], IHv as [v [-> Hv]].
    destruct db; eexists; (split; [reflexivity|]); discriminate.
Qed.

(** X4. Length, precision and scale matter on the relational paradigm
    only: on a document, graph or columnar database a data type and the
    same data type without these parameters have the same native name. *)
Theorem X4_to_native_parameters_relational_only :
  forall (t : DataType) (db : DatabaseType),
    db <> RELATIONAL ->
    to_native t db = to_native (erase_params t) db.
Proof.
  intros t db Hdb.
  induction t as [pt ml pr sc | el IH | el IH | kt IHk vt IHv];
    cbn [to_native erase_params].
  - destruct db; [congruence | | |]; reflexivity.
  - rewrite IH. reflexivity.
  - rewrite IH. reflexivity.
  - rewrite IHk, IHv. reflexivity.
Qed.

Lemma X4_to_native_parameters_relational_only_witness :
  to_native (ListDataType (PrimitiveDataType STRING (Some 100%Z) None None))
            GRAPH
  = Some "List<String>" /\
  to_native (ListDataType (PrimitiveDataType STRING (Some 100%Z) None None))
            RELATIONAL
  = Some "VARCHAR(100)[]".
Proof.
  split; [|reflexivity].
  rewrite (X4_to_native_parameters_relational_only
             (ListDataType (PrimitiveDataType STRING (Some 100%Z) None None))
             GRAPH); [reflexivity | discriminate].
Defined.

(** ** Removal of attributes and relationships *)

Lemma pop_first_fst {A} (p : A -> bool) (l : list A) :
  fst (EntityType.pop_first p l) = find p l.
Proof.
  induction l as [|x r IH]; simpl; [reflexivity|].
  destruct (p x); [reflexivity|].
  destruct (EntityType.pop_first p r); simpl in *; assumption.
Qed.

Lemma pop_first_none {A} (p : A -> bool) (l : list A) :
  find p l = None -> snd (EntityType.pop_first p l) = l.
Proof.
  induction l as [|x r IH]; simpl; [reflexivity|].
  destruct (p x); [discriminate|].
  intros H. specialize (IH H).
  destruct (EntityType.pop_first p r); simpl in *; congruence.
Qed.

Lemma pop_first_split {A} (p : A -> bool) (l : list A) (x : A) :
  find p l = Some x ->
  exists l1 l2,
    l = l1 ++ x :: l2 /\ snd (EntityType.pop_first p l) = l1 ++ l2 /\
    Forall (fun y => p y = false) l1 /\ p x = true.
Proof.
  induction l as [|y r IH]; simpl; [discriminate|].
  destruct (p y) eqn:Ey.
  - intros [= ->]. exists [], r. simpl. auto.
  - intros H. destruct (IH H) as (l1 & l2 & -> & E & Hl1 & Hx).
    exists (y :: l1), l2.
    destruct (EntityType.pop_first p (l1 ++ x :: l2)); simpl in *.
    subst. auto.
Qed.

Lemma find_app {A} (p : A -> bool) (l1 l2 : list A) :
  find p (l1 ++ l2)
  = match find p l1 with Some x => Some x | None => find p l2 end.
Proof.
  induction l1 as [|x r IH]; simpl; [reflexivity|].
  destruct (p x); [reflexivity | apply IH].
Qed.

Lemma find_none_Forall {A} (p : A -> bool) (l : list A) :
  find p l = None <-> Forall (fun y => p y = false) l.
Proof.
  induction l as [|x r IH]; simpl.
  - split; auto.
  - destruct (p x) eqn:E.
    + split; [discriminate|]. intros H. inversion H; congruence.
    + rewrite IH. split; [auto|]. intros H. inversion H; assumption.
Qed.

(** Removing the first element under a name from a list whose names are
    distinct leaves no element under that name. *)
Lemma find_after_pop_first {A} (f : A -> string) (name : string)
    (l : list A) :
  NoDup (map f l) ->
  find (fun a => String.eqb (f a) name)
       (snd (EntityType.pop_first (fun a => String.eqb (f a) name) l))
  = None.
Proof.
  intros Hnd.
  destruct (find (fun a => String.eqb (f a) name) l) as [x|] eqn:E.
  - destruct (pop_first_split _ _ _ E) as (l1 & l2 & -> & -> & Hl1 & Hx).
    apply String.eqb_eq in Hx.
    rewrite find_app. apply find_none_Forall in Hl1. rewrite Hl1.
    apply find_none_Forall. apply Forall_forall. intros y Hy.
    apply String.eqb_neq. intros Hfy.
    rewrite map_app in Hnd. apply NoDup_remove_2 in Hnd.
    apply Hnd. apply in_or_app. right. simpl in *.
    rewrite Hx, <- Hfy. apply in_map. assumption.
  - rewrite (pop_first_none _ _ E). assumption.
Qed.

Lemma find_pop_first_other {A} (p q : A -> bool) (l : list A) :
  (forall x, p x = true -> q x = false) ->
  find q (snd (EntityType.pop_first p l)) = find q l.
Proof.
  intros Hpq.
  destruct (find p l) as [x|] eqn:E.
  - destruct (pop_first_split _ _ _ E) as (l1 & l2 & -> & -> & _ & Hx).
    rewrite !find_app. simpl. rewrite (Hpq _ Hx). reflexivity.
  - rewrite (pop_first_none _ _ E). reflexivity.
Qed.

Lemma remove_attribute_eq (e : EntityType.t) (name : string) :
  EntityType.remove_attribute e name
  = (EntityType.get_attribute e name,
     EntityType.set_attributes e
       (snd (EntityType.pop_first
               (fun a => String.eqb (Attribute.attr_name a) name)
               (EntityType.attributes e)))).
Proof.
  unfold EntityType.remove_attribute, EntityType.get_attribute.
  rewrite <- pop_first_fst.
  destruct (EntityType.pop_first _ (EntityType.attributes e)); reflexivity.
Qed.

Lemma remove_relationship_eq (e : EntityType.t) (name : string) :
  EntityType.remove_relationship e name
  = (find (fun r => String.eqb (Relationship.rel_name r) name)
          (EntityType.relationships e),
     EntityType.set_relationships e
       (snd (EntityType.pop_first
               (fun r => String.eqb (Relationship.rel_name r) name)
               (EntityType.relationships e)))).
Proof.
  unfold EntityType.remove_relationship.
  rewrite <- pop_first_fst.
  destruct (EntityType.pop_first _ (EntityType.relationships e));
    reflexivity.
Qed.

(** X5. [EntityType.remove_attribute] returns what [get_attribute] finds
    under the name and removes that one attribute: the attributes before
    and after it keep their order, the lookup of every other name is
    unchanged, a name that is absent leaves the entity as it was, and when
    the attribute names of the entity are distinct the name is no longer
    found.  The keys are not touched: a key that lists the removed
    attribute keeps listing it. *)
Theorem X5_remove_attribute_first_match :
  forall (e : EntityType.t) (name : string),
    let r := EntityType.remove_attribute e name in
    fst r = EntityType.get_attribute e name /\
    (forall other, other <> name ->
       EntityType.get_attribute (snd r) other
       = EntityType.get_attribute e other) /\
    (NoDup (attribute_names e) ->
     EntityType.get_attribute (snd r) name = None) /\
    (EntityType.get_attribute e name = None -> snd r = e) /\
    (forall a, EntityType.get_attribute e name = Some a ->
       exists l1 l2,
         EntityType.attributes e = l1 ++ a :: l2 /\
         EntityType.attributes (snd r) = l1 ++ l2 /\
         ~ In name (map Attribute.attr_name l1)) /\
    EntityType.keys (snd r) = EntityType.keys e /\
    EntityType.relationships (snd r) = EntityType.relationships e.
Proof.
  intros e name. cbv zeta. rewrite remove_attribute_eq.
  cbn [fst snd].
  split; [reflexivity|].
  split.
  { intros other Hne. unfold EntityType.get_attribute. cbn.
    apply find_pop_first_other.
    intros x Hx. apply String.eqb_eq in Hx. apply String.eqb_neq.
    congruence. }
  split.
  { intros Hnd. unfold EntityType.get_attribute. cbn.
    apply find_after_pop_first. exact Hnd. }
  split.
  { intros Hn. unfold EntityType.get_attribute in Hn.
    rewrite (pop_first_none _ _ Hn). destruct e; reflexivity. }
  split; [|split; reflexivity].
  intros a Ha. unfold EntityType.get_attribute in Ha.
  destruct (pop_first_split _ _ _ Ha) as (l1 & l2 & E1 & E2 & Hl1 & _).
  exists l1, l2. split; [exact E1|]. split; [exact E2|].
  intros Hin. apply in_map_iff in Hin. destruct Hin as (y & Hy & Hyin).
  rewrite Forall_forall in Hl1. specialize (Hl1 _ Hyin).
  apply String.eqb_neq in Hl1. contradiction.
Qed.

Lemma pop_first_snoc {A} (p : A -> bool) (l : list A) (x : A) :
  find p l = None -> p x = true ->
  EntityType.pop_first p (l ++ [x]) = (Some x, l).
Proof.
  induction l as [|y r IH]; simpl; intros Hn Hx.
  - rewrite Hx. reflexivity.
  - destruct (p y); [discriminate|]. rewrite (IH Hn Hx). reflexivity.
Qed.

(** X6. Adding an attribute under a new name and removing that name again
    gives the attribute back and restores the entity. *)
Theorem X6_add_then_remove_attribute :
  forall (e : EntityType.t) (a : Attribute.t),
    ~ In (Attribute.attr_name a) (attribute_names e) ->
    EntityType.remove_attribute (EntityType.add_attribute e a)
                                (Attribute.attr_name a)
    = (Some a, e).
Proof.
  intros e a Hfresh.
  unfold EntityType.remove_attribute, EntityType.add_attribute.
  cbn [EntityType.attributes EntityType.set_attributes].
  rewrite pop_first_snoc.
  - destruct e; reflexivity.
  - apply find_none_Forall. apply Forall_forall. intros y Hy.
    apply String.eqb_neq. intros E. apply Hfresh. rewrite <- E.
    unfold attribute_names. apply in_map. assumption.
  - apply String.eqb_refl.
Qed.

Lemma X6_add_then_remove_attribute_witness :
  EntityType.remove_attribute
    (EntityType.add_attribute Samples.address Samples.email_attr) "email"
  = (Some Samples.email_attr, Samples.address).
Proof.
  apply (X6_add_then_remove_attribute Samples.address Samples.email_attr).
  cbv. intros [H|[]]. discriminate H.
Defined.

Lemma is_Aggregate_negb (r : Relationship.t) :
  Relationship.is_Aggregate r = negb (Relationship.is_Reference r).
Proof. destruct r; reflexivity. Qed.

Lemma filter_remove_middle {A} (p : A -> bool) (l1 l2 : list A) (x : A) :
  p x = false -> filter p (l1 ++ x :: l2) = filter p (l1 ++ l2).
Proof.
  intros Hx. rewrite !filter_app. simpl. rewrite Hx. reflexivity.
Qed.

(** X7. [EntityType.remove_relationship] looks for the name among the
    references and the aggregates alike ([ref_name] or [aggr_name]) and
    removes the first relationship that carries it, whatever its kind: the
    relationships before and after keep their order, the list of the other
    kind is unchanged, an absent name leaves the entity as it was, and the
    attributes are not touched. *)
Theorem X7_remove_relationship_shared_namespace :
  forall (e : EntityType.t) (name : string),
    let r := EntityType.remove_relationship e name in
    fst r = find (fun x => String.eqb (Relationship.rel_name x) name)
                 (EntityType.relationships e) /\
    (forall x, fst r = Some x ->
       Relationship.rel_name x = name /\
       (exists l1 l2,
           EntityType.relationships e = l1 ++ x :: l2 /\
           EntityType.relationships (snd r) = l1 ++ l2 /\
           ~ In name (map Relationship.rel_name l1)) /\
       (Relationship.is_Reference x = true ->
        EntityType.get_aggregates (snd r) = EntityType.get_aggregates e) /\
       (Relationship.is_Aggregate x = true ->
        EntityType.get_references (snd r) = EntityType.get_references e)) /\
    (fst r = None -> snd r = e) /\
    EntityType.attributes (snd r) = EntityType.attributes e.
Proof.
  intros e name. cbv zeta. rewrite remove_relationship_eq. cbn [fst snd].
  split; [reflexivity|].
  split.
  { intros x Hx.
    destruct (pop_first_split _ _ _ Hx) as (l1 & l2 & E1 & E2 & Hl1 & Hpx).
    split; [apply String.eqb_eq; exact Hpx|].
    split.
    { exists l1, l2. split; [exact E1|]. split; [exact E2|].
      intros Hin. apply in_map_iff in Hin. destruct Hin as (y & Hy & Hyin).
      rewrite Forall_forall in Hl1. specialize (Hl1 _ Hyin).
      apply String.eqb_neq in Hl1. contradiction. }
    unfold EntityType.get_aggregates, EntityType.get_references.
    cbn [EntityType.relationships EntityType.set_relationships].
    rewrite E2, E1.
    split; intros Hk; symmetry; apply filter_remove_middle.
    - rewrite is_Aggregate_negb, Hk. reflexivity.
    - rewrite is_Aggregate_negb in Hk.
      destruct (Relationship.is_Reference x); [discriminate | reflexivity]. }
  split; [|reflexivity].
  intros Hn. rewrite (pop_first_none _ _ Hn). destruct e; reflexivity.
Qed.

Lemma filter_partition_perm {A} (p : A -> bool) (l : list A) :
  Permutation (filter p l ++ filter (fun x => negb (p x)) l) l.
Proof.
  induction l as [|x r IH]; simpl; [constructor|].
  destruct (p x); simpl.
  - constructor. exact IH.
  - apply Permutation_sym. apply Permutation_cons_app.
    apply Permutation_sym. exact IH.
Qed.

(** X8. [get_references] and [get_aggregates] split the relationships of
    an entity: each relationship is in exactly one of the two lists, and
    together the two lists are a rearrangement of all its relationships. *)
Theorem X8_references_aggregates_partition :
  forall e : EntityType.t,
    Permutation (EntityType.get_references e ++ EntityType.get_aggregates e)
                (EntityType.relationships e) /\
    (forall r, In r (EntityType.relationships e) ->
       (In r (EntityType.get_references e) <->
        ~ In r (EntityType.get_aggregates e))) /\
    (length (EntityType.get_references e)
     + length (EntityType.get_aggregates e)
     = length (EntityType.relationships e))%nat.
Proof.
  intros e.
  assert (Hagg : EntityType.get_aggregates e
                 = filter (fun x => negb (Relationship.is_Reference x))
                          (EntityType.relationships e)).
  { unfold EntityType.get_aggregates. apply filter_ext.
    exact is_Aggregate_negb. }
  assert (Hperm : Permutation
            (EntityType.get_references e ++ EntityType.get_aggregates e)
            (EntityType.relationships e)).
  { rewrite Hagg. apply filter_partition_perm. }
  split; [exact Hperm|].
  split.
  - intros r Hr. rewrite Hagg. unfold EntityType.get_references.
    rewrite !filter_In. split.
    + intros [_ H1] [_ H2]. rewrite H1 in H2. discriminate.
    + intros H. split; [exact Hr|].
      destruct (Relationship.is_Reference r) eqn:E; [reflexivity|].
      exfalso. apply H. split; [exact Hr | reflexivity].
  - rewrite <- length_app. apply Permutation_length. exact Hperm.
Qed.

(** ** Removal from the maps of a database *)

Lemma PyDict_pop_fst {V} (d : PyDict.t V) k :
  fst (PyDict.pop d k) = PyDict.get d k.
Proof.
  induction d as [|[k' v] r IH]; simpl; [reflexivity|].
  destruct (String.eqb k' k); [reflexivity|].
  destruct (PyDict.pop r k); simpl in *; assumption.
Qed.

Lemma PyDict_pop_get_other {V} (d : PyDict.t V) k k' :
  k' <> k -> PyDict.get (snd (PyDict.pop d k)) k' = PyDict.get d k'.
Proof.
  intros Hne. induction d as [|[k0 v] r IH]; simpl; [reflexivity|].
  destruct (String.eqb_spec k0 k) as [->|Hk].
  - simpl. destruct (String.eqb_spec k k'); [congruence | reflexivity].
  - destruct (PyDict.pop r k); simpl in *. rewrite IH. reflexivity.
Qed.

Lemma PyDict_pop_In {V} (d : PyDict.t V) k kv :
  In kv (snd (PyDict.pop d k)) -> In kv d.
Proof.
  induction d as [|[k0 v] r IH]; simpl; [auto|].
  destruct (String.eqb k0 k); simpl; [auto|].
  destruct (PyDict.pop r k); simpl in *. intros [H|H]; auto.
Qed.

Lemma PyDict_pop_none {V} (d : PyDict.t V) k :
  PyDict.get d k = None -> snd (PyDict.pop d k) = d.
Proof.
  induction d as [|[k0 v] r IH]; simpl; [reflexivity|].
  destruct (String.eqb k0 k); [discriminate|].
  intros H. specialize (IH H).
  destruct (PyDict.pop r k); simpl in *. congruence.
Qed.

Lemma PyDict_pop_wf {V} (d : PyDict.t V) k :
  PyDict.wf d ->
  PyDict.wf (snd (PyDict.pop d k)) /\
  PyDict.get (snd (PyDict.pop d k)) k = None.
Proof.
  unfold PyDict.wf, PyDict.keys.
  induction d as [|[k0 v] r IH]; simpl; intros Hnd.
  - split; [constructor | reflexivity].
  - inversion Hnd as [|? ? Hnotin Hnd']; subst.
    destruct (String.eqb_spec k0 k) as [->|Hk]; simpl.
    + split; [exact Hnd'|]. apply PyDict_get_None_keys. exact Hnotin.
    + destruct (IH Hnd') as [IH1 IH2].
      pose proof (PyDict_pop_In r k) as Hin.
      destruct (PyDict.pop r k) as [o r']; simpl in *.
      split.
      * constructor; [|exact IH1].
        intros Hc. apply Hnotin. apply in_map_iff in Hc.
        destruct Hc as ([k1 v1] & E & Hc). apply in_map_iff.
        exists (k1, v1). split; [exact E | apply Hin; exact Hc].
      * destruct (String.eqb_spec k0 k); [congruence | exact IH2].
Qed.

Lemma PyDict_pop_set_fresh {V} (d : PyDict.t V) k v :
  PyDict.get d k = None -> PyDict.pop (PyDict.set d k v) k = (Some v, d).
Proof.
  induction d as [|[k0 v0] r IH]; simpl; intros H.
  - rewrite String.eqb_refl. reflexivity.
  - destruct (String.eqb k0 k) eqn:E; [discriminate|].
    simpl. rewrite E, (IH H). reflexivity.
Qed.

Lemma remove_entity_type_eq (d : Database.t) (name : string) :
  Database.remove_entity_type d name
  = (Database.get_entity_type d name,
     Database.set_entity_types d
       (snd (PyDict.pop (Database.entity_types d) name))).
Proof.
  unfold Database.remove_entity_type, Database.get_entity_type.
  rewrite <- PyDict_pop_fst.
  destruct (PyDict.pop (Database.entity_types d) name); reflexivity.
Qed.

(** X9. [Database.remove_entity_type] returns the entity that
    [get_entity_type] finds under the name, or [None] and the database
    unchanged when there is none; afterwards the name is bound to nothing,
    every other name is bound as before, the relationship types are
    untouched, and the entities are still filed under their own unique
    names. *)
Theorem X9_remove_entity_type_unbinds :
  forall (d : Database.t) (name : string),
    let r := Database.remove_entity_type d name in
    fst r = Database.get_entity_type d name /\
    (forall n, n <> name ->
       Database.get_entity_type (snd r) n = Database.get_entity_type d n) /\
    (PyDict.wf (Database.entity_types d) ->
     Database.get_entity_type (snd r) name = None) /\
    (Database.get_entity_type d name = None -> snd r = d) /\
    (Database.names_unique d -> Database.names_unique (snd r)) /\
    Database.relationship_types (snd r) = Database.relationship_types d.
Proof.
  intros d name. cbv zeta. rewrite remove_entity_type_eq. cbn [fst snd].
  split; [reflexivity|].
  split.
  { intros n Hn. unfold Database.get_entity_type. cbn.
    apply PyDict_pop_get_other. exact Hn. }
  split.
  { intros Hwf. unfold Database.get_entity_type. cbn.
    apply (PyDict_pop_wf _ name Hwf). }
  split.
  { unfold Database.get_entity_type. intros Hn.
    rewrite (PyDict_pop_none _ _ Hn). destruct d; reflexivity. }
  split; [|reflexivity].
  intros [Hwf Hall]. split; cbn.
  - apply (PyDict_pop_wf _ name Hwf).
  - rewrite Forall_forall in *. intros kv Hkv.
    apply Hall. apply (PyDict_pop_In _ name). exact Hkv.
Qed.

(** X10. Adding an entity under a name that the database does not hold
    and removing that name again gives the entity back and restores the
    database. *)
Theorem X10_add_then_remove_entity_type :
  forall (d : Database.t) (e : EntityType.t),
    Database.get_entity_type d (EntityType.en_name e) = None ->
    Database.remove_entity_type (Database.add_entity_type d e)
                                (EntityType.en_name e)
    = (Some e, d).
Proof.
  intros d e Hfresh.
  unfold Database.remove_entity_type, Database.add_entity_type.
  cbn [Database.entity_types Database.set_entity_types].
  rewrite (PyDict_pop_set_fresh _ _ _ Hfresh).
  destruct d; reflexivity.
Qed.

Lemma X10_add_then_remove_entity_type_witness :
  Database.remove_entity_type
    (Database.add_entity_type Samples.db Samples.customer) "customer"
  = (Some Samples.customer, Samples.db).
Proof.
  apply (X10_add_then_remove_entity_type Samples.db Samples.customer).
  reflexivity.
Defined.

(** X11. The relationship types of a database are a map by [rel_name]:
    [add_relationship_type] binds the name of the relationship type to it,
    replacing an earlier one of that name and leaving the other names and
    the entities alone; [remove_relationship_type] returns what
    [get_relationship_type] finds and leaves the other names bound as
    before; and removing a name that was new when it was added restores
    the database. *)
Theorem X11_relationship_type_map :
  forall (d : Database.t) (r : RelationshipType.t) (name : string),
    let d' := Database.add_relationship_type d r in
    let p := Database.remove_relationship_type d name in
    Database.get_relationship_type d' (RelationshipType.rel_name r) = Some r /\
    (forall n, n <> RelationshipType.rel_name r ->
       Database.get_relationship_type d' n
       = Database.get_relationship_type d n) /\
    Database.entity_types d' = Database.entity_types d /\
    fst p = Database.get_relationship_type d name /\
    (forall n, n <> name ->
       Database.get_relationship_type (snd p) n
       = Database.get_relationship_type d n) /\
    (Database.get_relationship_type d (RelationshipType.rel_name r) = None ->
     Database.remove_relationship_type d' (RelationshipType.rel_name r)
     = (Some r, d)).
Proof.
  intros d r name. cbv zeta.
  unfold Database.add_relationship_type, Database.get_relationship_type,
    Database.remove_relationship_type.
  cbn [Database.relationship_types Database.set_relationship_types
       Database.entity_types].
  split; [apply PyDict_get_set_same|].
  split; [intros n Hn; apply PyDict_get_set_other; exact Hn|].
  split; [reflexivity|].
  pose proof (PyDict_pop_fst (Database.relationship_types d) name) as Hf.
  pose proof (fun n => PyDict_pop_get_other
                         (Database.relationship_types d) name n) as Ho.
  destruct (PyDict.pop (Database.relationship_types d) name) as [o m].
  cbn [fst snd] in *.
  split; [exact Hf|].
  split; [intros n Hn; cbn; apply Ho; exact Hn|].
  intros Hfresh. rewrite (PyDict_pop_set_fresh _ _ _ Hfresh).
  destruct d; reflexivity.
Qed.

(** ** Members of keys and of structural variations *)

Lemma NoDup_snoc {A} (l : list A) (x : A) :
  NoDup l -> ~ In x l -> NoDup (l ++ [x]).
Proof.
  intros Hl Hx. apply (Permutation_NoDup (l := x :: l)).
  - apply Permutation_cons_append.
  - constructor; assumption.
Qed.

Lemma py_in_not_In {A} (eq_dec : forall x y : A, {x = y} + {x <> y}) x l :
  py_in eq_dec x l = false -> ~ In x l.
Proof.
  intros H Hin. apply (py_in_In eq_dec) in Hin. congruence.
Qed.

(** X12. On a key whose members are all marked [is_key], as every key is
    that [Key.add_attribute] has built from an empty key,
    [Key.add_attribute] keeps the key a duplicate-free list of marked
    attributes: after the call the marked attribute is a member, the
    member list is the old one with at most that attribute appended, a
    list without repetition stays without repetition, the members are
    still all marked, the kind of the key is unchanged, and adding the
    same attribute once more changes nothing. *)
Theorem X12_key_add_attribute_invariant :
  forall (k : Key.t) (a : Attribute.t),
    Forall (fun x => Attribute.is_key x = true) (Key.key_attributes k) ->
    let k' := fst (Key.add_attribute k a) in
    let a' := snd (Key.add_attribute k a) in
    In a' (Key.key_attributes k') /\
    (exists l, Key.key_attributes k' = Key.key_attributes k ++ l /\
               (l = [] \/ l = [a'])) /\
    (NoDup (Key.key_attributes k) -> NoDup (Key.key_attributes k')) /\
    Forall (fun x => Attribute.is_key x = true) (Key.key_attributes k') /\
    Key.key_type k' = Key.key_type k /\
    Key.add_attribute k' a = (k', a').
Proof.
  intros k a Hall. cbv zeta. unfold Key.add_attribute.
  destruct (py_in Attribute.eq_dec (Attribute.set_is_key a true)
                  (Key.key_attributes k)) eqn:E;
    cbn [negb fst snd Key.key_attributes Key.key_type].
  - split; [apply (py_in_In Attribute.eq_dec); exact E|].
    split; [exists []; rewrite app_nil_r; auto|].
    split; [auto|]. split; [exact Hall|]. split; [reflexivity|].
    rewrite E. reflexivity.
  - pose proof (py_in_not_In _ _ _ E) as Hnot.
    split; [apply in_or_app; right; left; reflexivity|].
    split; [eexists; split; [reflexivity | right; reflexivity]|].
    split; [intros Hnd; apply NoDup_snoc; assumption|].
    split.
    { apply Forall_app. split; [exact Hall|].
      constructor; [reflexivity | constructor]. }
    split; [reflexivity|].
    replace (py_in Attribute.eq_dec (Attribute.set_is_key a true)
                   (Key.key_attributes k ++ [Attribute.set_is_key a true]))
      with true; [reflexivity|].
    symmetry. apply (py_in_In Attribute.eq_dec).
    apply in_or_app; right; left; reflexivity.
Qed.

Lemma X12_key_add_attribute_invariant_witness :
  Key.key_attributes (fst (Key.add_attribute Samples.pk_id Samples.email_attr))
    = [Samples.id_attr; Attribute.set_is_key Samples.email_attr true] /\
  Forall (fun x => Attribute.is_key x = true)
         (Key.key_attributes
            (fst (Key.add_attribute Samples.pk_id Samples.email_attr))) /\
  Key.add_attribute
    (fst (Key.add_attribute Samples.pk_id Samples.email_attr))
    Samples.email_attr
  = Key.add_attribute Samples.pk_id Samples.email_attr.
Proof.
  pose proof (X12_key_add_attribute_invariant
                Samples.pk_id Samples.email_attr) as H.
  cbv zeta in H.
  destruct H as (_ & _ & _ & H4 & _ & H6).
  - constructor; [reflexivity | constructor].
  - split; [reflexivity|]. split; [exact H4|].
    rewrite H6. reflexivity.
Defined.

Lemma fold_set_insert {A} (eq_dec : forall x y : A, {x = y} + {x <> y})
    (xs : list A) :
  forall l,
    (NoDup l ->
     NoDup (fold_left (fun l x => if py_in eq_dec x l then l else l ++ [x])
                      xs l)) /\
    (forall y,
        In y (fold_left (fun l x => if py_in eq_dec x l then l else l ++ [x])
                        xs l)
        <-> In y l \/ In y xs).
Proof.
  induction xs as [|x r IH]; intros l; simpl.
  - split; [auto|]. intros y. tauto.
  - destruct (py_in eq_dec x l) eqn:E.
    + destruct (IH l) as [IH1 IH2]. split; [exact IH1|].
      intros y. rewrite IH2. apply (py_in_In eq_dec) in E.
      split; [tauto|]. intros [H|[<-|H]]; auto.
    + destruct (IH (l ++ [x])) as [IH1 IH2]. split.
      * intros Hnd. apply IH1. apply NoDup_snoc; [exact Hnd|].
        apply (py_in_not_In eq_dec). exact E.
      * intros y. rewrite IH2, in_app_iff. simpl. tauto.
Qed.

Lemma fold_variation_add_attribute (xs : list Attribute.t) :
  forall v,
    fold_left StructuralVariation.add_attribute xs v
    = StructuralVariation.mk
        (StructuralVariation.variation_id v)
        (fold_left (fun l x => if py_in Attribute.eq_dec x l then l
                               else l ++ [x])
                   xs (StructuralVariation.attributes v))
        (StructuralVariation.relationships v)
        (StructuralVariation.count v)
        (StructuralVariation.first_timestamp v)
        (StructuralVariation.last_timestamp v).
Proof.
  induction xs as [|x r IH]; intros v; simpl.
  - destruct v; reflexivity.
  - rewrite IH. unfold StructuralVariation.add_attribute.
    destruct (py_in Attribute.eq_dec x (StructuralVariation.attributes v));
      reflexivity.
Qed.

Lemma fold_variation_add_relationship (xs : list Relationship.t) :
  forall v,
    fold_left StructuralVariation.add_relationship xs v
    = StructuralVariation.mk
        (StructuralVariation.variation_id v)
        (StructuralVariation.attributes v)
        (fold_left (fun l x => if py_in Relationship.eq_dec x l then l
                               else l ++ [x])
                   xs (StructuralVariation.relationships v))
        (StructuralVariation.count v)
        (StructuralVariation.first_timestamp v)
        (StructuralVariation.last_timestamp v).
Proof.
  induction xs as [|x r IH]; intros v; simpl.
  - destruct v; reflexivity.
  - rewrite IH. unfold StructuralVariation.add_relationship.
    destruct (py_in Relationship.eq_dec x
                    (StructuralVariation.relationships v));
      reflexivity.
Qed.

(** X13. A structural variation holds its attributes and relationships as
    sets: after any sequence of [add_attribute] and [add_relationship]
    calls the variation holds exactly the elements it held before and the
    added ones, and a list without repeated (equal) elements stays without
    repetition, however often an element is added. *)
Theorem X13_variation_members_distinct :
  forall (v : StructuralVariation.t) (attrs : list Attribute.t)
         (rels : list Relationship.t),
    let v' := fold_left StructuralVariation.add_relationship rels
                (fold_left StructuralVariation.add_attribute attrs v) in
    (NoDup (StructuralVariation.attributes v) ->
     NoDup (StructuralVariation.attributes v')) /\
    (NoDup (StructuralVariation.relationships v) ->
     NoDup (StructuralVariation.relationships v')) /\
    (forall a, In a (StructuralVariation.attributes v') <->
               In a (StructuralVariation.attributes v) \/ In a attrs) /\
    (forall r, In r (StructuralVariation.relationships v') <->
               In r (StructuralVariation.relationships v) \/ In r rels) /\
    StructuralVariation.variation_id v' = StructuralVariation.variation_id v /\
    StructuralVariation.count v' = StructuralVariation.count v.
Proof.
  intros v attrs rels. cbv zeta.
  rewrite fold_variation_add_relationship, fold_variation_add_attribute.
  cbn.
  destruct (fold_set_insert Attribute.eq_dec attrs
              (StructuralVariation.attributes v)) as [A1 A2].
  destruct (fold_set_insert Relationship.eq_dec rels
              (StructuralVariation.relationships v)) as [R1 R2].
  split; [exact A1|]. split; [exact R1|].
  split; [exact A2|]. split; [exact R2|]. split; reflexivity.
Qed.

(** ** Reading single elements back *)

(** X14. Reading the dictionary of a data type back with [_create_dtype]
    gives the data type again, nested containers included, except that a
    length, precision or scale of 0 is not written by [to_dict] and comes
    back as [None]; a primitive data type whose parameters are absent or
    non-zero comes back unchanged. *)
Theorem X14_data_type_round_trip :
  forall t : DataType,
    Database._create_dtype (DataType_to_dict t)
      = Some (Some (reload_dtype t)) /\
    reload_dtype (reload_dtype t) = reload_dtype t /\
    (forall pt ml pr sc,
        t = PrimitiveDataType pt ml pr sc ->
        reload_dtype t
        = PrimitiveDataType pt
            (if truthy_int ml then ml else None)
            (if truthy_int pr then pr else None)
            (if truthy_int sc then sc else None)).
Proof.
  intros t. split; [apply create_dtype_to_dict|]. split.
  - induction t as [pt ml pr sc | el IH | el IH | kt IHk vt IHv]; simpl.
    + rewrite !reload_int_idem. reflexivity.
    + rewrite IH. reflexivity.
    + rewrite IH. reflexivity.
    + rewrite IHk, IHv. reflexivity.
  - intros pt ml pr sc ->. reflexivity.
Qed.

(** X15. Reading the dictionary of an attribute or of a relationship back
    gives the element with the identifier that was written (the fresh
    identifier that the constructor draws is overwritten), the same name,
    flags, cardinality and target name; a description that is the empty
    string comes back as [None], and a target that was an entity object
    comes back as its name.  An attribute with a description other than
    the empty string, or none, and a data type that reads back unchanged
    is read back unchanged. *)
Theorem X15_attribute_relationship_round_trip :
  forall (uid : nat -> string) (a : Attribute.t) (r : Relationship.t)
         (n : nat),
    Database._create_attr uid (Attribute.to_dict a) n
      = Some (Some (reload_attr a), S n) /\
    (exists n',
        Database._create_rel uid (Relationship.to_dict r) n
        = Some (Some (reload_rel r), n')) /\
    (Attribute.description a <> Some "" ->
     reload_dtype (Attribute.data_type a) = Attribute.data_type a ->
     reload_attr a = a) /\
    Relationship.meta_id (reload_rel r) = Relationship.meta_id r /\
    Relationship.rel_name (reload_rel r) = Relationship.rel_name r /\
    Relationship.cardinality (reload_rel r) = Relationship.cardinality r /\
    Relationship.is_optional (reload_rel r) = Relationship.is_optional r /\
    Relationship.is_Reference (reload_rel r) = Relationship.is_Reference r /\
    Relationship.get_target_entity_name (reload_rel r)
      = Relationship.get_target_entity_name r.
Proof.
  intros uid a r n.
  split; [apply create_attr_to_dict|].
  split; [apply create_rel_to_dict|].
  split.
  { intros Hd Ht. destruct a as [nm dt k o d m]. unfold reload_attr.
    cbn in *. rewrite Ht. f_equal.
    unfold reload_str, truthy_str. destruct d as [s|]; [|reflexivity].
    destruct (String.eqb_spec s ""); [subst; congruence | reflexivity]. }
  destruct r; cbn; repeat split; reflexivity.
Qed.

(** X16. [_create_rel] reads the legacy spelling of an aggregate (kind
    ["embedded"] with the fields ["em_name"] and ["embeds"]) as the
    aggregate that it reads from the dictionary [to_dict] writes today:
    the two dictionaries give the same relationship. *)
Theorem X16_legacy_embedded_kind :
  forall (uid : nat -> string) (nm tgt m : string) (c : Cardinality)
         (opt : bool) (n : nat),
    let legacy :=
      JDict [("kind", JStr "embedded"); ("meta_id", JStr m);
             ("em_name", JStr nm); ("embeds", JStr tgt);
             ("cardinality", JStr (Cardinality_value c));
             ("is_optional", JBool opt)] in
    let r := Relationship.Aggregate c opt None m nm (ByName tgt) in
    Database._create_rel uid legacy n = Some (Some r, S n) /\
    Database._create_rel uid (Relationship.to_dict r) n = Some (Some r, S n).
Proof.
  intros uid nm tgt m c opt n. cbv zeta.
  split.
  - unfold Database._create_rel. dict_eval.
    rewrite from_symbol_value. reflexivity.
  - unfold Database._create_rel, Relationship.to_dict, set_if_str.
    cbn [truthy_str]. dict_eval.
    rewrite from_symbol_value. reflexivity.
Qed.

(** ** Values that the reader does not recognise *)

(** X17. A data type that [_create_dtype] does not recognise is read as
    [STRING]: a dictionary whose ["kind"] is a string other than
    ["primitive"], ["list"], ["set"] and ["map"] gives no data type and
    [_create_attr] then builds the attribute with the plain [STRING] type,
    and a primitive dictionary whose ["type"] is not the value of a
    primitive kind gives the [STRING] type with the parameters it
    carries. *)
Theorem X17_unknown_data_type_is_string :
  forall (uid : nat -> string) (nm k s : string) (dt : PyDict.t json)
         (n : nat),
    PyDict.get dt "kind" = Some (JStr k) ->
    k <> "primitive" -> k <> "list" -> k <> "set" -> k <> "map" ->
    enum_of_value PrimitiveType_value all_PrimitiveType s = None ->
    Database._create_dtype (JDict dt) = Some None /\
    Database._create_attr uid
      (JDict [("kind", JStr "attribute"); ("attr_name", JStr nm);
              ("data_type", JDict dt)]) n
    = Some (Some (Attribute.mk nm (PrimitiveDataType STRING None None None)
                               false true None (uid n)), S n) /\
    (forall ml,
        Database._create_dtype
          (JDict [("kind", JStr "primitive"); ("type", JStr s);
                  ("max_length", json_of_opt_int ml)])
        = Some (Some (PrimitiveDataType STRING ml None None))).
Proof.
  intros uid nm k s dt n Hk H1 H2 H3 H4 Hs.
  assert (E : Database._create_dtype (JDict dt) = Some None).
  { cbn [Database._create_dtype]. unfold PyDict.get_default. rewrite Hk.
    cbn [json_is].
    rewrite (proj2 (String.eqb_neq _ _) H1), (proj2 (String.eqb_neq _ _) H2),
      (proj2 (String.eqb_neq _ _) H3), (proj2 (String.eqb_neq _ _) H4).
    reflexivity. }
  split; [exact E|]. split.
  - unfold Database._create_attr.
    cbn [PyDict.get PyDict.get_default String.eqb Ascii.eqb Bool.eqb
         json_is negb].
    unfold bind at 1. unfold lift at 1. rewrite E. cbv beta iota.
    dict_eval. reflexivity.
  - intros ml. cbn [Database._create_dtype].
    cbn [PyDict.get PyDict.get_default String.eqb Ascii.eqb Bool.eqb
         json_is enum_of_json].
    rewrite Hs. destruct ml; reflexivity.
Qed.

Lemma X17_unknown_data_type_is_string_witness :
  Database._create_attr (fun _ => "fresh")
    (JDict [("kind", JStr "attribute"); ("attr_name", JStr "location");
            ("data_type", JDict [("kind", JStr "geometry")])]) 0
  = Some (Some (Attribute.mk "location"
                  (PrimitiveDataType STRING None None None)
                  false true None "fresh"), 1%nat).
Proof.
  apply (X17_unknown_data_type_is_string (fun _ => "fresh") "location"
           "geometry" "varchar" [("kind", JStr "geometry")] 0);
    first [reflexivity | discriminate].
Defined.

(** X18. An unknown paradigm is an error and an unknown entity kind is
    not: [from_dict] raises on a dictionary whose ["db_type"] is a string
    that is not the value of a paradigm, whatever else the dictionary
    holds, while [_create_entity] reads an entity whose ["entity_kind"] is
    not the value of an entity kind as a [TABLE]. *)
Theorem X18_unknown_db_type_rejected :
  forall (uid : nat -> string) (d : PyDict.t json) (s nm k : string)
         (n : nat),
    PyDict.get d "db_type" = Some (JStr s) ->
    enum_of_value DatabaseType_value all_DatabaseType s = None ->
    enum_of_value EntityKind_value all_EntityKind k = None ->
    Database.from_dict uid (JDict d) n = None /\
    Database._create_entity uid
      (JDict [("en_name", JStr nm); ("entity_kind", JStr k)]) n
    = Some (Some (EntityType.mk nm TABLE true [] [] [] [] None (uid n)),
            S n).
Proof.
  intros uid d s nm k n Hd Hs Hk. split.
  - unfold Database.from_dict. unfold bind at 1.
    destruct (lift (as_str (PyDict.get_default d "db_name" (JStr "unknown")))
                   n) as [[x n1]|] eqn:E1; [|reflexivity].
    apply lift_inv in E1. destruct E1 as [_ ->].
    unfold bind at 1. unfold lift at 1.
    unfold PyDict.get_default. rewrite Hd. cbn [as_str obind].
    rewrite Hs. reflexivity.
  - unfold Database._create_entity.
    cbn [PyDict.get PyDict.get_default String.eqb Ascii.eqb Bool.eqb
         enum_of_json].
    rewrite Hk. reflexivity.
Qed.

Lemma X18_unknown_db_type_rejected_witness :
  Database.from_dict (fun _ => "fresh")
    (JDict [("db_name", JStr "shop"); ("db_type", JStr "key-value")]) 0
  = None /\
  Database._create_entity (fun _ => "fresh")
    (JDict [("en_name", JStr "person"); ("entity_kind", JStr "collection")]) 0
  = Some (Some (EntityType.mk "person" TABLE true [] [] [] [] None "fresh"),
          1%nat).
Proof.
  apply (X18_unknown_db_type_rejected (fun _ => "fresh")
           [("db_name", JStr "shop"); ("db_type", JStr "key-value")]
           "key-value" "person" "collection" 0); reflexivity.
Defined.

(** ** The dependency sets and the order of an ordered database *)

Lemma set_add_NoDup (x : string) (s : list string) :
  NoDup s -> NoDup (set_add x s).
Proof.
  unfold set_add. destruct (set_mem x s) eqn:E; [auto|].
  intros H. apply NoDup_snoc; [exact H | apply set_mem_false; exact E].
Qed.

(** X20. The dependency set that [_sort_entities_by_dependency] builds for
    an entity holds exactly the target names of its [Reference]s to other
    entities, each name once: a reference of the entity to itself is left
    out, and aggregates contribute nothing, so an entity without
    references has no dependencies. *)
Theorem X20_entity_deps_reference_targets :
  forall e : EntityType.t,
    NoDup (PostgreSQLAdapter.entity_deps e) /\
    (forall d, In d (PostgreSQLAdapter.entity_deps e)
               <-> holds_reference e d) /\
    ~ In (EntityType.en_name e) (PostgreSQLAdapter.entity_deps e) /\
    (EntityType.get_references e = [] ->
     PostgreSQLAdapter.entity_deps e = []).
Proof.
  intros e.
  assert (Hin : forall d, In d (PostgreSQLAdapter.entity_deps e)
                          <-> holds_reference e d)
    by (intros d; apply entity_deps_In).
  split.
  { unfold PostgreSQLAdapter.entity_deps.
    assert (G : forall rels acc, NoDup acc ->
      NoDup (fold_left
               (fun deps rel =>
                  if Relationship.is_Reference rel then
                    let target := Relationship.get_target_entity_name rel in
                    if negb (String.eqb target (EntityType.name e))
                    then set_add target deps else deps
                  else deps) rels acc)).
    { induction rels as [|r rs IH]; intros acc Hacc; simpl; [exact Hacc|].
      apply IH. destruct (Relationship.is_Reference r); [|exact Hacc].
      destruct (negb _); [apply set_add_NoDup|]; exact Hacc. }
    apply G. constructor. }
  split; [exact Hin|].
  split.
  { intros H. apply Hin in H. destruct H as (rel & _ & _ & _ & Hne).
    apply Hne. reflexivity. }
  intros Hrefs.
  destruct (PostgreSQLAdapter.entity_deps e) as [|d ds] eqn:E;
    [reflexivity|].
  exfalso.
  destruct (proj1 (Hin d) (or_introl eq_refl)) as (rel & Hrel & Hr & _).
  assert (Hf : In rel (EntityType.get_references e)).
  { unfold EntityType.get_references. apply filter_In. auto. }
  rewrite Hrefs in Hf. exact Hf.
Qed.

Lemma visit_deps_all_visited
    (rec : string -> PostgreSQLAdapter.dfs_state
           -> option PostgreSQLAdapter.dfs_state)
    (D : PyDict.t (list string)) :
  (forall dep st, In dep (PostgreSQLAdapter.visited st) ->
                  rec dep st = Some st) ->
  forall deps st,
    (forall dep, In dep deps -> In dep (PyDict.keys D) ->
                 In dep (PostgreSQLAdapter.visited st)) ->
    PostgreSQLAdapter.visit_deps rec D deps st = Some st.
Proof.
  intros Hrec.
  induction deps as [|dep rest IH]; intros st H; simpl; [reflexivity|].
  destruct (PyDict.mem D dep) eqn:M.
  - rewrite Hrec.
    + apply IH. intros x Hx. apply H. right. exact Hx.
    + apply H; [left; reflexivity|]. apply PyDict_mem_keys. exact M.
  - apply IH. intros x Hx. apply H. right. exact Hx.
Qed.

Lemma visit_all_ordered (set_iter : list string -> list string)
    (D : PyDict.t (list string)) (f : nat)
    (es : list (string * EntityType.t)) :
  (forall l x, In x (set_iter l) <-> In x l) ->
  forall pre vis,
    (forall name e, In (name, e) es ->
       PyDict.get_default D name [] = PostgreSQLAdapter.entity_deps e) ->
    (forall x, In x vis <-> In x pre) ->
    NoDup (pre ++ map fst es) ->
    dependency_ordered pre es (PyDict.keys D) ->
    exists vis',
      PostgreSQLAdapter.visit_all set_iter (S (S f)) D (map fst es)
        (PostgreSQLAdapter.mk_state pre vis)
      = Some (PostgreSQLAdapter.mk_state (pre ++ map fst es) vis').
Proof.
  intros Hiter.
  induction es as [|[name e] rest IH]; intros pre vis Hget Hvis Hnd Hord.
  - exists vis. simpl. rewrite app_nil_r. reflexivity.
  - destruct Hord as [Hdeps Hord].
    cbn [map fst PostgreSQLAdapter.visit_all].
    rewrite visit_unfold. cbn [PostgreSQLAdapter.visited
                                PostgreSQLAdapter.sorted_names].
    assert (Hfresh : ~ In name pre).
    { intros Hin. cbn [map fst] in Hnd.
      apply NoDup_remove_2 in Hnd. apply Hnd. apply in_or_app. auto. }
    replace (set_mem name vis) with false
      by (symmetry; apply set_mem_false; rewrite Hvis; exact Hfresh).
    rewrite (Hget name e (or_introl eq_refl)).
    rewrite visit_deps_all_visited.
    + cbn [PostgreSQLAdapter.visited PostgreSQLAdapter.sorted_names].
      destruct (IH (pre ++ [name]) (set_add name vis)) as [vis' E].
      * intros n0 e0 H0. apply Hget. right. exact H0.
      * intros x. rewrite set_add_In, in_app_iff, Hvis. simpl.
        split; [intros [->|H]; auto | intros [H|[->|[]]]; auto].
      * rewrite <- app_assoc. exact Hnd.
      * exact Hord.
      * exists vis'. rewrite E. rewrite <- app_assoc. reflexivity.
    + intros dep st Hin. rewrite visit_unfold.
      replace (set_mem dep (PostgreSQLAdapter.visited st)) with true;
        [reflexivity|].
      symmetry. apply set_mem_In. exact Hin.
    + intros dep Hdep Hk. cbn [PostgreSQLAdapter.visited].
      apply set_add_In. right. apply Hvis. apply Hdeps; [|exact Hk].
      apply entity_deps_In. apply Hiter. exact Hdep.
Qed.

Lemma no_references_ordered (es : list (string * EntityType.t))
    (seen all : list string) :
  (forall e, In e (PyDict.values es) -> EntityType.get_references e = []) ->
  dependency_ordered seen es all.
Proof.
  revert seen. induction es as [|[name e] rest IH]; intros seen H;
    cbn [dependency_ordered]; [exact I|].
  split.
  - intros d (rel & Hrel & Hr & _) _. exfalso.
    assert (Hf : In rel (EntityType.get_references e)).
    { unfold EntityType.get_references. apply filter_In. auto. }
    rewrite (H e) in Hf; [exact Hf | left; reflexivity].
  - apply IH. intros e0 He0. apply H. right. exact He0.
Qed.

(** X21. [_sort_entities_by_dependency] leaves an ordered database in its
    order: when the entities are filed under their own unique names and
    every reference to another entity of the database points to an entity
    filed earlier, the result is the list of the entities in the order of
    the map, whatever the iteration order of the sets.  In particular a
    database without references between entities is exported in the order
    in which its entities were added. *)
Theorem X21_sort_keeps_ordered_database :
  forall (set_iter : list string -> list string) (database : Database.t),
    (forall l x, In x (set_iter l) <-> In x l) ->
    Database.names_unique database ->
    (dependency_ordered [] (Database.entity_types database)
                        (PyDict.keys (Database.entity_types database)) ->
     PostgreSQLAdapter._sort_entities_by_dependency set_iter database
     = Some (PyDict.values (Database.entity_types database))) /\
    ((forall e, In e (PyDict.values (Database.entity_types database)) ->
                EntityType.get_references e = []) ->
     PostgreSQLAdapter._sort_entities_by_dependency set_iter database
     = Some (PyDict.values (Database.entity_types database))).
Proof.
  intros set_iter database Hiter Hu.
  assert (Main :
    dependency_ordered [] (Database.entity_types database)
                       (PyDict.keys (Database.entity_types database)) ->
    PostgreSQLAdapter._sort_entities_by_dependency set_iter database
    = Some (PyDict.values (Database.entity_types database))).
  2: { split; [exact Main|]. intros Hnone. apply Main.
       apply no_references_ordered. exact Hnone. }
  intros Hord.
  unfold PostgreSQLAdapter._sort_entities_by_dependency,
    PostgreSQLAdapter.sort_with_fuel.
  pose proof (dependencies_keys database Hu) as Hk.
  rewrite Hk.
  destruct (Database.entity_types database) as [|kv rest] eqn:Eet.
  { reflexivity. }
  rewrite <- Eet in *.
  replace (length (Database.entity_types database))
    with (S (length rest)) by (rewrite Eet; reflexivity).
  destruct (visit_all_ordered set_iter
              (PostgreSQLAdapter.build_dependencies
                 (PyDict.values (Database.entity_types database)))
              (length rest) (Database.entity_types database) Hiter [] [])
    as [vis' E].
  - intros name e Hin. unfold PyDict.get_default.
    destruct Hu as [Hwf Hall].
    assert (Hn : name = EntityType.en_name e).
    { rewrite Forall_forall in Hall. apply (Hall (name, e) Hin). }
    subst name. unfold PostgreSQLAdapter.build_dependencies.
    rewrite build_get_unique; [reflexivity | |].
    + rewrite names_unique_keys by (split; assumption). exact Hwf.
    + unfold PyDict.values. change e with (snd (EntityType.en_name e, e)).
      apply in_map. exact Hin.
  - intros x. tauto.
  - simpl. apply Hu.
  - rewrite Hk. exact Hord.
  - unfold PyDict.keys in *. rewrite E.
    cbn [PostgreSQLAdapter.sorted_names app].
    f_equal. apply entities_of_keys. apply Hu.
Qed.

Lemma X21_sort_keeps_ordered_database_witness :
  PostgreSQLAdapter._sort_entities_by_dependency (fun l => l)
    Samples.db_ordered
  = Some [Samples.customer; Samples.orders].
Proof.
  apply (fun H1 H2 =>
           proj1 (X21_sort_keeps_ordered_database
                    (fun l => l) Samples.db_ordered H1 H2)).
  - intros l x. split; intros H; exact H.
  - split.
    + cbv. constructor.
      * intros [H|[]]. discriminate H.
      * constructor; [intros [] | constructor].
    + constructor; [reflexivity|]. constructor; [reflexivity|]. constructor.
  - cbn [dependency_ordered Samples.db_ordered Database.entity_types app].
    split.
    + intros d (rel & [] & _).
    + split; [|exact I].
      intros d (rel & Hrel & _ & Ht & _) _.
      destruct Hrel as [<-|[]]. cbn in Ht. left. exact Ht.
Defined.

(** ** The round trip on databases in normal form *)

Lemma PyDict_get_map_snd {A B} (f : A -> B) (l : PyDict.t A) k :
  PyDict.get (map (fun ne => (fst ne, f (snd ne))) l) k
  = option_map f (PyDict.get l k).
Proof.
  induction l as [|[k' v] r IH]; simpl; [reflexivity|].
  destruct (String.eqb k' k); [reflexivity | exact IH].
Qed.

(** X19. [from_dict] rebuilds a database from its dictionary without
    help from the identifier generator: whatever identifiers [uuid4]
    would hand out, reading [d.to_dict()] gives the same database, with
    the identifier of [d], the entity names of [d] in their order, and
    under each name the entity of [d] read back.  A database in normal
    form (one that this reading leaves unchanged: no empty description, no
    zero type parameter, targets held by name, key members that are the
    attributes of the entity) is returned as it is:
    [from_dict(d.to_dict()) == d]. *)
Theorem X19_from_dict_restores_database :
  forall (uid uid' : nat -> string) (d : Database.t) (n m : nat),
    serializable d ->
    exists n' m',
      Database.from_dict uid (Database.to_dict d) n
        = Some (reload_db d, n') /\
      Database.from_dict uid' (Database.to_dict d) m
        = Some (reload_db d, m') /\
      Database.meta_id (reload_db d) = Database.meta_id d /\
      PyDict.keys (Database.entity_types (reload_db d))
        = PyDict.keys (Database.entity_types d) /\
      (forall name e,
          Database.get_entity_type d name = Some e ->
          Database.get_entity_type (reload_db d) name
            = Some (reload_entity e) /\
          EntityType.meta_id (reload_entity e) = EntityType.meta_id e /\
          map Attribute.meta_id (EntityType.attributes (reload_entity e))
            = map Attribute.meta_id (EntityType.attributes e)) /\
      (reload_db d = d ->
       Database.from_dict uid (Database.to_dict d) n = Some (d, n')).
Proof.
  intros uid uid' d n m Hs.
  destruct (from_dict_to_dict uid d n Hs) as [n' E1].
  destruct (from_dict_to_dict uid' d m Hs) as [m' E2].
  exists n', m'.
  split; [exact E1|]. split; [exact E2|]. split; [reflexivity|].
  split.
  { unfold reload_db. cbn [Database.entity_types]. unfold PyDict.keys.
    apply keys_map_snd. }
  split.
  { intros name e He. unfold Database.get_entity_type in *.
    unfold reload_db. cbn [Database.entity_types].
    rewrite PyDict_get_map_snd, He.
    split; [reflexivity|]. split; [reflexivity|].
    unfold reload_entity. cbn [EntityType.attributes].
    rewrite map_map. reflexivity. }
  intros Hnf. rewrite E1, Hnf. reflexivity.
Qed.

Lemma X19_from_dict_restores_database_witness :
  exists n',
    Database.from_dict (fun _ => "fresh")
      (Database.to_dict Samples.db_forward) 0
    = Some (Samples.db_forward, n').
Proof.
  destruct (X19_from_dict_restores_database
              (fun _ => "fresh") (fun _ => "other") Samples.db_forward 0 0
              db_forward_serializable)
    as (n' & m' & _ & _ & _ & _ & _ & H).
  exists n'. apply H. reflexivity.
Defined.

(** ** Splitting the body of a table into columns *)

Lemma string_app_assoc (a b c : string) :
  ((a ++ b) ++ c = a ++ (b ++ c))%string.
Proof. induction a as [|x a IH]; simpl; [reflexivity | now rewrite IH]. Qed.

Lemma split_loop_no_split (strip : string -> string) (s : string) :
  forall rest result current d d',
    depth_after s d = Some d' ->
    PostgreSQLAdapter.split_loop strip (s ++ rest)%string result current d
    = PostgreSQLAdapter.split_loop strip rest result (current ++ s)%string d'.
Proof.
  induction s as [|c s IH]; intros rest result current d d' H;
    cbn [append depth_after PostgreSQLAdapter.split_loop] in *.
  - injection H as <-.
    replace (current ++ "")%string with current; [reflexivity|].
    clear. induction current as [|x r IHr]; simpl; [reflexivity|].
    now rewrite <- IHr.
  - replace (current ++ String c s)%string
      with ((current ++ String c "") ++ s)%string
      by (rewrite string_app_assoc; reflexivity).
    destruct (Ascii.eqb c "("); [apply IH; exact H|].
    destruct (Ascii.eqb c ")"); [apply IH; exact H|].
    destruct (Ascii.eqb c "," && Z.eqb d 0); [discriminate H|].
    apply IH; exact H.
Qed.

Lemma split_loop_result_prefix (strip : string -> string) (body : string) :
  forall r0 result current d,
    PostgreSQLAdapter.split_loop strip body (r0 ++ result) current d
    = (r0 ++ fst (PostgreSQLAdapter.split_loop strip body result current d),
       snd (PostgreSQLAdapter.split_loop strip body result current d)).
Proof.
  induction body as [|c s IH]; intros r0 result current d;
    cbn [PostgreSQLAdapter.split_loop].
  - reflexivity.
  - destruct (Ascii.eqb c "("); [apply IH|].
    destruct (Ascii.eqb c ")"); [apply IH|].
    destruct (Ascii.eqb c "," && Z.eqb d 0); [|apply IH].
    rewrite <- app_assoc. apply IH.
Qed.

(** X22. [_split_columns] splits the body of a table at the commas that
    stand outside parentheses, and only there.  A text without such a
    comma is one column, the whole text stripped, or no column when it
    strips to nothing; and a text that returns to depth 0 before a comma
    is the first column, followed by the columns of what comes after the
    comma. *)
Theorem X22_split_columns_at_top_level_commas :
  forall (strip : string -> string) (a b : string) (d : Z),
    (depth_after a 0 = Some d ->
     PostgreSQLAdapter._split_columns strip a
     = if String.eqb (strip a) "" then [] else [strip a]) /\
    (depth_after a 0 = Some 0%Z ->
     PostgreSQLAdapter._split_columns strip (a ++ "," ++ b)
     = strip a :: PostgreSQLAdapter._split_columns strip b).
Proof.
  intros strip a b d. unfold PostgreSQLAdapter._split_columns. split.
  - intros H.
    pose proof (split_loop_no_split strip a "" [] "" 0 d H) as E.
    replace (a ++ "")%string with a in E.
    + rewrite E. cbn [PostgreSQLAdapter.split_loop append].
      destruct (String.eqb (strip a) ""); reflexivity.
    + clear. induction a as [|x r IHr]; simpl; [reflexivity|].
      now rewrite <- IHr.
  - intros H.
    rewrite (split_loop_no_split strip a ("," ++ b) [] "" 0 0 H).
    cbn [append PostgreSQLAdapter.split_loop Ascii.eqb Bool.eqb andb
         Z.eqb app].
    pose proof (split_loop_result_prefix strip b [strip a] [] "" 0) as E.
    cbn [app] in E. rewrite E. clear E.
    destruct (PostgreSQLAdapter.split_loop strip b [] "" 0) as [r c].
    cbn [fst snd app].
    destruct (negb (String.eqb (strip c) "")); reflexivity.
Qed.

Lemma X22_split_columns_at_top_level_commas_witness :
  PostgreSQLAdapter._split_columns Samples.run_strip
    "id INT, price DECIMAL(15,2), name VARCHAR(100)"
  = ["id INT"; "price DECIMAL(15,2)"; "name VARCHAR(100)"].
Proof.
  change (PostgreSQLAdapter._split_columns Samples.run_strip
            ("id INT" ++ "," ++ " price DECIMAL(15,2), name VARCHAR(100)")%string
          = ["id INT"; "price DECIMAL(15,2)"; "name VARCHAR(100)"]).
  rewrite (proj2 (X22_split_columns_at_top_level_commas Samples.run_strip
                    "id INT" " price DECIMAL(15,2), name VARCHAR(100)" 0)
                 eq_refl).
  reflexivity.
Defined.

(** ** What the import of DDL builds *)

Section ImportedSchema.

Import PostgreSQLAdapter.

Variable uid : nat -> string.
Variable lower upper strip : string -> string.
Variable startswith : string -> string -> bool.
Variable contains : string -> string -> bool.
Variable normalize_whitespace : string -> string.
Variable split_commas : string -> list string.
Variable py_int : string -> option Z.
Variable sub_line_comments : string -> string.
Variable sub_block_comments : string -> string.
Variable findall_create_table : string -> list (string * string).
Variable match_column
  : string -> option (string * string * option string * option string).
Variable search_references : string -> option (string * string).
Variable TYPE_MAP : PyDict.t PrimitiveType.

Local Abbreviation parse_data_type :=
  (_parse_data_type strip split_commas py_int TYPE_MAP).
Local Abbreviation parse_column :=
  (_parse_column uid lower upper strip contains normalize_whitespace
                 split_commas py_int match_column search_references
                 TYPE_MAP).
Local Abbreviation table_column :=
  (parse_table_column uid lower upper strip startswith contains
                      normalize_whitespace split_commas py_int match_column
                      search_references TYPE_MAP).
Local Abbreviation parse_table :=
  (_parse_table uid lower upper strip startswith contains
                normalize_whitespace split_commas py_int match_column
                search_references TYPE_MAP).
Local Abbreviation tables_loop :=
  (parse_tables uid lower upper strip startswith contains
                normalize_whitespace split_commas py_int match_column
                search_references TYPE_MAP).
Local Abbreviation parse_ddl :=
  (parse uid lower upper strip startswith contains normalize_whitespace
         split_commas py_int sub_line_comments sub_block_comments
         findall_create_table match_column search_references TYPE_MAP).

Lemma parse_data_type_primitive (type_name : string)
    (params : option string) (t : DataType) :
  parse_data_type type_name params = Some t ->
  exists ml pr sc,
    t = PrimitiveDataType (PyDict.get_default TYPE_MAP type_name STRING)
                          ml pr sc /\
    (ml <> None ->
     PyDict.get_default TYPE_MAP type_name STRING = STRING \/
     PyDict.get_default TYPE_MAP type_name STRING = TEXT) /\
    (pr <> None \/ sc <> None ->
     PyDict.get_default TYPE_MAP type_name STRING = DECIMAL /\ ml = None).
Proof.
  unfold _parse_data_type.
  remember (PyDict.get_default TYPE_MAP type_name STRING) as primitive.
  assert (Plain : forall t0,
            Some (PrimitiveDataType primitive None None None) = Some t0 ->
            exists ml pr sc,
              t0 = PrimitiveDataType primitive ml pr sc /\
              (ml <> None -> primitive = STRING \/ primitive = TEXT) /\
              (pr <> None \/ sc <> None -> primitive = DECIMAL /\ ml = None)).
  { intros t0 [= <-]. exists None, None, None.
    split; [reflexivity|].
    split; [intros Hc | intros [Hc|Hc]]; congruence. }
  destruct params as [ps|]; [|apply Plain].
  destruct (nonempty ps); [|apply Plain].
  destruct (PrimitiveType_beq primitive STRING
            || PrimitiveType_beq primitive TEXT) eqn:E1.
  - assert (Hp : primitive = STRING \/ primitive = TEXT).
    { clear - E1. destruct primitive; try discriminate; auto. }
    destruct (map strip (split_commas ps)) as [|p0 rest]; [apply Plain|].
    unfold obind. destruct (py_int p0) as [z|]; [|discriminate].
    intros [= <-]. exists (Some z), None, None.
    split; [reflexivity|].
    split; [auto | intros [Hc|Hc]; congruence].
  - destruct (PrimitiveType_beq primitive DECIMAL) eqn:E2; [|apply Plain].
    assert (Hp : primitive = DECIMAL).
    { clear - E2. destruct primitive; try discriminate; auto. }
    destruct (map strip (split_commas ps)) as [|p0 rest].
    + intros [= <-]. exists None, None, (Some 0%Z).
      split; [reflexivity|]. split; [congruence | auto].
    + unfold obind. destruct (py_int p0) as [z|]; [|discriminate].
      destruct (match rest with
                | [] => Some 0%Z
                | p1 :: _ => py_int p1
                end) as [z'|]; [|discriminate].
      intros [= <-]. exists None, (Some z), (Some z').
      split; [reflexivity|]. split; [congruence | auto].
Qed.

(** X23. [_parse_data_type] gives, whenever it returns, a primitive data
    type of the kind that the type table holds for the type name, and of
    kind [STRING] for a name that the table does not hold.  Without parameters the type
    carries none; a length is only ever set on a [STRING] or [TEXT] type,
    a precision or scale only on a [DECIMAL] type.  The call raises
    exactly when [int] rejects a parameter that it is given: the first
    parameter of a [STRING], [TEXT] or [DECIMAL] type, or the second
    parameter of a [DECIMAL] type; it returns in every other case, the
    parameters of any other type being ignored. *)
Theorem X23_parse_data_type_shape :
  forall (type_name : string) (params : option string),
    (params = None \/ params = Some "" ->
     parse_data_type type_name params
     = Some (PrimitiveDataType
               (PyDict.get_default TYPE_MAP type_name STRING)
               None None None)) /\
    (forall t,
        parse_data_type type_name params = Some t ->
        exists ml pr sc,
          t = PrimitiveDataType
                (PyDict.get_default TYPE_MAP type_name STRING) ml pr sc /\
          (ml <> None ->
           PyDict.get_default TYPE_MAP type_name STRING = STRING \/
           PyDict.get_default TYPE_MAP type_name STRING = TEXT) /\
          (pr <> None \/ sc <> None ->
           PyDict.get_default TYPE_MAP type_name STRING = DECIMAL /\
           ml = None)) /\
    (parse_data_type type_name params = None <->
     exists ps p0 rest,
       params = Some ps /\ ps <> "" /\
       map strip (split_commas ps) = p0 :: rest /\
       (((PyDict.get_default TYPE_MAP type_name STRING = STRING \/
          PyDict.get_default TYPE_MAP type_name STRING = TEXT) /\
         py_int p0 = None) \/
        (PyDict.get_default TYPE_MAP type_name STRING = DECIMAL /\
         (py_int p0 = None \/
          exists p1 rest', rest = p1 :: rest' /\ py_int p1 = None)))).
Proof.
  intros type_name params.
  split; [intros [->| ->]; reflexivity|].
  split; [intros t; apply parse_data_type_primitive|].
  unfold _parse_data_type, nonempty. split.
  - destruct params as [ps|]; [|discriminate].
    destruct (String.eqb_spec ps "") as [|Hne]; cbn [negb]; [discriminate|].
    destruct (PrimitiveType_beq _ STRING || PrimitiveType_beq _ TEXT) eqn:E1.
    + destruct (map strip (split_commas ps)) as [|p0 rest] eqn:Em;
        [discriminate|].
      destruct (py_int p0) as [z|] eqn:Ep; cbn [obind]; [discriminate|].
      intros _. exists ps, p0, rest.
      split; [reflexivity|]. split; [exact Hne|]. split; [exact Em|].
      left. split; [|exact Ep].
      destruct (PyDict.get_default TYPE_MAP type_name STRING);
        try discriminate E1; auto.
    + destruct (PrimitiveType_beq _ DECIMAL) eqn:E2; [|discriminate].
      assert (Hd : PyDict.get_default TYPE_MAP type_name STRING = DECIMAL).
      { destruct (PyDict.get_default TYPE_MAP type_name STRING);
          try discriminate E2; reflexivity. }
      destruct (map strip (split_commas ps)) as [|p0 rest] eqn:Em;
        [discriminate|].
      destruct (py_int p0) as [z|] eqn:Ep; cbn [obind].
      * destruct rest as [|p1 rest']; [cbn [obind]; discriminate|].
        destruct (py_int p1) as [z'|] eqn:Ep1; cbn [obind]; [discriminate|].
        intros _. exists ps, p0, (p1 :: rest').
        split; [reflexivity|]. split; [exact Hne|]. split; [exact Em|].
        right. split; [exact Hd|]. right. exists p1, rest'. auto.
      * intros _. exists ps, p0, rest.
        split; [reflexivity|]. split; [exact Hne|]. split; [exact Em|].
        right. split; [exact Hd|]. left. exact Ep.
  - intros (ps & p0 & rest & -> & Hne & Em & Hcase).
    rewrite (proj2 (String.eqb_neq _ _) Hne). cbn [negb]. rewrite Em.
    destruct Hcase as [[Hp Hi]|[Hp Hi]].
    + destruct Hp as [Hp|Hp]; rewrite Hp; simpl; rewrite Hi; reflexivity.
    + rewrite Hp. simpl.
      destruct Hi as [Hi|(p1 & rest' & -> & Hi)]; [rewrite Hi; reflexivity|].
      destruct (py_int p0); simpl; [rewrite Hi; reflexivity | reflexivity].
Qed.

(** X24. The attribute that [_parse_column] builds for a column draws one
    fresh identifier, has no description and a primitive data type, and
    is not optional when it is a key member; the reference information,
    when there is any, names the column of that very attribute.  A
    definition that the column pattern does not match gives neither an
    attribute nor reference information and draws no identifier. *)
Theorem X24_parse_column_attribute :
  forall (col_def : string) (n : nat)
         (r : option Attribute.t * option (string * string)) (n' : nat),
    parse_column col_def n = Some (r, n') ->
    match r with
    | (Some attr, ref) =>
        n' = S n /\ Attribute.meta_id attr = uid n /\
        Attribute.description attr = None /\
        key_not_optional attr /\
        (exists pt ml pr sc,
            Attribute.data_type attr = PrimitiveDataType pt ml pr sc) /\
        (forall fk target, ref = Some (fk, target) ->
                           fk = Attribute.attr_name attr)
    | (None, ref) => ref = None /\ n' = n
    end.
Proof.
  intros col_def n r n'. unfold _parse_column.
  destruct (match_column _) as [[[[g1 g2] g3] g4]|].
  2: { intros H. injection H as <- <-. split; reflexivity. }
  unfold bind at 1.
  destruct (lift _ n) as [[dt n1]|] eqn:E; [|discriminate].
  apply lift_inv in E. destruct E as [Edt ->].
  unfold bind, ret. intros H. injection H as <- <-.
  split; [reflexivity|]. split; [reflexivity|]. split; [reflexivity|].
  split.
  { unfold key_not_optional. cbn. intros ->. apply andb_false_r. }
  split.
  { destruct (parse_data_type_primitive _ _ _ Edt)
      as (ml & pr & sc & -> & _).
    cbn. eauto. }
  intros fk target. cbn [Attribute.attr_name].
  destruct (search_references _) as [[t c]|]; [|discriminate].
  intros [= <- _]. reflexivity.
Qed.

(** The shape of the keys that the import builds: a [PRIMARY] key over
    one attribute of the entity. *)
Lemma table_column_inv st col_def n st' n' :
  table_column st col_def n = Some (st', n') ->
  EntityType.relationships (fst st) = [] /\
  Forall key_not_optional (EntityType.attributes (fst st)) /\
  Forall (fun k => Key.key_type k = PRIMARY /\
                   exists a, Key.key_attributes k = [a] /\
                             In a (EntityType.attributes (fst st)))
         (EntityType.keys (fst st)) ->
  EntityType.relationships (fst st') = [] /\
  Forall key_not_optional (EntityType.attributes (fst st')) /\
  Forall (fun k => Key.key_type k = PRIMARY /\
                   exists a, Key.key_attributes k = [a] /\
                             In a (EntityType.attributes (fst st')))
         (EntityType.keys (fst st')).
Proof.
  destruct st as [entity pending]. unfold parse_table_column.
  destruct (negb (nonempty (strip col_def))).
  { intros H. injection H as <- <-. auto. }
  destruct (existsb _ constraint_keywords).
  { intros H. injection H as <- <-. auto. }
  unfold bind at 1.
  destruct (parse_column (strip col_def) n) as [[r n1]|] eqn:Ec;
    [|discriminate].
  destruct r as [[attr|] ref_info].
  2: { intros H. injection H as <- <-. auto. }
  pose proof (parse_column_key_not_optional _ _ _ _ _ _ _ _ _ _ _ _ _ _
                _ _ Ec) as Hko.
  intros H. injection H as <- <-. cbn [fst snd].
  intros (Hr & Ha & Hk).
  assert (Hk' : Forall
            (fun k => Key.key_type k = PRIMARY /\
                      exists a, Key.key_attributes k = [a] /\
                                In a (EntityType.attributes entity ++ [attr]))
            (EntityType.keys entity)).
  { eapply Forall_impl; [|exact Hk].
    intros k (H1 & a & H2 & H3). split; [exact H1|].
    exists a. split; [exact H2|]. apply in_or_app. auto. }
  assert (Ha' : Forall key_not_optional (EntityType.attributes entity ++ [attr])).
  { apply Forall_app. split; [exact Ha|]. constructor; [exact Hko|constructor]. }
  destruct (contains "PRIMARY KEY" (upper (strip col_def))); cbn.
  - split; [exact Hr|]. split; [exact Ha'|].
    apply Forall_app. split; [exact Hk'|].
    constructor; [|constructor]. split; [reflexivity|].
    exists attr. split; [reflexivity|]. apply in_or_app. right. left.
    reflexivity.
  - split; [exact Hr|]. split; [exact Ha'|]. exact Hk'.
Qed.

Lemma parse_table_inv pending table_name table_body n entity pending' n' :
  parse_table pending table_name table_body n
    = Some ((entity, pending'), n') ->
  EntityType.relationships entity = [] /\
  Forall key_not_optional (EntityType.attributes entity) /\
  Forall (fun k => Key.key_type k = PRIMARY /\
                   exists a, Key.key_attributes k = [a] /\
                             In a (EntityType.attributes entity))
         (EntityType.keys entity) /\
  ((exists a, In a (EntityType.attributes entity) /\
              Attribute.is_key a = true) ->
   EntityType.get_primary_key entity <> None).
Proof.
  unfold _parse_table. unfold bind at 1. cbv beta iota.
  unfold bind at 1.
  destruct (for_each _ _ _ _) as [[[e1 p1] n1]|] eqn:E; [|discriminate].
  assert (Inv : EntityType.relationships e1 = [] /\
                Forall key_not_optional (EntityType.attributes e1) /\
                Forall (fun k => Key.key_type k = PRIMARY /\
                                 exists a, Key.key_attributes k = [a] /\
                                           In a (EntityType.attributes e1))
                       (EntityType.keys e1)).
  { apply (for_each_invariant
             (fun st : EntityType.t * list (string * string * string) =>
                EntityType.relationships (fst st) = [] /\
                Forall key_not_optional (EntityType.attributes (fst st)) /\
                Forall (fun k => Key.key_type k = PRIMARY /\
                                 exists a, Key.key_attributes k = [a] /\
                                   In a (EntityType.attributes (fst st)))
                       (EntityType.keys (fst st)))
             table_column table_column_inv _ _ _ _ _ E).
    cbn. auto. }
  destruct Inv as (Hr & Ha & Hk).
  intros H. unfold ret in H. injection H as <- <- _.
  destruct (EntityType.get_primary_key e1) as [pk|] eqn:Epk.
  { split; [exact Hr|]. split; [exact Ha|]. split; [exact Hk|].
    intros _. rewrite Epk. discriminate. }
  destruct (find Attribute.is_key (EntityType.attributes e1))
    as [attr|] eqn:Ef.
  - apply find_some in Ef as Hf. destruct Hf as [Hin Hkey].
    cbn. split; [exact Hr|]. split; [exact Ha|]. split.
    + apply Forall_app. split; [exact Hk|].
      constructor; [|constructor]. split; [reflexivity|].
      exists attr. auto.
    + intros _. unfold EntityType.get_primary_key in *. cbn.
      rewrite find_app, Epk. cbn. discriminate.
  - split; [exact Hr|]. split; [exact Ha|]. split; [exact Hk|].
    intros (a & Hin & Hkey). exfalso.
    rewrite find_none_Forall, Forall_forall in Ef.
    specialize (Ef a Hin). congruence.
Qed.

(** X25. The entity that [_parse_table] builds for a table carries the
    lower-cased table name and no relationship yet; each of its attributes
    that is a key member is not optional; each of its keys is a [PRIMARY]
    key over one attribute of the entity; and as soon as one attribute is
    a key member (an inline [PRIMARY KEY], or a [SERIAL] column without
    it) the entity has a primary key. *)
Theorem X25_parse_table_entity :
  forall (pending : list (string * string * string))
         (table_name table_body : string) (n : nat) (entity : EntityType.t)
         (pending' : list (string * string * string)) (n' : nat),
    parse_table pending table_name table_body n
      = Some ((entity, pending'), n') ->
    EntityType.en_name entity = lower table_name /\
    EntityType.relationships entity = [] /\
    Forall key_not_optional (EntityType.attributes entity) /\
    Forall (fun k => Key.key_type k = PRIMARY /\
                     exists a, Key.key_attributes k = [a] /\
                               In a (EntityType.attributes entity))
           (EntityType.keys entity) /\
    ((exists a, In a (EntityType.attributes entity) /\
                Attribute.is_key a = true) ->
     EntityType.get_primary_key entity <> None).
Proof.
  intros pending table_name table_body n entity pending' n' H.
  split.
  - apply parse_table_spec in H. apply H.
  - apply parse_table_inv in H. exact H.
Qed.

Lemma PyDict_get_Some_In {V} (d : PyDict.t V) k v :
  PyDict.get d k = Some v -> In (k, v) d.
Proof.
  induction d as [|[k' v'] r IH]; simpl; [discriminate|].
  destruct (String.eqb_spec k' k) as [->|Hne].
  - intros [= ->]. auto.
  - auto.
Qed.

Lemma PyDict_keys_set_In {V} (d : PyDict.t V) k v x :
  In x (PyDict.keys (PyDict.set d k v)) <-> In x (PyDict.keys d) \/ x = k.
Proof.
  rewrite PyDict_keys_set. destruct (PyDict.mem d k) eqn:M.
  - apply PyDict_mem_keys in M. split; [auto|].
    intros [H| ->]; assumption.
  - rewrite in_app_iff. simpl. split.
    + intros [H|[<-|[]]]; auto.
    + intros [H| ->]; auto.
Qed.

Lemma add_entity_type_names_unique (d : Database.t) (e : EntityType.t) :
  Database.names_unique d ->
  Database.names_unique (Database.add_entity_type d e).
Proof.
  intros [Hwf Hall]. split; cbn.
  - apply PyDict_wf_set. exact Hwf.
  - rewrite Forall_forall in *. intros kv Hkv.
    apply PyDict_In_set in Hkv. destruct Hkv as [-> | Hkv]; auto.
Qed.

Lemma set_relationships_app (e : EntityType.t) (l1 l2 : list Relationship.t) :
  EntityType.set_relationships
    (EntityType.set_relationships e (EntityType.relationships e ++ l1))
    (EntityType.relationships
       (EntityType.set_relationships e (EntityType.relationships e ++ l1))
     ++ l2)
  = EntityType.set_relationships e (EntityType.relationships e ++ l1 ++ l2).
Proof. destruct e; cbn. rewrite <- app_assoc. reflexivity. Qed.

Lemma resolve_step_frame db n ref db' n' :
  resolve_reference uid (db, n) ref = (db', n') ->
  Database.set_entity_types db (Database.entity_types db') = db' /\
  PyDict.keys (Database.entity_types db')
    = PyDict.keys (Database.entity_types db) /\
  (Database.names_unique db -> Database.names_unique db') /\
  (forall k, Database.get_entity_type db k = None ->
             Database.get_entity_type db' k = None) /\
  (forall k e,
      Database.get_entity_type db k = Some e ->
      exists new,
        Database.get_entity_type db' k
          = Some (EntityType.set_relationships
                    e (EntityType.relationships e ++ new)) /\
        Forall (fun r => exists fk target,
                    ref = (k, fk, target) /\
                    PyDict.mem (Database.entity_types db) target = true /\
                    resolved_reference e fk target r) new).
Proof.
  destruct ref as [[s f] t]. unfold resolve_reference.
  assert (Same : (db, n) = (db', n') ->
    Database.set_entity_types db (Database.entity_types db') = db' /\
    PyDict.keys (Database.entity_types db')
      = PyDict.keys (Database.entity_types db) /\
    (Database.names_unique db -> Database.names_unique db') /\
    (forall k, Database.get_entity_type db k = None ->
               Database.get_entity_type db' k = None) /\
    (forall k e,
        Database.get_entity_type db k = Some e ->
        exists new,
          Database.get_entity_type db' k
            = Some (EntityType.set_relationships
                      e (EntityType.relationships e ++ new)) /\
          Forall (fun r => exists fk target,
                      (s, f, t) = (k, fk, target) /\
                      PyDict.mem (Database.entity_types db) target = true /\
                      resolved_reference e fk target r) new)).
  { intros [= <- <-]. split; [destruct db; reflexivity|].
    split; [reflexivity|]. split; [auto|]. split; [auto|].
    intros k e He. exists []. split; [|constructor].
    rewrite He, app_nil_r. destruct e; reflexivity. }
  destruct (Database.get_entity_type db s) as [es|] eqn:Es; [|exact Same].
  destruct (Database.get_entity_type db t) as [et|] eqn:Et; [|exact Same].
  clear Same. intros [= <- <-].
  unfold Database.get_entity_type in *.
  cbn [Database.entity_types Database.set_entity_types].
  split; [reflexivity|].
  split.
  { rewrite PyDict_keys_set. unfold PyDict.mem. rewrite Es. reflexivity. }
  split.
  { intros [Hwf Hall]. split; cbn.
    - apply PyDict_wf_set. exact Hwf.
    - rewrite Forall_forall in *. intros kv Hkv.
      apply PyDict_In_set in Hkv. destruct Hkv as [-> | Hkv]; auto.
      cbn. apply (Hall (s, es)). apply PyDict_get_Some_In. exact Es. }
  split.
  { intros k Hk. rewrite PyDict_get_set_other; [exact Hk|]. congruence. }
  intros k e He.
  destruct (string_dec k s) as [->|Hne].
  - rewrite Es in He. injection He as ->.
    eexists [_]. rewrite PyDict_get_set_same. split; [reflexivity|].
    constructor; [|constructor].
    exists f, t. split; [reflexivity|]. split.
    + unfold PyDict.mem. rewrite Et. reflexivity.
    + eexists. reflexivity.
  - exists []. rewrite PyDict_get_set_other by exact Hne.
    split; [|constructor].
    rewrite He, app_nil_r. destruct e; reflexivity.
Qed.

Lemma resolve_all_frame pending : forall db n db' n',
  fold_left (resolve_reference uid) pending (db, n) = (db', n') ->
  Database.set_entity_types db (Database.entity_types db') = db' /\
  PyDict.keys (Database.entity_types db')
    = PyDict.keys (Database.entity_types db) /\
  (Database.names_unique db -> Database.names_unique db') /\
  (forall k, Database.get_entity_type db k = None ->
             Database.get_entity_type db' k = None) /\
  (forall k e,
      Database.get_entity_type db k = Some e ->
      exists new,
        Database.get_entity_type db' k
          = Some (EntityType.set_relationships
                    e (EntityType.relationships e ++ new)) /\
        Forall (fun r => exists fk target,
                    In (k, fk, target) pending /\
                    PyDict.mem (Database.entity_types db) target = true /\
                    resolved_reference e fk target r) new).
Proof.
  induction pending as [|ref rest IH]; intros db n db' n' H.
  - injection H as <- <-. split; [destruct db; reflexivity|].
    split; [reflexivity|]. split; [auto|]. split; [auto|].
    intros k e He. exists []. split; [|constructor].
    rewrite He, app_nil_r. destruct e; reflexivity.
  - cbn [fold_left] in H.
    destruct (resolve_reference uid (db, n) ref) as [db1 n1] eqn:E1.
    apply resolve_step_frame in E1.
    destruct E1 as (F1 & K1 & U1 & N1 & G1).
    apply IH in H. destruct H as (F2 & K2 & U2 & N2 & G2).
    split.
    { rewrite <- F2, <- F1. reflexivity. }
    split; [congruence|]. split; [auto|]. split; [auto|].
    intros k e He.
    destruct (G1 k e He) as (new1 & Hg1 & Hf1).
    destruct (G2 k _ Hg1) as (new2 & Hg2 & Hf2).
    exists (new1 ++ new2). rewrite set_relationships_app in Hg2.
    split; [exact Hg2|].
    apply Forall_app. split.
    + eapply Forall_impl; [|exact Hf1].
      intros r (fk & target & -> & Hm & Hr).
      exists fk, target. split; [left; reflexivity | auto].
    + eapply Forall_impl; [|exact Hf2].
      intros r (fk & target & Hin & Hm & Hr).
      exists fk, target. split; [right; exact Hin|]. split.
      * apply PyDict_mem_keys. rewrite <- K1. apply PyDict_mem_keys.
        exact Hm.
      * eapply resolved_reference_attrs; [|exact Hr]. reflexivity.
Qed.

(** X26. [_resolve_references] only appends references: it keeps the
    names of the entity map and their order, leaves the pending list and
    every other field of the database as they were, and changes an entity
    in nothing but its relationship list, to which it appends.  Each
    appended relationship is the required-one [Reference] of a pending
    tuple of that entity whose target is an entity of the database, so a
    [REFERENCES] clause that names a table the DDL does not declare
    leaves no reference behind.  Entities stay filed under their own
    unique names. *)
Theorem X26_resolve_references_only_appends :
  forall a : adapter,
    let a' := _resolve_references uid a in
    _pending_references a' = _pending_references a /\
    Database.set_entity_types (database a)
      (Database.entity_types (database a')) = database a' /\
    PyDict.keys (Database.entity_types (database a'))
      = PyDict.keys (Database.entity_types (database a)) /\
    (Database.names_unique (database a) ->
     Database.names_unique (database a')) /\
    (forall k e,
        Database.get_entity_type (database a) k = Some e ->
        exists new,
          Database.get_entity_type (database a') k
            = Some (EntityType.set_relationships
                      e (EntityType.relationships e ++ new)) /\
          Forall (fun r => exists fk target,
                      In (k, fk, target) (_pending_references a) /\
                      PyDict.mem (Database.entity_types (database a)) target
                        = true /\
                      resolved_reference e fk target r) new).
Proof.
  intros a. cbv zeta. unfold _resolve_references.
  destruct (fold_left _ _ _) as [db' n'] eqn:E.
  apply resolve_all_frame in E. destruct E as (F & K & U & _ & G).
  cbn [_pending_references database].
  split; [reflexivity|]. split; [exact F|]. split; [exact K|].
  split; [exact U | exact G].
Qed.

Lemma parse_tables_inv tables : forall a a',
  tables_loop tables a = Some a' ->
  Database.set_entity_types (database a)
    (Database.entity_types (database a')) = database a' /\
  (Database.names_unique (database a) ->
   Database.names_unique (database a')) /\
  (forall k, In k (PyDict.keys (Database.entity_types (database a'))) <->
             In k (PyDict.keys (Database.entity_types (database a))) \/
             exists A body, In (A, body) tables /\ k = lower A) /\
  (Forall (fun ke => EntityType.relationships (snd ke) = [])
          (Database.entity_types (database a)) ->
   Forall (fun ke => EntityType.relationships (snd ke) = [])
          (Database.entity_types (database a'))).
Proof.
  unfold parse_tables.
  induction tables as [|[A0 body0] tables IH]; intros a a' H;
    cbn [fold_left obind fst snd] in H.
  - injection H as <-. split; [destruct (database a); reflexivity|].
    split; [auto|]. split; [|auto].
    intros k. split; [auto|]. intros [H|(A & body & [] & _)]. exact H.
  - destruct (parse_table (_pending_references a) A0 body0 (uids a))
      as [[[entity pending] n1]|] eqn:E.
    2: { cbn [obind] in H.
         rewrite fold_left_option_None in H; [discriminate | reflexivity]. }
    cbn [obind] in H.
    pose proof (parse_table_spec _ _ _ _ _ _ _ _ _ _ _ _ _ _ _ _ _ _ _ E)
      as (N & _).
    pose proof (parse_table_inv _ _ _ _ _ _ _ E) as (R & _).
    apply IH in H. cbn [database] in H.
    destruct H as (F & U & K & Rel).
    split.
    { rewrite <- F. reflexivity. }
    split.
    { intros Hu. apply U. apply add_entity_type_names_unique. exact Hu. }
    split.
    { intros k. rewrite K. unfold Database.add_entity_type.
      cbn [Database.entity_types Database.set_entity_types].
      rewrite PyDict_keys_set_In, N. split.
      - intros [[H| ->]|(A & body & Hin & ->)]; auto.
        + right. exists A0, body0. split; [left; reflexivity | reflexivity].
        + right. exists A, body. split; [right; exact Hin | reflexivity].
      - intros [H|(A & body & [[= <- <-]|Hin] & ->)]; auto.
        right. exists A, body. auto. }
    intros Hall. apply Rel. unfold Database.add_entity_type.
    cbn [Database.entity_types Database.set_entity_types].
    rewrite Forall_forall in *. intros kv Hkv.
    apply PyDict_In_set in Hkv. destruct Hkv as [-> | Hkv]; auto.
Qed.

(** X27. The database that [parse] returns has the given name, the
    relational paradigm, version 1 and no relationship type; its entities
    are filed under their own unique names, which are exactly the
    lower-cased names of the [CREATE TABLE] statements; and every
    relationship of an entity is a required-one [Reference] whose target
    is an entity of the database.  So the import never leaves a dangling
    reference, and its result meets the naming condition under which the
    dependency order of the export is defined. *)
Theorem X27_parse_database_invariants :
  forall (ddl db_name : string) (n : nat) (db : Database.t),
    parse_ddl ddl db_name n = Some db ->
    Database.db_name db = db_name /\
    Database.db_type db = RELATIONAL /\
    Database.version db = 1%Z /\
    Database.relationship_types db = [] /\
    Database.meta_id db = uid n /\
    Database.names_unique db /\
    (forall k, In k (PyDict.keys (Database.entity_types db)) <->
               exists A body,
                 In (A, body)
                    (_extract_create_tables findall_create_table
                       (_remove_comments sub_line_comments
                                         sub_block_comments ddl)) /\
                 k = lower A) /\
    (forall k e r,
        Database.get_entity_type db k = Some e ->
        In r (EntityType.relationships e) ->
        Relationship.is_Reference r = true /\
        Relationship.cardinality r = ONE_TO_ONE /\
        PyDict.mem (Database.entity_types db)
                   (Relationship.get_target_entity_name r) = true).
Proof.
  intros ddl db_name n db Hparse. unfold parse in Hparse.
  destruct (tables_loop _ _) as [a|] eqn:Ea; [|discriminate].
  cbn [obind] in Hparse. injection Hparse as <-.
  apply parse_tables_inv in Ea. cbn [database] in Ea.
  destruct Ea as (F & U & K & Rel).
  unfold _resolve_references.
  destruct (fold_left _ _ _) as [db' n'] eqn:E.
  apply resolve_all_frame in E. destruct E as (F' & K' & U' & N' & G').
  cbn [database].
  assert (Fields : db' = Database.mk db_name RELATIONAL
                           (Database.entity_types db') [] 1 None (uid n)).
  { rewrite <- F' at 1. rewrite <- F. reflexivity. }
  split; [rewrite Fields; reflexivity|].
  split; [rewrite Fields; reflexivity|].
  split; [rewrite Fields; reflexivity|].
  split; [rewrite Fields; reflexivity|].
  split; [rewrite Fields; reflexivity|].
  split.
  { apply U', U. split; [constructor | constructor]. }
  split.
  { intros k. rewrite K', K. cbn. split.
    - intros [[]|H]. exact H.
    - auto. }
  intros k e r He Hr.
  destruct (Database.get_entity_type (database a) k) as [e0|] eqn:E0.
  2: { rewrite (N' _ E0) in He. discriminate. }
  destruct (G' k e0 E0) as (new & Hg & Hf).
  rewrite Hg in He. injection He as <-.
  assert (R0 : EntityType.relationships e0 = []).
  { assert (Hall : Forall (fun ke => EntityType.relationships (snd ke) = [])
                          (Database.entity_types (database a)))
      by (apply Rel; constructor).
    rewrite Forall_forall in Hall.
    apply (Hall (k, e0)). apply PyDict_get_Some_In. exact E0. }
  cbn in Hr. rewrite R0 in Hr. cbn in Hr.
  rewrite Forall_forall in Hf.
  destruct (Hf r Hr) as (fk & target & _ & Hm & (meta & ->)).
  cbn. split; [reflexivity|]. split; [reflexivity|].
  apply PyDict_mem_keys. rewrite K'. apply PyDict_mem_keys. exact Hm.
Qed.

End ImportedSchema.

Lemma X23_parse_data_type_shape_witness :
  PostgreSQLAdapter._parse_data_type
    (fun s => s) (fun s => [s])
    (fun s => if String.eqb s "100" then Some 100%Z else None)
    [("VARCHAR", STRING)] "VARCHAR" (Some "abc") = None /\
  PostgreSQLAdapter._parse_data_type
    (fun s => s) (fun s => [s])
    (fun s => if String.eqb s "100" then Some 100%Z else None)
    [("VARCHAR", STRING)] "VARCHAR" (Some "100")
  = Some (PrimitiveDataType STRING (Some 100%Z) None None).
Proof.
  split; [|reflexivity].
  apply (proj2 (proj2 (proj2 (X23_parse_data_type_shape
                                (fun s => s) (fun s => [s])
                                (fun s => if String.eqb s "100"
                                          then Some 100%Z else None)
                                [("VARCHAR", STRING)] "VARCHAR"
                                (Some "abc"))))).
  exists "abc", "abc", []. split; [reflexivity|].
  split; [discriminate|]. split; [reflexivity|].
  left. split; [left; reflexivity | reflexivity].
Defined.

Lemma X24_parse_column_attribute_witness :
  exists attr,
    Samples.run_parse_column "customer_id INTEGER REFERENCES customer(id)" 0
    = Some ((Some attr, Some ("customer_id", "customer")), 1%nat) /\
    Attribute.attr_name attr = "customer_id" /\
    Attribute.meta_id attr = "fresh" /\
    key_not_optional attr.
Proof.
  destruct (Samples.run_parse_column
              "customer_id INTEGER REFERENCES customer(id)" 0)
    as [[[[attr|] ref] n']|] eqn:E;
    try (vm_compute in E; discriminate E).
  pose proof (X24_parse_column_attribute _ _ _ _ _ _ _ _ _ _ _ _ _ _ _ E)
    as (_ & Hm & _ & Hk & _ & Hfk).
  vm_compute in E. injection E as <- <- <-.
  eexists. split; [reflexivity|]. split; [reflexivity|].
  split; [exact Hm | exact Hk].
Defined.

Lemma X25_parse_table_entity_witness :
  exists entity pending n',
    Samples.run_parse_table "customer" "id SERIAL" 0
    = Some ((entity, pending), n') /\
    EntityType.en_name entity = "customer" /\
    EntityType.get_primary_key entity <> None.
Proof.
  destruct (Samples.run_parse_table "customer" "id SERIAL" 0)
    as [[[entity pending] n']|] eqn:E;
    [|vm_compute in E; discriminate E].
  pose proof (X25_parse_table_entity _ _ _ _ _ _ _ _ _ _ _ _ _ _ _ _ _ _ _
                E) as (Hn & _ & _ & _ & Hpk).
  exists entity, pending, n'. split; [reflexivity|]. split; [exact Hn|].
  apply Hpk. vm_compute in E. injection E as <- _ _.
  eexists. split; [left; reflexivity | reflexivity].
Defined.

Lemma X27_parse_database_invariants_witness :
  exists db,
    Samples.run_parse Samples.ddl_forward = Some db /\
    Database.names_unique db /\
    Database.db_type db = RELATIONAL /\
    PyDict.keys (Database.entity_types db) = ["orders"; "customer"].
Proof.
  destruct (Samples.run_parse Samples.ddl_forward) as [db|] eqn:E;
    [|vm_compute in E; discriminate E].
  pose proof (X27_parse_database_invariants
                _ _ _ _ _ _ _ _ _ _ _ _ _ _ _ _ _ _ _ E)
    as (_ & Ht & _ & _ & _ & Hu & _).
  exists db. split; [reflexivity|]. split; [exact Hu|].
  split; [exact Ht|].
  vm_compute in E. injection E as <-. reflexivity.
Defined.

(** ** Native type names in the export *)

Lemma string_app_inv_head (a b c : string) :
  (a ++ b = a ++ c)%string -> b = c.
Proof.
  induction a as [|x a IH]; simpl; intros H; [exact H|].
  injection H as H. exact (IH H).
Qed.

Lemma to_native_decimal_relational (ml sc : option Z) (p : Z) :
  p <> 0%Z ->
  to_native (PrimitiveDataType DECIMAL ml (Some p) sc) RELATIONAL
  = Some ("DECIMAL(" ++ str_of_int p ++ "," ++ str_of_int (int_or sc 0)
            ++ ")")%string.
Proof.
  intros Hp. cbn [to_native].
  replace (_get_native_type DECIMAL RELATIONAL) with (Some "DECIMAL")
    by reflexivity.
  cbn [DatabaseType_beq PrimitiveType_beq andb truthy_int str_of_opt_int].
  replace (DatabaseType_beq RELATIONAL RELATIONAL) with true by reflexivity.
  replace (PrimitiveType_beq DECIMAL STRING) with false by reflexivity.
  replace (PrimitiveType_beq DECIMAL DECIMAL) with true by reflexivity.
  cbn [andb]. rewrite (proj2 (Z.eqb_neq p 0) Hp). reflexivity.
Qed.

(** X28. The two renderings of a relational type name, [to_native] of
    the schema and [_get_sql_type] of the PostgreSQL export, agree on
    every string attribute (both print the length, and 255 when there is
    none) and on a decimal attribute with a precision and a scale other
    than 0; on a decimal attribute with a precision and no scale, or the
    scale 0, they differ: [to_native] prints the scale 0 and
    [_get_sql_type] the scale 2.  So a column that the import reads from
    [DECIMAL(p)], with scale 0, is exported as [DECIMAL(p,2)]. *)
Theorem X28_decimal_scale_renderings :
  forall (REVERSE_TYPE_MAP : list (PrimitiveType * string))
         (a : Attribute.t) (ml pr sc : option Z) (p : Z),
    enum_get PrimitiveType_beq REVERSE_TYPE_MAP STRING = Some "VARCHAR" ->
    enum_get PrimitiveType_beq REVERSE_TYPE_MAP DECIMAL = Some "DECIMAL" ->
    p <> 0%Z ->
    (Attribute.data_type a = PrimitiveDataType STRING ml pr sc ->
     PostgreSQLAdapter._get_sql_type REVERSE_TYPE_MAP a
     = to_native (Attribute.data_type a) RELATIONAL) /\
    (Attribute.data_type a = PrimitiveDataType DECIMAL ml (Some p) sc ->
     to_native (Attribute.data_type a) RELATIONAL
       = Some ("DECIMAL(" ++ str_of_int p ++ ","
                 ++ str_of_int (int_or sc 0) ++ ")")%string /\
     PostgreSQLAdapter._get_sql_type REVERSE_TYPE_MAP a
       = Some ("DECIMAL(" ++ str_of_int p ++ ","
                 ++ str_of_int (int_or sc 2) ++ ")")%string /\
     (truthy_int sc = true ->
      PostgreSQLAdapter._get_sql_type REVERSE_TYPE_MAP a
      = to_native (Attribute.data_type a) RELATIONAL) /\
     (truthy_int sc = false ->
      PostgreSQLAdapter._get_sql_type REVERSE_TYPE_MAP a
      <> to_native (Attribute.data_type a) RELATIONAL)) /\
    (forall (strip : string -> string) (split_commas : string -> list string)
            (py_int : string -> option Z) (TYPE_MAP : PyDict.t PrimitiveType)
            (type_name params s0 : string),
        PyDict.get_default TYPE_MAP type_name STRING = DECIMAL ->
        params <> "" -> split_commas params = [s0] ->
        py_int (strip s0) = Some p ->
        PostgreSQLAdapter._parse_data_type strip split_commas py_int TYPE_MAP
          type_name (Some params)
        = Some (PrimitiveDataType DECIMAL None (Some p) (Some 0%Z))).
Proof.
  intros REVERSE a ml pr sc p Hs Hd Hp.
  split; [|split].
  3: { intros strip split_commas py_int TYPE_MAP type_name params s0
              Ht Hne Hsplit Hint.
       unfold PostgreSQLAdapter._parse_data_type,
         PostgreSQLAdapter.nonempty.
       rewrite Ht, Hsplit, (proj2 (String.eqb_neq _ _) Hne).
       cbn [negb map]. rewrite Hint. reflexivity. }
  - intros Ha. unfold PostgreSQLAdapter._get_sql_type. rewrite Ha, Hs.
    cbn [String.eqb Ascii.eqb Bool.eqb to_native].
    replace (_get_native_type STRING RELATIONAL) with (Some "VARCHAR(255)")
      by reflexivity.
    replace (DatabaseType_beq RELATIONAL RELATIONAL) with true by reflexivity.
    replace (PrimitiveType_beq STRING STRING) with true by reflexivity.
    cbn [andb]. unfold int_or, truthy_int, str_of_opt_int.
    destruct ml as [z|]; [|reflexivity].
    destruct (Z.eqb z 0); reflexivity.
  - intros Ha.
    assert (E1 : to_native (Attribute.data_type a) RELATIONAL
                 = Some ("DECIMAL(" ++ str_of_int p ++ ","
                           ++ str_of_int (int_or sc 0) ++ ")")%string)
      by (rewrite Ha; apply to_native_decimal_relational; exact Hp).
    assert (E2 : PostgreSQLAdapter._get_sql_type REVERSE a
                 = Some ("DECIMAL(" ++ str_of_int p ++ ","
                           ++ str_of_int (int_or sc 2) ++ ")")%string).
    { unfold PostgreSQLAdapter._get_sql_type. rewrite Ha, Hd.
      cbn [String.eqb Ascii.eqb Bool.eqb int_or].
      rewrite (proj2 (Z.eqb_neq p 0) Hp). reflexivity. }
    split; [exact E1|]. split; [exact E2|].
    rewrite E1, E2. unfold truthy_int, int_or. split.
    + destruct sc as [z|]; [|discriminate].
      destruct (Z.eqb z 0); [discriminate | reflexivity].
    + intros Hsc H.
      assert (Hz : (if match sc with
                       | Some z => Z.eqb z 0
                       | None => true
                       end then true else false) = true).
      { destruct sc as [z|]; [|reflexivity].
        destruct (Z.eqb z 0); [reflexivity | discriminate]. }
      injection H as H.
      apply string_app_inv_head in H. injection H as H.
      destruct sc as [z|]; [destruct (Z.eqb z 0); [|discriminate]|];
        vm_compute in H; discriminate H.
Qed.

Lemma X28_decimal_scale_renderings_witness :
  to_native (PrimitiveDataType DECIMAL None (Some 15%Z) (Some 0%Z)) RELATIONAL
  = Some "DECIMAL(15,0)" /\
  PostgreSQLAdapter._get_sql_type
    [(STRING, "VARCHAR"); (DECIMAL, "DECIMAL")]
    (Attribute.mk "price"
       (PrimitiveDataType DECIMAL None (Some 15%Z) (Some 0%Z))
       false true None "a-9")
  = Some "DECIMAL(15,2)".
Proof.
  destruct (X28_decimal_scale_renderings
              [(STRING, "VARCHAR"); (DECIMAL, "DECIMAL")]
              (Attribute.mk "price"
                 (PrimitiveDataType DECIMAL None (Some 15%Z) (Some 0%Z))
                 false true None "a-9")
              None None (Some 0%Z) 15 eq_refl eq_refl)
    as (_ & H & _); [discriminate|].
  destruct (H eq_refl) as (H1 & H2 & _).
  split; [exact H1 | exact H2].
Defined.

(** X29. The PostgreSQL export has a type name for the primitive data
    types only: [_get_sql_type] raises exactly on the attributes whose
    data type is a list, a set or a map, for which [to_native] does give a
    relational name (X3).  The MongoDB export handles every attribute:
    [_export_attribute_to_property] always gives a property with a
    ["bsonType"], ["array"] with the type of its items for a list, and it
    writes a ["maxLength"] only for a primitive type that is exported as
    ["string"] and has a length other than 0. *)
Theorem X29_export_of_container_types :
  forall (SQL MONGO : list (PrimitiveType * string)) (a : Attribute.t),
    (PostgreSQLAdapter._get_sql_type SQL a = None <->
     forall pt ml pr sc,
       Attribute.data_type a <> PrimitiveDataType pt ml pr sc) /\
    (exists b,
        PyDict.get (MongoDBAdapter._export_attribute_to_property MONGO a)
                   "bsonType" = Some (JStr b)) /\
    (forall el,
        Attribute.data_type a = ListDataType el ->
        PyDict.get (MongoDBAdapter._export_attribute_to_property MONGO a)
                   "bsonType" = Some (JStr "array") /\
        exists b,
          PyDict.get (MongoDBAdapter._export_attribute_to_property MONGO a)
                     "items" = Some (JDict [("bsonType", JStr b)])) /\
    (PyDict.mem (MongoDBAdapter._export_attribute_to_property MONGO a)
                "maxLength" = true ->
     exists pt n pr sc,
       Attribute.data_type a = PrimitiveDataType pt (Some n) pr sc /\
       n <> 0%Z /\ MongoDBAdapter.bson_of MONGO pt = "string").
Proof.
  intros SQL MONGO a.
  unfold PostgreSQLAdapter._get_sql_type,
    MongoDBAdapter._export_attribute_to_property.
  destruct (Attribute.data_type a) as [pt ml pr sc | el | el | kt vt].
  - split.
    { split.
      - intros H. exfalso.
        destruct (String.eqb _ "VARCHAR"); [discriminate|].
        destruct (String.eqb _ "DECIMAL"); [discriminate|].
        destruct (String.eqb _ "INTEGER" && Attribute.is_key a);
          discriminate.
      - intros H. exfalso. apply (H pt ml pr sc). reflexivity. }
    split.
    { destruct (truthy_int ml && String.eqb _ "string");
        eexists; reflexivity. }
    split; [intros el H; discriminate|].
    destruct (truthy_int ml) eqn:Et; [|discriminate].
    destruct (String.eqb_spec (MongoDBAdapter.bson_of MONGO pt) "string")
      as [Eb|]; [|discriminate].
    intros _. destruct ml as [n|]; [|discriminate].
    exists pt, n, pr, sc. split; [reflexivity|]. split; [|exact Eb].
    intros ->. discriminate.
  - split; [split; [intros _ pt ml pr sc; discriminate | reflexivity]|].
    split; [destruct el; eexists; reflexivity|].
    split; [|destruct el; discriminate].
    intros el' _. destruct el; (split; [reflexivity | eexists; reflexivity]).
  - split; [split; [intros _ pt ml pr sc; discriminate | reflexivity]|].
    split; [eexists; reflexivity|].
    split; [intros el' H; discriminate | discriminate].
  - split; [split; [intros _ pt ml pr sc; discriminate | reflexivity]|].
    split; [eexists; reflexivity|].
    split; [intros el' H; discriminate | discriminate].
Qed.

(** ** The root document of the MongoDB export *)

Lemma embedded_step_In (rels : list Relationship.t) (x : string) :
  forall acc,
    In x (fold_left
            (fun acc rel =>
               if Relationship.is_Aggregate rel
               then set_add (Relationship.get_target_entity_name rel) acc
               else acc) rels acc)
    <-> In x acc \/
        exists rel, In rel rels /\ Relationship.is_Aggregate rel = true /\
                    Relationship.get_target_entity_name rel = x.
Proof.
  induction rels as [|r rs IH]; intros acc; simpl.
  - split; [auto|]. intros [H|(rel & [] & _)]. exact H.
  - rewrite IH. destruct (Relationship.is_Aggregate r) eqn:Er.
    + rewrite set_add_In. split.
      * intros [[->|H]|(rel & Hin & Ha & Ht)]; auto.
        -- right. exists r. auto.
        -- right. exists rel. auto.
      * intros [H|(rel & [<-|Hin] & Ha & Ht)]; auto.
        right. exists rel. auto.
    + split.
      * intros [H|(rel & Hin & Ha & Ht)]; auto.
        right. exists rel. auto.
      * intros [H|(rel & [<-|Hin] & Ha & Ht)]; auto; [congruence|].
        right. exists rel. auto.
Qed.

Lemma embedded_entities_In (d : Database.t) (x : string) :
  In x (MongoDBAdapter.embedded_entities d) <->
  exists e rel,
    In e (PyDict.values (Database.entity_types d)) /\
    In rel (EntityType.relationships e) /\
    Relationship.is_Aggregate rel = true /\
    Relationship.get_target_entity_name rel = x.
Proof.
  unfold MongoDBAdapter.embedded_entities.
  assert (G : forall es acc,
    In x (fold_left
            (fun acc entity =>
               fold_left
                 (fun acc rel =>
                    if Relationship.is_Aggregate rel
                    then set_add (Relationship.get_target_entity_name rel) acc
                    else acc)
                 (EntityType.relationships entity) acc) es acc)
    <-> In x acc \/
        exists e rel, In e es /\ In rel (EntityType.relationships e) /\
                      Relationship.is_Aggregate rel = true /\
                      Relationship.get_target_entity_name rel = x).
  { induction es as [|e es IH]; intros acc; simpl.
    - split; [auto|]. intros [H|(e & rel & [] & _)]. exact H.
    - rewrite IH, embedded_step_In. split.
      + intros [[H|(rel & Hin & Ha & Ht)]|(e' & rel & Hin & Hr)]; auto.
        * right. exists e, rel. auto.
        * right. exists e', rel. auto.
      + intros [H|(e' & rel & [<-|Hin] & Hr & Ha & Ht)]; auto.
        * left. right. exists rel. auto.
        * right. exists e', rel. auto. }
  rewrite G. simpl. split; [intros [[]|H]; exact H | auto].
Qed.

(** X30. [_find_root_entity] raises only on a database without entities;
    otherwise it returns the name of an entity of the database.  The set
    of embedded names that it builds holds exactly the targets of the
    aggregates of the database.  When some entity has an aggregate, the
    name returned is the name of an entity with an aggregate; and when
    some entity with an aggregate is the target of no aggregate, the name
    returned is the target of no aggregate either. *)
Theorem X30_find_root_entity :
  forall d : Database.t,
    (forall x, In x (MongoDBAdapter.embedded_entities d) <->
               exists e rel,
                 In e (PyDict.values (Database.entity_types d)) /\
                 In rel (EntityType.relationships e) /\
                 Relationship.is_Aggregate rel = true /\
                 Relationship.get_target_entity_name rel = x) /\
    (MongoDBAdapter._find_root_entity d = None <->
     Database.entity_types d = []) /\
    (forall r,
        MongoDBAdapter._find_root_entity d = Some r ->
        In r (PyDict.keys (Database.entity_types d)) /\
        ((exists ne, In ne (Database.entity_types d) /\
                     MongoDBAdapter.has_embedded (snd ne) = true) ->
         exists e, In (r, e) (Database.entity_types d) /\
                   MongoDBAdapter.has_embedded e = true) /\
        ((exists ne, In ne (Database.entity_types d) /\
                     MongoDBAdapter.has_embedded (snd ne) = true /\
                     ~ In (fst ne) (MongoDBAdapter.embedded_entities d)) ->
         ~ In r (MongoDBAdapter.embedded_entities d))).
Proof.
  intros d. split; [intros x; apply embedded_entities_In|].
  unfold MongoDBAdapter._find_root_entity. cbv zeta.
  destruct (find (fun ne => MongoDBAdapter.has_embedded (snd ne)
                            && negb (set_mem (fst ne)
                                       (MongoDBAdapter.embedded_entities d)))
                 (Database.entity_types d)) as [[k e]|] eqn:F1.
  { apply find_some in F1. destruct F1 as [Hin Hc].
    apply andb_true_iff in Hc. destruct Hc as [Hh Hm]. cbn [fst snd] in *.
    split.
    { split; [discriminate|]. intros E. rewrite E in Hin. destruct Hin. }
    intros r [= <-]. split.
    { unfold PyDict.keys. change k with (fst (k, e)). apply in_map.
      exact Hin. }
    split; [intros _; exists e; auto|].
    intros _. apply set_mem_false. apply negb_true_iff. exact Hm. }
  pose proof (find_none _ _ F1) as N1.
  destruct (find (fun ne => MongoDBAdapter.has_embedded (snd ne))
                 (Database.entity_types d)) as [[k e]|] eqn:F2.
  { apply find_some in F2. destruct F2 as [Hin Hh]. cbn [fst snd] in *.
    split.
    { split; [discriminate|]. intros E. rewrite E in Hin. destruct Hin. }
    intros r [= <-]. split.
    { unfold PyDict.keys. change k with (fst (k, e)). apply in_map.
      exact Hin. }
    split; [intros _; exists e; auto|].
    intros (ne & Hne & Hh' & Hnot). exfalso.
    specialize (N1 ne Hne). cbn in N1. rewrite Hh' in N1.
    apply set_mem_false in Hnot. rewrite Hnot in N1. discriminate. }
  pose proof (find_none _ _ F2) as N2.
  destruct (Database.entity_types d) as [|[k e] rest] eqn:Eet; cbn.
  { split; [split; reflexivity|]. intros r H. discriminate. }
  split; [split; discriminate|].
  intros r [= <-]. split; [left; reflexivity|].
  split.
  - intros (ne & Hne & Hh). exfalso. specialize (N2 ne Hne).
    cbn in N2. congruence.
  - intros (ne & Hne & Hh & _). exfalso. specialize (N2 ne Hne).
    cbn in N2. congruence.
Qed.

(** ** Forward references: from the text of a table body to the reference *)

Lemma split_columns_whole (strip : string -> string) (a : string) (d : Z) :
  depth_after a 0 = Some d ->
  PostgreSQLAdapter._split_columns strip a
  = if String.eqb (strip a) "" then [] else [strip a].
Proof.
  intros H. unfold PostgreSQLAdapter._split_columns.
  pose proof (split_loop_no_split strip a "" [] "" 0 d H) as E.
  replace (a ++ "")%string with a in E.
  - rewrite E. cbn [PostgreSQLAdapter.split_loop append].
    destruct (String.eqb (strip a) ""); reflexivity.
  - clear. induction a as [|x r IHr]; simpl; [reflexivity|].
    now rewrite <- IHr.
Qed.

Lemma split_columns_cons (strip : string -> string) (a b : string) :
  depth_after a 0 = Some 0%Z ->
  PostgreSQLAdapter._split_columns strip (a ++ "," ++ b)
  = strip a :: PostgreSQLAdapter._split_columns strip b.
Proof.
  intros H. unfold PostgreSQLAdapter._split_columns.
  rewrite (split_loop_no_split strip a ("," ++ b) [] "" 0 0 H).
  cbn [append PostgreSQLAdapter.split_loop Ascii.eqb Bool.eqb andb
       Z.eqb app].
  pose proof (split_loop_result_prefix strip b [strip a] [] "" 0) as E.
  cbn [app] in E. rewrite E. clear E.
  destruct (PostgreSQLAdapter.split_loop strip b [] "" 0) as [r c].
  cbn [fst snd app].
  destruct (negb (String.eqb (strip c) "")); reflexivity.
Qed.

Lemma concat_cons_nonempty (sep x : string) (l : list string) :
  l <> [] ->
  String.concat sep (x :: l) = (x ++ sep ++ String.concat sep l)%string.
Proof. destruct l; [congruence | reflexivity]. Qed.

(** The columns of a body that is a comma-separated list of definitions,
    each with balanced parentheses and no comma outside them. *)
Lemma split_columns_concat (strip : string -> string)
    (c_pre c_post : list string) (c : string) :
  Forall (fun x => depth_after x 0 = Some 0%Z) (c_pre ++ c :: c_post) ->
  strip c <> "" ->
  exists suffix,
    PostgreSQLAdapter._split_columns strip
      (String.concat "," (c_pre ++ c :: c_post))
    = map strip c_pre ++ strip c :: suffix.
Proof.
  intros Hall Hc. induction c_pre as [|x c_pre IH]; cbn [app map] in *.
  - inversion Hall as [|? ? Hd Hrest]; subst.
    destruct c_post as [|y l].
    + exists []. cbn [String.concat].
      rewrite (split_columns_whole strip c 0 Hd).
      destruct (String.eqb_spec (strip c) ""); [contradiction|reflexivity].
    + eexists. rewrite concat_cons_nonempty by discriminate.
      rewrite (split_columns_cons strip _ _ Hd). reflexivity.
  - inversion Hall as [|? ? Hd Hrest]; subst.
    destruct (IH Hrest) as [suffix E].
    exists suffix. rewrite concat_cons_nonempty.
    + rewrite (split_columns_cons strip _ _ Hd), E. reflexivity.
    + destruct c_pre; discriminate.
Qed.

Lemma for_each_app_inv {A St} (body : St -> A -> M St) (l1 l2 : list A) :
  forall s n s' n',
    for_each (l1 ++ l2) body s n = Some (s', n') ->
    exists s1 n1,
      for_each l1 body s n = Some (s1, n1) /\
      for_each l2 body s1 n1 = Some (s', n').
Proof.
  induction l1 as [|a l1 IH]; intros s n s' n' H; cbn [app for_each] in *.
  - exists s, n. split; [reflexivity | exact H].
  - unfold bind in *. destruct (body s a n) as [[s0 n0]|]; [|discriminate].
    apply IH. exact H.
Qed.

Section TwoPassImport.

Import PostgreSQLAdapter.

Variable uid : nat -> string.
Variable lower upper strip : string -> string.
Variable startswith : string -> string -> bool.
Variable contains : string -> string -> bool.
Variable normalize_whitespace : string -> string.
Variable split_commas : string -> list string.
Variable py_int : string -> option Z.
Variable sub_line_comments : string -> string.
Variable sub_block_comments : string -> string.
Variable findall_create_table : string -> list (string * string).
Variable match_column
  : string -> option (string * string * option string * option string).
Variable search_references : string -> option (string * string).
Variable TYPE_MAP : PyDict.t PrimitiveType.

Local Abbreviation parse_column :=
  (_parse_column uid lower upper strip contains normalize_whitespace
                 split_commas py_int match_column search_references
                 TYPE_MAP).
Local Abbreviation table_column :=
  (parse_table_column uid lower upper strip startswith contains
                      normalize_whitespace split_commas py_int match_column
                      search_references TYPE_MAP).
Local Abbreviation parse_table :=
  (_parse_table uid lower upper strip startswith contains
                normalize_whitespace split_commas py_int match_column
                search_references TYPE_MAP).
Local Abbreviation tables_loop :=
  (parse_tables uid lower upper strip startswith contains
                normalize_whitespace split_commas py_int match_column
                search_references TYPE_MAP).
Local Abbreviation parse_ddl :=
  (parse uid lower upper strip startswith contains normalize_whitespace
         split_commas py_int sub_line_comments sub_block_comments
         findall_create_table match_column search_references TYPE_MAP).
Local Abbreviation column_text := (column_text strip normalize_whitespace).
Local Abbreviation column_read :=
  (column_read upper strip startswith normalize_whitespace match_column).

(** What [_parse_column] returns when it builds an attribute. *)
Lemma parse_column_some col n attr ref n' :
  parse_column col n = Some ((Some attr, ref), n') ->
  exists g1 g2 g3 g4,
    match_column (strip (normalize_whitespace col)) = Some (g1, g2, g3, g4) /\
    Attribute.attr_name attr = lower g1 /\
    ref = match search_references
                  (match g4 with Some x => x | None => "" end) with
          | Some (t, _) => Some (lower g1, lower t)
          | None => None
          end /\
    (contains "NOT NULL" (upper (match g4 with Some x => x | None => "" end))
       = true -> Attribute.is_optional attr = false).
Proof.
  unfold _parse_column.
  destruct (match_column _) as [[[[g1 g2] g3] g4]|];
    [|intros H; discriminate].
  unfold bind.
  destruct (lift _ n) as [[dt n1]|]; [|discriminate].
  unfold ret. intros H. injection H as <- <- _.
  exists g1, g2, g3, g4. split; [reflexivity|]. split; [reflexivity|].
  split.
  - destruct (search_references _) as [[t c]|]; reflexivity.
  - cbn [Attribute.is_optional]. intros ->. reflexivity.
Qed.

(** A step of the loop of [_parse_table] leaves the attributes as they
    are or appends the attribute of the column. *)
Lemma table_column_attrs st x n st' n' :
  table_column st x n = Some (st', n') ->
  EntityType.attributes (fst st') = EntityType.attributes (fst st) \/
  exists attr ref,
    parse_column (strip x) n = Some ((Some attr, ref), n') /\
    EntityType.attributes (fst st')
    = EntityType.attributes (fst st) ++ [attr].
Proof.
  destruct st as [entity pending]. unfold parse_table_column.
  destruct (negb (nonempty (strip x))).
  { intros H. injection H as <- <-. auto. }
  destruct (existsb _ constraint_keywords).
  { intros H. injection H as <- <-. auto. }
  unfold bind at 1.
  destruct (parse_column (strip x) n) as [[r n1]|] eqn:Ec; [|discriminate].
  destruct r as [[attr|] ref_info].
  2: { intros H. injection H as <- <-. auto. }
  intros H. injection H as <- <-. right. exists attr, ref_info.
  split; [reflexivity|].
  cbn [fst]. destruct (contains _ _); reflexivity.
Qed.

(** On a definition that is read as a column the step appends its
    attribute. *)
Lemma table_column_read st c g1 g2 g3 g4 n st' n' :
  column_read c g1 g2 g3 g4 ->
  table_column st (strip c) n = Some (st', n') ->
  exists attr ref,
    parse_column (strip (strip c)) n = Some ((Some attr, ref), n') /\
    EntityType.attributes (fst st')
    = EntityType.attributes (fst st) ++ [attr].
Proof.
  intros (_ & Hne & Hkw & Hm) H.
  destruct st as [entity pending]. unfold parse_table_column in H.
  rewrite Hne, Hkw in H. cbn [negb] in H.
  unfold bind at 1 in H.
  destruct (parse_column (strip (strip c)) n) as [[r n1]|] eqn:Ec;
    [|discriminate].
  destruct r as [[attr|] ref_info].
  - injection H as <- <-. exists attr, ref_info. split; [reflexivity|].
    cbn [fst]. destruct (contains _ _); reflexivity.
  - exfalso. unfold _parse_column in Ec.
    unfold PostgreSQLAdapter.column_text in Hm. rewrite Hm in Ec.
    unfold bind in Ec. destruct (lift _ n) as [[dt n2]|]; discriminate.
Qed.

Lemma columns_extend l : forall st n st' n',
  for_each l table_column st n = Some (st', n') ->
  exists more,
    EntityType.attributes (fst st') = EntityType.attributes (fst st) ++ more.
Proof.
  induction l as [|x l IH]; intros st n st' n' H; cbn [for_each] in H.
  - injection H as <- <-. exists []. now rewrite app_nil_r.
  - unfold bind in H.
    destruct (table_column st x n) as [[s1 n1]|] eqn:E; [|discriminate].
    destruct (IH _ _ _ _ H) as [more Hm].
    destruct (table_column_attrs _ _ _ _ _ E) as [E1|(attr & ref & _ & E1)].
    + exists more. congruence.
    + exists (attr :: more). rewrite Hm, E1, <- app_assoc. reflexivity.
Qed.

(** Definitions whose column has another name add no attribute of the
    name [fk]. *)
Lemma columns_keep_absent (fk : string) l : forall st n st' n',
  for_each l table_column st n = Some (st', n') ->
  (forall x g1 g2 g3 g4,
      In x l ->
      match_column (strip (normalize_whitespace (strip x)))
        = Some (g1, g2, g3, g4) ->
      lower g1 <> fk) ->
  find (fun a => String.eqb (Attribute.attr_name a) fk)
       (EntityType.attributes (fst st)) = None ->
  find (fun a => String.eqb (Attribute.attr_name a) fk)
       (EntityType.attributes (fst st')) = None.
Proof.
  induction l as [|x l IH]; intros st n st' n' H Hother Hnone;
    cbn [for_each] in H.
  - injection H as <- <-. exact Hnone.
  - unfold bind in H.
    destruct (table_column st x n) as [[s1 n1]|] eqn:E; [|discriminate].
    apply (IH _ _ _ _ H).
    + intros y g1 g2 g3 g4 Hy. apply Hother. right. exact Hy.
    + destruct (table_column_attrs _ _ _ _ _ E)
        as [E1|(attr & ref & Ec & E1)]; rewrite E1; [exact Hnone|].
      rewrite find_app, Hnone. cbn [find].
      destruct (parse_column_some _ _ _ _ _ Ec)
        as (g1 & g2 & g3 & g4 & Hm & Hname & _).
      rewrite Hname.
      rewrite (proj2 (String.eqb_neq _ _)); [reflexivity|].
      apply (Hother x g1 g2 g3 g4); [left; reflexivity | exact Hm].
Qed.

(** The attribute that the entity of a table holds under the name of a
    column, when no earlier column of the table has that name. *)
Lemma parse_table_attribute pending table_name (c_pre c_post : list string)
    (c g1 g2 : string) (g3 g4 : option string) n entity pending' n' :
  parse_table pending table_name
              (String.concat "," (c_pre ++ c :: c_post)) n
    = Some ((entity, pending'), n') ->
  Forall (fun x => depth_after x 0 = Some 0%Z) (c_pre ++ c :: c_post) ->
  column_read c g1 g2 g3 g4 ->
  (forall x g1' g2' g3' g4',
      In x c_pre ->
      match_column (column_text x) = Some (g1', g2', g3', g4') ->
      lower g1' <> lower g1) ->
  exists attr ref m m',
    parse_column (strip (strip c)) m = Some ((Some attr, ref), m') /\
    EntityType.get_attribute entity (lower g1) = Some attr.
Proof.
  intros H Hbal Hread Hother.
  destruct (split_columns_concat strip c_pre c_post c Hbal (proj1 Hread))
    as [suffix Esplit].
  unfold _parse_table in H. unfold bind at 1 in H. cbv beta iota in H.
  unfold bind at 1 in H. rewrite Esplit in H.
  destruct (for_each _ _ _ _) as [[[e1 p1] n1]|] eqn:E; [|discriminate].
  apply for_each_app_inv in E. destruct E as (s1 & m1 & E1 & E2).
  cbn [for_each] in E2. unfold bind at 1 in E2.
  destruct (table_column s1 (strip c) m1) as [[s2 m2]|] eqn:Ec;
    [|discriminate].
  destruct (table_column_read _ _ _ _ _ _ _ _ _ Hread Ec)
    as (attr & ref & Epc & Eattrs).
  destruct (columns_extend _ _ _ _ _ E2) as [more Emore].
  assert (Hnone : find (fun a => String.eqb (Attribute.attr_name a) (lower g1))
                       (EntityType.attributes (fst s1)) = None).
  { apply (columns_keep_absent (lower g1) _ _ _ _ _ E1); [|reflexivity].
    intros x g1' g2' g3' g4' Hx Hm.
    apply in_map_iff in Hx. destruct Hx as (y & <- & Hy).
    apply (Hother y g1' g2' g3' g4' Hy). exact Hm. }
  destruct (parse_column_some _ _ _ _ _ Epc)
    as (h1 & h2 & h3 & h4 & Hm & Hname & _).
  assert (Hg : h1 = g1).
  { destruct Hread as (_ & _ & _ & Hm').
    unfold PostgreSQLAdapter.column_text in Hm'. congruence. }
  subst h1.
  assert (Hfind : find (fun a => String.eqb (Attribute.attr_name a) (lower g1))
                       (EntityType.attributes e1) = Some attr).
  { cbn [fst] in Emore. rewrite Emore, Eattrs, !find_app, Hnone.
    cbn [find]. rewrite Hname, String.eqb_refl. reflexivity. }
  exists attr, ref, m1, m2. split; [exact Epc|].
  unfold ret in H. injection H as <- _ _.
  unfold EntityType.get_attribute.
  destruct (EntityType.get_primary_key e1); [exact Hfind|].
  destruct (find Attribute.is_key (EntityType.attributes e1));
    exact Hfind.
Qed.

Lemma parse_tables_app_inv l1 l2 a a' :
  tables_loop (l1 ++ l2) a = Some a' ->
  exists a1, tables_loop l1 a = Some a1 /\ tables_loop l2 a1 = Some a'.
Proof.
  unfold parse_tables. rewrite fold_left_app.
  destruct (fold_left _ l1 (Some a)) as [a1|].
  - intros H. exists a1. split; [reflexivity | exact H].
  - rewrite fold_left_option_None; [discriminate | reflexivity].
Qed.

Lemma parse_tables_cons_inv A0 body0 rest a a' :
  tables_loop ((A0, body0) :: rest) a = Some a' ->
  exists entity pending n1,
    parse_table (_pending_references a) A0 body0 (uids a)
      = Some ((entity, pending), n1) /\
    tables_loop rest
      (mk_adapter (Database.add_entity_type (database a) entity) pending n1)
      = Some a'.
Proof.
  unfold parse_tables. cbn [fold_left obind fst snd]. intros H.
  destruct (parse_table (_pending_references a) A0 body0 (uids a))
    as [[[entity pending] n1]|] eqn:E.
  - exists entity, pending, n1. split; [reflexivity | exact H].
  - cbn [obind] in H.
    rewrite fold_left_option_None in H; [discriminate | reflexivity].
Qed.

(** Tables of other names leave the entity of a name alone. *)
Lemma parse_tables_get_other (k : string) tables : forall a a',
  tables_loop tables a = Some a' ->
  (forall A0 body0, In (A0, body0) tables -> lower A0 <> k) ->
  Database.get_entity_type (database a') k
  = Database.get_entity_type (database a) k.
Proof.
  induction tables as [|[A0 body0] rest IH]; intros a a' H Hother.
  - unfold parse_tables in H. cbn in H. injection H as <-. reflexivity.
  - apply parse_tables_cons_inv in H.
    destruct H as (entity & pending & n1 & Et & Hrest).
    rewrite (IH _ _ Hrest).
    + cbn [database]. unfold Database.get_entity_type,
        Database.add_entity_type.
      cbn [Database.entity_types Database.set_entity_types].
      apply PyDict_get_set_other.
      pose proof (parse_table_spec _ _ _ _ _ _ _ _ _ _ _ _ _ _ _ _ _ _ _ Et)
        as (N & _).
      rewrite N. intros Hk. apply (Hother A0 body0); [left; reflexivity|].
      congruence.
    + intros A1 b1 Hin. apply (Hother A1 b1). right. exact Hin.
Qed.


End TwoPassImport.


